(** * The OSTree repository engine (libostree/ostree-repo.c)

    A shallow embedding of the object store, the remotes registry, commit
    signing and the summary builder of [ostree-repo.c], with the properties
    its specification states about them.

    Conventions.
    - A C function returning [gboolean] with a [GError **] becomes a function
      into [GResult]; out-parameters become the carried value.
    - A directory file descriptor becomes the directory it designates, a
      finite map from relative path to entry; [-1] becomes [None].
    - [self->parent_repo] is an optional repository, so a repository is the
      head of a finite parent chain.
    - GLib, the kernel, the OpenPGP engine and the parts of libostree that
      live in other files are environment: small models, section variables
      or classes of operations.
    - A path is found, missing ([ENOENT]) or failing with another [errno];
      a system call on a descriptor that is already open ([fstat], [read],
      [mmap], [readlink], listing extended attributes) succeeds, and the
      retry on [EINTR] is not modelled.
    - A violated [g_assert] or [g_return_val_if_fail] is the outcome
      [GAbort]. *)

From Stdlib Require Import ZArith.
From stdpp Require Import base option list gmap strings sorting pretty.

#[local] Set Warnings "-register-all".

Abbreviation bytes := (list Byte.byte).

(** ** GLib: errors and results *)

Inductive errno : Set :=
  | ENOENT | EACCES | EIO | ELOOP | EISDIR | EBADF | ENODATA.

Inductive GErrorCode : Set :=
  | G_IO_ERROR_FAILED
  | G_IO_ERROR_NOT_FOUND
  | G_IO_ERROR_EXISTS
  | G_IO_ERROR_PERMISSION_DENIED
  | G_IO_ERROR_IS_DIRECTORY
  | G_IO_ERROR_TOO_MANY_LINKS
  | G_KEY_FILE_ERROR_KEY_NOT_FOUND
  | G_KEY_FILE_ERROR_GROUP_NOT_FOUND
  | G_KEY_FILE_ERROR_INVALID_VALUE.

Global Instance errno_eq_dec : EqDecision errno.
Proof. solve_decision. Defined.
Global Instance GErrorCode_eq_dec : EqDecision GErrorCode.
Proof. solve_decision. Defined.

(** [g_io_error_from_errno], as used by [glnx_throw_errno]. *)
Definition g_io_error_from_errno (e : errno) : GErrorCode :=
  match e with
  | ENOENT => G_IO_ERROR_NOT_FOUND
  | EACCES => G_IO_ERROR_PERMISSION_DENIED
  | EISDIR => G_IO_ERROR_IS_DIRECTORY
  | ELOOP => G_IO_ERROR_TOO_MANY_LINKS
  | EIO | EBADF | ENODATA => G_IO_ERROR_FAILED
  end.

(** The outcome of a call: success with the out-values, failure with the
    [GError] set, or a failed [g_assert] (the process aborts). *)
Inductive GResult (A : Type) : Type :=
  | GOk (a : A)
  | GErr (e : GErrorCode)
  | GAbort.
Global Arguments GOk {A} a.
Global Arguments GErr {A} e.
Global Arguments GAbort {A}.

Global Instance GResult_ret : MRet GResult := λ A a, GOk a.
Global Instance GResult_bind : MBind GResult := λ A B k r,
  match r with
  | GOk a => k a
  | GErr e => GErr e
  | GAbort => GAbort
  end.

Global Instance GResult_fmap : FMap GResult := λ A B f r,
  match r with
  | GOk a => GOk (f a)
  | GErr e => GErr e
  | GAbort => GAbort
  end.

Definition glnx_throw_errno {A} (e : errno) : GResult A :=
  GErr (g_io_error_from_errno e).

(** ** The kernel: directories *)

(** [S_IFMT] and the two formats the object store accepts. *)
Definition S_IFMT : Z := 0xF000.
Definition S_IFREG : Z := 0x8000.
Definition S_IFLNK : Z := 0xA000.
Definition S_IFDIR : Z := 0x4000.

Definition S_ISREG (m : Z) : bool := bool_decide (Z.land m S_IFMT = S_IFREG).
Definition S_ISLNK (m : Z) : bool := bool_decide (Z.land m S_IFMT = S_IFLNK).
Definition S_ISDIR (m : Z) : bool := bool_decide (Z.land m S_IFMT = S_IFDIR).

(** The decoded [user.ostreemeta] extended attribute, a variant of type
    [(uuua(ayay))]; the three integers are stored big-endian. *)
Record FileMeta : Type := mkFileMeta {
  fm_uid_be : Z;
  fm_gid_be : Z;
  fm_mode_be : Z;
  fm_xattrs : list (bytes * bytes)
}.

(** What a path of a directory leads to: the [struct stat] fields the code
    reads, the payload ([i_data]: the bytes of a regular file, the target of
    a symbolic link), and the extended attributes. *)
Record inode : Type := mkInode {
  st_mode : Z;
  st_uid : Z;
  st_gid : Z;
  i_data : bytes;
  i_xattrs : list (bytes * bytes);
  i_ostreemeta : option FileMeta
}.

Definition st_size (i : inode) : Z := Z.of_nat (length (i_data i)).

(** A directory entry is an inode, or a path on which every system call
    fails with the given [errno] (a permission or an I/O error). *)
Inductive dentry : Type :=
  | Entry (i : inode)
  | Fault (e : errno).

Abbreviation dir := (gmap string dentry).

Inductive sysres (A : Type) : Type :=
  | SysOk (a : A)
  | SysErr (e : errno).
Global Arguments SysOk {A} a.
Global Arguments SysErr {A} e.

(** [fstatat (dfd, path, &stbuf, AT_SYMLINK_NOFOLLOW)]. *)
Definition fstatat (d : dir) (path : string) : sysres inode :=
  match d !! path with
  | Some (Entry i) => SysOk i
  | Some (Fault e) => SysErr e
  | None => SysErr ENOENT
  end.

(** [openat (dfd, path, O_RDONLY | O_CLOEXEC)].  A regular file opens.  A
    symbolic link would be followed out of the directory, where the model
    does not reach: it fails with [ELOOP]; anything else with [EISDIR]. *)
Definition openat (d : dir) (path : string) : sysres inode :=
  match d !! path with
  | Some (Entry i) =>
      if S_ISREG (st_mode i) then SysOk i
      else if S_ISLNK (st_mode i) then SysErr ELOOP
      else SysErr EISDIR
  | Some (Fault e) => SysErr e
  | None => SysErr ENOENT
  end.

(** [unlinkat (dfd, path, 0)]: the directory afterwards and the result.
    Without [AT_REMOVEDIR] a directory is not removed: the call fails with
    [EISDIR] and the directory stays. *)
Definition unlinkat (d : dir) (path : string) : dir * sysres unit :=
  match d !! path with
  | Some (Entry i) =>
      if S_ISDIR (st_mode i) then (d, SysErr EISDIR)
      else (delete path d, SysOk ())
  | Some (Fault e) => (d, SysErr e)
  | None => (d, SysErr ENOENT)
  end.

(** [ot_openat_ignore_enoent]: [fd] stays [-1] on [ENOENT], which is not an
    error; every other failure is. *)
Definition ot_openat_ignore_enoent (d : dir) (path : string)
  : GResult (option inode) :=
  match openat d path with
  | SysOk i => GOk (Some i)
  | SysErr ENOENT => GOk None
  | SysErr e => glnx_throw_errno e
  end.

(** ** GLib: key files *)

(** A [GKeyFile]: group name to key to raw value. *)
Abbreviation GKeyFile := (gmap string (gmap string string)).

Definition g_key_file_lookup (kf : GKeyFile) (group key : string)
  : GResult string :=
  match kf !! group with
  | None => GErr G_KEY_FILE_ERROR_GROUP_NOT_FOUND
  | Some g =>
      match g !! key with
      | None => GErr G_KEY_FILE_ERROR_KEY_NOT_FOUND
      | Some raw => GOk raw
      end
  end.

(** ** The repository handle *)

Inductive OstreeRepoMode : Set :=
  | OSTREE_REPO_MODE_BARE
  | OSTREE_REPO_MODE_ARCHIVE_Z2
  | OSTREE_REPO_MODE_BARE_USER
  | OSTREE_REPO_MODE_BARE_USER_ONLY.

Inductive OstreeObjectType : Set :=
  | OSTREE_OBJECT_TYPE_FILE
  | OSTREE_OBJECT_TYPE_DIR_TREE
  | OSTREE_OBJECT_TYPE_DIR_META
  | OSTREE_OBJECT_TYPE_COMMIT
  | OSTREE_OBJECT_TYPE_TOMBSTONE_COMMIT
  | OSTREE_OBJECT_TYPE_COMMIT_META.

Global Instance OstreeRepoMode_eq_dec : EqDecision OstreeRepoMode.
Proof. solve_decision. Defined.
Global Instance OstreeObjectType_eq_dec : EqDecision OstreeObjectType.
Proof. solve_decision. Defined.

(** A variant made from serialized data ([g_variant_new_from_data],
    [g_variant_new_from_bytes]): its type follows the object type, and it
    either owns a heap buffer or borrows a memory mapping of the file. *)
Inductive GVariantBacking : Set := HeapBuffer | MappedFile.

Record GVariant : Type := mkGVariant {
  gv_type : OstreeObjectType;
  gv_data : bytes;
  gv_backing : GVariantBacking
}.

(** A variant built in memory ([GVariantBuilder], [GVariantDict]). *)
Inductive GVariantValue : Type :=
  | GV_string (s : string)
  | GV_bytestring (s : string)
  | GV_ay (b : bytes)
  | GV_uint64 (n : Z)
  | GV_array (l : list GVariantValue)
  | GV_tuple (l : list GVariantValue)
  | GV_dict_entry (key : string) (v : GVariantValue)
  | GV_vardict (d : list (string * GVariantValue)).

Record OstreeRemote : Type := mkRemote {
  remote_name : string;
  remote_group : string;
  remote_keyring : string;
  remote_file : option string;
  remote_options : GKeyFile
}.

(** The fields of [struct OstreeRepo] the modelled functions read or write.
    Descriptors are the directories they are open on: [repo_dir] is
    [repo_dir_fd], [objects_dir] is [objects_dir_fd], [commit_stagedir] is
    [commit_stagedir_fd]; [repodir] is the path of the repository. *)
Inductive OstreeRepo : Type := mkRepo {
  inited : bool;
  mode : OstreeRepoMode;
  repodir : string;
  repo_dir : dir;
  objects_dir : dir;
  commit_stagedir : option dir;
  parent_repo : option OstreeRepo;
  dirmeta_cache : option (gmap string GVariant);
  disable_xattrs : bool;
  config : GKeyFile;
  collection_id : option string;
  remotes : gmap string OstreeRemote
}.

Definition set_objects_dir (self : OstreeRepo) (d : dir) : OstreeRepo :=
  mkRepo (inited self) (mode self) (repodir self) (repo_dir self) d
    (commit_stagedir self)
    (parent_repo self) (dirmeta_cache self) (disable_xattrs self)
    (config self) (collection_id self) (remotes self).

Definition set_repo_dir (self : OstreeRepo) (d : dir) : OstreeRepo :=
  mkRepo (inited self) (mode self) (repodir self) d (objects_dir self)
    (commit_stagedir self)
    (parent_repo self) (dirmeta_cache self) (disable_xattrs self)
    (config self) (collection_id self) (remotes self).

Definition set_parent_repo (self : OstreeRepo) (p : option OstreeRepo)
  : OstreeRepo :=
  mkRepo (inited self) (mode self) (repodir self) (repo_dir self)
    (objects_dir self)
    (commit_stagedir self) p (dirmeta_cache self) (disable_xattrs self)
    (config self) (collection_id self) (remotes self).

Definition set_dirmeta_cache (self : OstreeRepo)
    (c : option (gmap string GVariant)) : OstreeRepo :=
  mkRepo (inited self) (mode self) (repodir self) (repo_dir self)
    (objects_dir self)
    (commit_stagedir self) (parent_repo self) c (disable_xattrs self)
    (config self) (collection_id self) (remotes self).

Definition set_commit_stagedir (self : OstreeRepo) (s : option dir)
  : OstreeRepo :=
  mkRepo (inited self) (mode self) (repodir self) (repo_dir self)
    (objects_dir self) s (parent_repo self) (dirmeta_cache self)
    (disable_xattrs self) (config self) (collection_id self) (remotes self).

(** Induction along the parent chain. *)
Fixpoint OstreeRepo_chain_ind (P : OstreeRepo → Prop)
    (Hroot : ∀ self, parent_repo self = None → P self)
    (Hchild : ∀ self parent,
        parent_repo self = Some parent → P parent → P self)
    (self : OstreeRepo) {struct self} : P self :=
  match self as r return P r with
  | mkRepo i m rp rd od sd None dc dx c cid rs =>
      Hroot (mkRepo i m rp rd od sd None dc dx c cid rs) eq_refl
  | mkRepo i m rp rd od sd (Some p) dc dx c cid rs =>
      Hchild (mkRepo i m rp rd od sd (Some p) dc dx c cid rs) p eq_refl
        (OstreeRepo_chain_ind P Hroot Hchild p)
  end.

(** ** Remotes registry: lookup and option getters *)

Definition _ostree_repo_get_remote (self : OstreeRepo) (name : string)
  : GResult OstreeRemote :=
  match remotes self !! name with
  | Some remote => GOk remote
  | None => GErr G_IO_ERROR_NOT_FOUND
  end.

Fixpoint _ostree_repo_get_remote_inherited (self : OstreeRepo) (name : string)
  : GResult OstreeRemote :=
  match _ostree_repo_get_remote self name with
  | GOk remote => GOk remote
  | other =>
      match parent_repo self with
      | Some parent => _ostree_repo_get_remote_inherited parent name
      | None => other
      end
  end.

Definition _ostree_repo_remote_name_is_file (remote_name : string) : bool :=
  String.prefix "file://" remote_name.

Section RemoteOptions.
(** GLib decodes a raw key-file value on access; [None] is
    [G_KEY_FILE_ERROR_INVALID_VALUE]. *)
Variable g_key_file_parse_value_as_string : string → option string.
Variable g_key_file_parse_value_as_string_list : string → option (list string).
Variable g_key_file_parse_value_as_boolean : string → option bool.

Definition g_key_file_get {A} (parse : string → option A)
    (kf : GKeyFile) (group key : string) : GResult A :=
  raw ← g_key_file_lookup kf group key;
  match parse raw with
  | Some v => GOk v
  | None => GErr G_KEY_FILE_ERROR_INVALID_VALUE
  end.

Definition g_key_file_get_string :=
  g_key_file_get g_key_file_parse_value_as_string.
Definition g_key_file_get_string_list :=
  g_key_file_get g_key_file_parse_value_as_string_list.
Definition g_key_file_get_boolean :=
  g_key_file_get g_key_file_parse_value_as_boolean.

Fixpoint ostree_repo_get_remote_option (self : OstreeRepo)
    (remote_name option_name : string) (default_value : option string)
  : GResult (option string) :=
  if _ostree_repo_remote_name_is_file remote_name then GOk default_value
  else
    match _ostree_repo_get_remote self remote_name with
    | GOk remote =>
        match g_key_file_get_string (remote_options remote)
                (remote_group remote) option_name with
        | GOk value => GOk (Some value)
        | GErr G_KEY_FILE_ERROR_KEY_NOT_FOUND =>
            (* errors of the parent are ignored: the remote was found *)
            match parent_repo self with
            | Some parent =>
                match ostree_repo_get_remote_option parent remote_name
                        option_name default_value with
                | GOk out_value => GOk out_value
                | _ => GOk default_value
                end
            | None => GOk default_value
            end
        | GErr temp_error => GErr temp_error
        | GAbort => GAbort
        end
    | GErr temp_error =>
        match parent_repo self with
        | Some parent =>
            ostree_repo_get_remote_option parent remote_name option_name
              default_value
        | None => GErr temp_error
        end
    | GAbort => GAbort
    end.

Fixpoint ostree_repo_get_remote_list_option (self : OstreeRepo)
    (remote_name option_name : string) : GResult (option (list string)) :=
  if _ostree_repo_remote_name_is_file remote_name then GOk None
  else
    match _ostree_repo_get_remote self remote_name with
    | GOk remote =>
        match g_key_file_get_string_list (remote_options remote)
                (remote_group remote) option_name with
        | GErr G_KEY_FILE_ERROR_KEY_NOT_FOUND =>
            match parent_repo self with
            | Some parent =>
                match ostree_repo_get_remote_list_option parent remote_name
                        option_name with
                | GOk out_value => GOk out_value
                | _ => GOk None
                end
            | None => GOk None
            end
        | GErr temp_error => GErr temp_error
        | GOk value => GOk (Some value)
        | GAbort => GAbort
        end
    | GErr temp_error =>
        match parent_repo self with
        | Some parent =>
            ostree_repo_get_remote_list_option parent remote_name option_name
        | None => GErr temp_error
        end
    | GAbort => GAbort
    end.

Fixpoint ostree_repo_get_remote_boolean_option (self : OstreeRepo)
    (remote_name option_name : string) (default_value : bool)
  : GResult bool :=
  if _ostree_repo_remote_name_is_file remote_name then GOk default_value
  else
    match _ostree_repo_get_remote self remote_name with
    | GOk remote =>
        match g_key_file_get_boolean (remote_options remote)
                (remote_group remote) option_name with
        | GErr G_KEY_FILE_ERROR_KEY_NOT_FOUND =>
            match parent_repo self with
            | Some parent =>
                match ostree_repo_get_remote_boolean_option parent
                        remote_name option_name default_value with
                | GOk out_value => GOk out_value
                | _ => GOk default_value
                end
            | None => GOk default_value
            end
        | GErr temp_error => GErr temp_error
        | GOk value => GOk value
        | GAbort => GAbort
        end
    | GErr temp_error =>
        match parent_repo self with
        | Some parent =>
            ostree_repo_get_remote_boolean_option parent remote_name
              option_name default_value
        | None => GErr temp_error
        end
    | GAbort => GAbort
    end.

Definition ostree_repo_remote_get_url (self : OstreeRepo) (name : string)
  : GResult string :=
  if _ostree_repo_remote_name_is_file name then GOk name
  else
    url ← ostree_repo_get_remote_option self name "url" None;
    match url with
    | Some u => GOk u
    | None => GErr G_IO_ERROR_NOT_FOUND
    end.

Definition ostree_repo_remote_get_gpg_verify (self : OstreeRepo)
    (name : string) : GResult bool :=
  (* for compatibility with pull-local, file:// URIs are not verified *)
  if _ostree_repo_remote_name_is_file name then GOk false
  else ostree_repo_get_remote_boolean_option self name "gpg-verify" true.

Definition ostree_repo_remote_get_gpg_verify_summary (self : OstreeRepo)
    (name : string) : GResult bool :=
  ostree_repo_get_remote_boolean_option self name "gpg-verify-summary" false.
End RemoteOptions.

(** ** Remotes registry: listing *)

(** [strcmp (a, b) <= 0] on NUL-terminated strings is the lexicographic
    order on their bytes, [String.le]; [g_list_sort] is a merge sort. *)
Definition g_list_sort_strcmp (l : list string) : list string :=
  merge_sort String.le l.

(** The helper calls itself; [fuel] bounds the number of calls, and [None]
    means the bound was reached before the helper returned. *)
Fixpoint _ostree_repo_remote_list (fuel : nat) (self : OstreeRepo)
    (out : gset string) : option (gset string) :=
  match fuel with
  | O => None
  | S fuel' =>
      let out' :=
        map_fold (λ key _ (acc : gset string), {[key]} ∪ acc) out
          (remotes self) in
      match parent_repo self with
      | Some _ => _ostree_repo_remote_list fuel' self out'
      | None => Some out'
      end
  end.

(** The array returned ([None] is [NULL]) and [*out_n_remotes]. *)
Definition ostree_repo_remote_list (fuel : nat) (self : OstreeRepo)
  : option (option (list string) * nat) :=
  remotes_ht ← _ostree_repo_remote_list fuel self ∅;
  let n_remotes := size remotes_ht in
  Some (if decide (0 < n_remotes)
        then Some (g_list_sort_strcmp (elements remotes_ht))
        else None,
        n_remotes).

(** ** Object store: loose paths *)

(** Modelled from the spec: [ostree_object_type_to_string] and
    [_ostree_loose_path] are defined in ostree-core.c, which is not part of
    this file.  The spec gives the layout [objects/XX/YYYY.EXT], with [XX]
    the first two characters of the digest, the rest as file stem, the
    extensions [.file], [.dirtree], [.dirmeta], [.commit], a [.commitmeta]
    twin next to a commit, and [.filez] instead of [.file] in archive-z2
    only.  The path is relative to the objects directory. *)
Definition ostree_object_type_to_string (objtype : OstreeObjectType) : string :=
  match objtype with
  | OSTREE_OBJECT_TYPE_FILE => "file"
  | OSTREE_OBJECT_TYPE_DIR_TREE => "dirtree"
  | OSTREE_OBJECT_TYPE_DIR_META => "dirmeta"
  | OSTREE_OBJECT_TYPE_COMMIT => "commit"
  | OSTREE_OBJECT_TYPE_TOMBSTONE_COMMIT => "commit-tombstone"
  | OSTREE_OBJECT_TYPE_COMMIT_META => "commitmeta"
  end.

Definition _ostree_loose_path (checksum : string) (objtype : OstreeObjectType)
    (repo_mode : OstreeRepoMode) : string :=
  String.substring 0 2 checksum +:+ "/" +:+
  String.substring 2 (String.length checksum - 2) checksum +:+ "." +:+
  ostree_object_type_to_string objtype +:+
  (if bool_decide (repo_mode = OSTREE_REPO_MODE_ARCHIVE_Z2
                   ∧ objtype = OSTREE_OBJECT_TYPE_FILE)
   then "z" else EmptyString).

(** Modelled from the spec: [OSTREE_OBJECT_TYPE_IS_META] is a macro of
    ostree-core.h; the metadata kinds are every kind but [FILE]. *)
Definition OSTREE_OBJECT_TYPE_IS_META (objtype : OstreeObjectType) : bool :=
  negb (bool_decide (objtype = OSTREE_OBJECT_TYPE_FILE)).

(** ** Object store: metadata objects *)

(** The out-parameters of [load_metadata_internal]; [None] is a pointer that
    was not passed, was left untouched, or was set to [NULL]. *)
Record MetadataOut : Type := mkMetadataOut {
  md_variant : option GVariant;
  md_stream : option bytes;
  md_size : option Z
}.

(** The variant of an open metadata file: mapped above 16 KiB, read into a
    buffer otherwise (the [if (out_variant)] block of
    [load_metadata_internal]). *)
Definition load_variant_from_fd (objtype : OstreeObjectType) (fd : inode)
  : GVariant :=
  if bool_decide (st_size fd > 16 * 1024)%Z
  then mkGVariant objtype (i_data fd) MappedFile
  else mkGVariant objtype (i_data fd) HeapBuffer.

(** [want_variant], [want_stream], [want_size] say which out-pointers are
    not [NULL].  The repository is returned too: a load may fill the
    directory-metadata cache of the repository that held the object.
    A violated [g_return_val_if_fail] is [GAbort]. *)
Fixpoint load_metadata_internal (self : OstreeRepo)
    (objtype : OstreeObjectType) (sha256 : string)
    (error_if_not_found want_variant want_stream want_size : bool)
  : OstreeRepo * GResult MetadataOut :=
  if negb (OSTREE_OBJECT_TYPE_IS_META objtype) then (self, GAbort)
  else
    let is_dirmeta_cachable :=
      bool_decide (objtype = OSTREE_OBJECT_TYPE_DIR_META)
      && want_variant && negb want_stream in
    let cache_hit :=
      if is_dirmeta_cachable
      then cache ← dirmeta_cache self; cache !! sha256
      else None in
    match cache_hit with
    | Some hit => (self, GOk (mkMetadataOut (Some hit) None None))
    | None =>
        let loose_path_buf := _ostree_loose_path sha256 objtype (mode self) in
        match ot_openat_ignore_enoent (objects_dir self) loose_path_buf with
        | GErr e => (self, GErr e)
        | GAbort => (self, GAbort)
        | GOk fd0 =>
            let fd_staged :=
              match fd0, commit_stagedir self with
              | None, Some stagedir =>
                  ot_openat_ignore_enoent stagedir loose_path_buf
              | _, _ => GOk fd0
              end in
            match fd_staged with
            | GErr e => (self, GErr e)
            | GAbort => (self, GAbort)
            | GOk (Some fd) =>
                if want_variant then
                  let ret_variant := load_variant_from_fd objtype fd in
                  let self' :=
                    match is_dirmeta_cachable, dirmeta_cache self with
                    | true, Some cache =>
                        set_dirmeta_cache self
                          (Some (<[sha256 := ret_variant]> cache))
                    | _, _ => self
                    end in
                  (self', GOk (mkMetadataOut (Some ret_variant) None
                                 (if want_size then Some (st_size fd)
                                  else None)))
                else
                  (self, GOk (mkMetadataOut None
                                (if want_stream then Some (i_data fd)
                                 else None)
                                (if want_size then Some (st_size fd)
                                 else None)))
            | GOk None =>
                match parent_repo self with
                | Some parent =>
                    (* ostree_repo_load_variant (self->parent_repo, ...) *)
                    let '(parent', r) :=
                      load_metadata_internal parent objtype sha256
                        true true false false in
                    match r with
                    | GOk out =>
                        (set_parent_repo self (Some parent'),
                         GOk (mkMetadataOut
                                (if want_variant then md_variant out
                                 else None)
                                None None))
                    | GErr e => (set_parent_repo self (Some parent'), GErr e)
                    | GAbort => (set_parent_repo self (Some parent'), GAbort)
                    end
                | None =>
                    if error_if_not_found
                    then (self, GErr G_IO_ERROR_NOT_FOUND)
                    else (self, GOk (mkMetadataOut None None None))
                end
            end
        end
    end.

Definition ostree_repo_load_variant_if_exists (self : OstreeRepo)
    (objtype : OstreeObjectType) (sha256 : string)
  : OstreeRepo * GResult (option GVariant) :=
  let '(self', r) :=
    load_metadata_internal self objtype sha256 false true false false in
  (self', md_variant <$> r).

Definition ostree_repo_load_variant (self : OstreeRepo)
    (objtype : OstreeObjectType) (sha256 : string)
  : OstreeRepo * GResult (option GVariant) :=
  let '(self', r) :=
    load_metadata_internal self objtype sha256 true true false false in
  (self', md_variant <$> r).

(** ** Object store: existence *)

Fixpoint has_loose_object_search (dfd_searches : list (option dir))
    (loose_path_buf : string) : GResult bool :=
  match dfd_searches with
  | [] => GOk false
  | None :: rest => has_loose_object_search rest loose_path_buf
  | Some dfd :: rest =>
      match fstatat dfd loose_path_buf with
      | SysErr ENOENT => has_loose_object_search rest loose_path_buf
      | SysErr e => glnx_throw_errno e
      | SysOk _ => GOk true
      end
  end.

Definition _ostree_repo_has_loose_object (self : OstreeRepo)
    (checksum : string) (objtype : OstreeObjectType) : GResult bool :=
  let loose_path_buf := _ostree_loose_path checksum objtype (mode self) in
  let dfd_searches := [commit_stagedir self; Some (objects_dir self)] in
  has_loose_object_search dfd_searches loose_path_buf.

Fixpoint ostree_repo_has_object (self : OstreeRepo)
    (objtype : OstreeObjectType) (checksum : string) : GResult bool :=
  ret_have_object ← _ostree_repo_has_loose_object self checksum objtype;
  match ret_have_object, parent_repo self with
  | false, Some parent => ostree_repo_has_object parent objtype checksum
  | _, _ => GOk ret_have_object
  end.

(** ** Object store: content objects *)

Record stat : Type := mkStat {
  stb_mode : Z;
  stb_uid : Z;
  stb_gid : Z;
  stb_size : Z
}.

Definition stat_of_inode (i : inode) : stat :=
  mkStat (st_mode i) (st_uid i) (st_gid i) (st_size i).

(** [GUINT32_FROM_BE] on a little-endian host: the four bytes are swapped. *)
Definition GUINT32_FROM_BE (x : Z) : Z :=
  Z.lor
    (Z.lor (Z.shiftl (Z.land x 0xFF) 24)
           (Z.shiftl (Z.land (Z.shiftr x 8) 0xFF) 16))
    (Z.lor (Z.shiftl (Z.land (Z.shiftr x 16) 0xFF) 8)
           (Z.land (Z.shiftr x 24) 0xFF)).

(** Overwrites identity and mode of [stbuf] with the recorded ones and
    returns the recorded extended attributes. *)
Definition filemeta_to_stat (stbuf : stat) (metadata : FileMeta)
  : stat * list (bytes * bytes) :=
  (mkStat (GUINT32_FROM_BE (fm_mode_be metadata))
          (GUINT32_FROM_BE (fm_uid_be metadata))
          (GUINT32_FROM_BE (fm_gid_be metadata))
          (stb_size stbuf),
   fm_xattrs metadata).

(** [glnx_fgetxattr_bytes (fd, "user.ostreemeta", error)]. *)
Definition glnx_fgetxattr_ostreemeta (fd : option inode) : GResult FileMeta :=
  match fd with
  | None => glnx_throw_errno EBADF
  | Some i =>
      match i_ostreemeta i with
      | Some m => GOk m
      | None => glnx_throw_errno ENODATA
      end
  end.

Definition PATH_MAX : nat := 4096.

(** [g_strndup (buf, n)]: at most [n] bytes, stopping at a NUL byte. *)
Fixpoint g_strndup (buf : bytes) (n : nat) : bytes :=
  match n, buf with
  | S n', b :: buf' =>
      if Byte.eqb b Byte.x00 then [] else b :: g_strndup buf' n'
  | _, _ => []
  end.

(** The out-parameters of [_ostree_repo_load_file_bare]. *)
Record BareFileOut : Type := mkBareFileOut {
  bf_fd : option inode;
  bf_stbuf : option stat;
  bf_symlink : option bytes;
  bf_xattrs : option (list (bytes * bytes))
}.

(** [_ostree_repo_load_file_bare] once [fstatat] has found the object, as
    [ino], in the directory [objdir_fd]: from [need_open] to the end. *)
Definition load_file_bare_found (self : OstreeRepo) (objdir_fd : dir)
    (loose_path_buf : string) (ino : inode)
    (want_fd want_stbuf want_symlink want_xattrs : bool)
  : GResult BareFileOut :=
  let stbuf := stat_of_inode ino in
  let need_open :=
    want_fd || want_xattrs
    || bool_decide (mode self = OSTREE_REPO_MODE_BARE_USER) in
  (* a regular file is opened if its fd is requested, and always in
     bare-user, where the stat() metadata lives in it *)
  fd ← (if need_open && S_ISREG (stb_mode stbuf)
        then match openat objdir_fd loose_path_buf with
             | SysOk f => GOk (Some f)
             | SysErr e => glnx_throw_errno e
             end
        else GOk None);
  if negb (S_ISREG (stb_mode stbuf) || S_ISLNK (stb_mode stbuf))
  then GErr G_IO_ERROR_FAILED
  else
    (* in the non-bare-user case, gather symlink info if requested *)
    let ret_symlink :=
      if negb (bool_decide (mode self = OSTREE_REPO_MODE_BARE_USER))
         && S_ISLNK (stb_mode stbuf) && want_symlink
      then Some (i_data ino) else None in
    r ← match mode self with
        | OSTREE_REPO_MODE_BARE_USER =>
            metadata ← glnx_fgetxattr_ostreemeta fd;
            let '(stbuf', ret_xattrs) := filemeta_to_stat stbuf metadata in
            if S_ISLNK (stb_mode stbuf')
            then
              (* the payload read from the fd is the target; in the
                 symlink case the bare-user fd is not returned *)
              GOk (None, stbuf',
                   if want_symlink
                   then Some (g_strndup (from_option i_data [] fd)
                                (PATH_MAX + 1))
                   else ret_symlink,
                   Some ret_xattrs)
            else GOk (fd, stbuf', ret_symlink, Some ret_xattrs)
        | OSTREE_REPO_MODE_BARE_USER_ONLY =>
            (* canonical info: uid/gid is 0 and no xattrs *)
            GOk (fd,
                 mkStat (stb_mode stbuf) 0 0 (stb_size stbuf),
                 ret_symlink,
                 if want_xattrs then Some [] else None)
        | OSTREE_REPO_MODE_BARE =>
            GOk (fd, stbuf, ret_symlink,
                 if S_ISREG (stb_mode stbuf) && want_xattrs
                 then Some (if disable_xattrs self then []
                            else from_option i_xattrs [] fd)
                 else if S_ISLNK (stb_mode stbuf) && want_xattrs
                 then Some (if disable_xattrs self then []
                            else i_xattrs ino)
                 else None)
        | OSTREE_REPO_MODE_ARCHIVE_Z2 =>
            (* g_assert (self->mode == OSTREE_REPO_MODE_BARE) *)
            GAbort
        end;
    let '(fd', stbuf', ret_symlink', ret_xattrs) := r in
    GOk (mkBareFileOut
           (if want_fd then fd' else None)
           (if want_stbuf then Some stbuf' else None)
           (if want_symlink then ret_symlink' else None)
           (if want_xattrs then ret_xattrs else None)).

(** [self] is not [NULL] here; the bottom case of the recursion, a [NULL]
    parent, is the [None] branch of the parent match. *)
Fixpoint _ostree_repo_load_file_bare (self : OstreeRepo) (checksum : string)
    (want_fd want_stbuf want_symlink want_xattrs : bool)
  : GResult BareFileOut :=
  let loose_path_buf :=
    _ostree_loose_path checksum OSTREE_OBJECT_TYPE_FILE (mode self) in
  (* fstatat() to find the object directory that contains the object *)
  let '(objdir_fd, res) :=
    match fstatat (objects_dir self) loose_path_buf, commit_stagedir self with
    | SysErr ENOENT, Some stagedir => (stagedir, fstatat stagedir loose_path_buf)
    | res, _ => (objects_dir self, res)
    end in
  match res with
  | SysErr ENOENT =>
      match parent_repo self with
      | Some parent =>
          _ostree_repo_load_file_bare parent checksum
            want_fd want_stbuf want_symlink want_xattrs
      | None => GErr G_IO_ERROR_NOT_FOUND
      end
  | SysErr e => glnx_throw_errno e
  | SysOk ino =>
      load_file_bare_found self objdir_fd loose_path_buf ino
        want_fd want_stbuf want_symlink want_xattrs
  end.

Record GFileInfo : Type := mkGFileInfo {
  fi_mode : Z;
  fi_uid : Z;
  fi_gid : Z;
  fi_size : Z;
  fi_symlink_target : option bytes
}.

(** The three parts of a content object: the content stream ([None] when
    there is none), the file information and the extended attributes. *)
Record LoadedFile : Type := mkLoadedFile {
  lf_input : option bytes;
  lf_file_info : option GFileInfo;
  lf_xattrs : option (list (bytes * bytes))
}.

(** Modelled from the spec: [_ostree_stbuf_to_gfileinfo] is defined in
    ostree-core.c; the file information reports the identity and mode of
    the [struct stat], and the size of a regular file. *)
Definition _ostree_stbuf_to_gfileinfo (stbuf : stat) : GFileInfo :=
  mkGFileInfo (stb_mode stbuf) (stb_uid stbuf) (stb_gid stbuf)
    (if S_ISREG (stb_mode stbuf) then stb_size stbuf else 0%Z) None.

Definition g_file_info_set_symlink_target (info : GFileInfo)
    (target : option bytes) : GFileInfo :=
  mkGFileInfo (fi_mode info) (fi_uid info) (fi_gid info) (fi_size info) target.

Section LoadFile.
(** The content codec of ostree-core.c decodes the framed header and
    payload of an archive object into its three parts. *)
Variable ostree_content_stream_parse :
  bytes → Z → GResult (option bytes * GFileInfo * list (bytes * bytes)).

(** [parent_load] is [ostree_repo_load_file (self->parent_repo, ...)],
    when there is a parent. *)
Definition repo_load_file_archive (self : OstreeRepo) (checksum : string)
    (want_input want_file_info want_xattrs : bool)
    (parent_load : option (GResult LoadedFile)) : GResult LoadedFile :=
  let loose_path_buf :=
    _ostree_loose_path checksum OSTREE_OBJECT_TYPE_FILE (mode self) in
  fd0 ← ot_openat_ignore_enoent (objects_dir self) loose_path_buf;
  fd ← match fd0, commit_stagedir self with
       | None, Some stagedir =>
           ot_openat_ignore_enoent stagedir loose_path_buf
       | _, _ => GOk fd0
       end;
  match fd with
  | Some f =>
      '(input, info, xattrs) ←
        ostree_content_stream_parse (i_data f) (st_size f);
      GOk (mkLoadedFile
             (if want_input then input else None)
             (if want_file_info then Some info else None)
             (if want_xattrs then Some xattrs else None))
  | None =>
      match parent_load with
      | Some r => r
      | None => GErr G_IO_ERROR_NOT_FOUND
      end
  end.

Fixpoint ostree_repo_load_file (self : OstreeRepo) (checksum : string)
    (want_input want_file_info want_xattrs : bool) : GResult LoadedFile :=
  match mode self with
  | OSTREE_REPO_MODE_ARCHIVE_Z2 =>
      repo_load_file_archive self checksum
        want_input want_file_info want_xattrs
        (match parent_repo self with
         | Some parent =>
             Some (ostree_repo_load_file parent checksum
                     want_input want_file_info want_xattrs)
         | None => None
         end)
  | _ =>
      r ← _ostree_repo_load_file_bare self checksum
            want_input want_file_info want_file_info want_xattrs;
      (* fd to GInputStream, struct stat to GFileInfo *)
      let out_input :=
        if want_input then i_data <$> bf_fd r else None in
      out_file_info ←
        match bf_stbuf r with
        | Some stbuf =>
            let info := _ostree_stbuf_to_gfileinfo stbuf in
            if S_ISLNK (stb_mode stbuf)
            then GOk (Some (g_file_info_set_symlink_target info
                              (bf_symlink r)))
            else if S_ISREG (stb_mode stbuf) then GOk (Some info)
            else GAbort
        | None => GOk None
        end;
      GOk (mkLoadedFile out_input out_file_info (bf_xattrs r))
  end.
End LoadFile.

(** ** Object store: deletion *)

Definition ostree_repo_get_config (self : OstreeRepo) : option GKeyFile :=
  if inited self then Some (config self) else None.

Section DeleteObject.
(** From otutil and ostree-repo-commit.c: the boolean of a key file with a
    default for a missing key, and the writer of a metadata object under a
    digest the caller vouches for. *)
Variable ot_keyfile_get_boolean_with_default :
  GKeyFile → string → string → bool → GResult bool.
Variable ostree_repo_write_metadata_trusted :
  OstreeRepo → OstreeObjectType → string → GVariantValue →
  OstreeRepo * GResult unit.

(** The repository afterwards and the result; on failure the repository
    keeps whatever had been done before the failing step. *)
Definition ostree_repo_delete_object (self : OstreeRepo)
    (objtype : OstreeObjectType) (sha256 : string)
  : OstreeRepo * GResult unit :=
  let loose_path := _ostree_loose_path sha256 objtype (mode self) in
  let '(self1, meta_unlinked) :=
    if bool_decide (objtype = OSTREE_OBJECT_TYPE_COMMIT) then
      let meta_loose :=
        _ostree_loose_path sha256 OSTREE_OBJECT_TYPE_COMMIT_META
          (mode self) in
      let '(d, unlinked) := unlinkat (objects_dir self) meta_loose in
      (set_objects_dir self d,
       match unlinked with
       | SysOk _ | SysErr ENOENT => GOk ()
       | SysErr e => glnx_throw_errno e
       end)
    else (self, GOk ()) in
  match meta_unlinked with
  | GOk _ =>
      let '(d, unlinked) := unlinkat (objects_dir self1) loose_path in
      let self2 := set_objects_dir self1 d in
      match unlinked with
      | SysErr e => (self2, glnx_throw_errno e)
      | SysOk _ =>
          (* a repository configured to use tombstone commits gets one
             when a commit is deleted *)
          if bool_decide (objtype = OSTREE_OBJECT_TYPE_COMMIT) then
            match ostree_repo_get_config self2 with
            | None => (self2, GAbort)
            | Some readonly_config =>
                match ot_keyfile_get_boolean_with_default readonly_config
                        "core" "tombstone-commits" false with
                | GOk true =>
                    ostree_repo_write_metadata_trusted self2
                      OSTREE_OBJECT_TYPE_TOMBSTONE_COMMIT sha256
                      (GV_vardict [("commit", GV_bytestring sha256)])
                | GOk false => (self2, GOk ())
                | GErr e => (self2, GErr e)
                | GAbort => (self2, GAbort)
                end
            end
          else (self2, GOk ())
      end
  | failed => (self1, failed)
  end.
End DeleteObject.

(** ** Signature engine *)

(** The name of the signature array in detached metadata, and its reading by
    [g_variant_lookup_value (metadata, "ostree.gpgsigs", "aay")]: the value
    under the key if it is an array of byte arrays. *)
Definition _OSTREE_METADATA_GPGSIGS_NAME : string := "ostree.gpgsigs".

Fixpoint vardict_lookup (d : list (string * GVariantValue)) (key : string)
  : option GVariantValue :=
  match d with
  | [] => None
  | (k, v) :: d' => if decide (k = key) then Some v else vardict_lookup d' key
  end.

(** A [GVariantDict]: [g_variant_dict_init] from an [a{sv}] (a later entry
    replaces an earlier one with the same key) or empty from [NULL],
    [g_variant_dict_insert_value] is the map insertion, and
    [g_variant_dict_end] lists the entries in the order of the table. *)
Definition g_variant_dict_init (from : option (list (string * GVariantValue)))
  : gmap string GVariantValue :=
  foldl (λ m kv, <[kv.1 := kv.2]> m) ∅ (default [] from).

Definition g_variant_dict_end (d : gmap string GVariantValue)
  : list (string * GVariantValue) :=
  map_to_list d.

Definition gv_as_ay (v : GVariantValue) : option bytes :=
  match v with GV_ay b => Some b | _ => None end.

Definition gv_as_aay (v : GVariantValue) : option (list bytes) :=
  match v with
  | GV_array l => mapM gv_as_ay l
  | _ => None
  end.

Definition lookup_gpgsigs (metadata : option (list (string * GVariantValue)))
  : option (list bytes) :=
  d ← metadata; v ← vardict_lookup d _OSTREE_METADATA_GPGSIGS_NAME; gv_as_aay v.

(** Which keyrings a verification uses: no remote ([NULL]), every remote
    (the [OSTREE_ALL_REMOTES] sentinel, compared by address), or one. *)
Inductive RemoteSelector : Type :=
  | NO_REMOTE
  | OSTREE_ALL_REMOTES
  | NAMED_REMOTE (name : string).

(** The OpenPGP side: the verifier of ostree-gpg-verifier.c, the verify
    result of ostree-gpg-verify-result.c, signing through gpgme, and the
    detached-metadata file of a commit (ostree-repo-commit.c). *)
Class GpgEngine : Type := {
  OstreeGpgVerifier : Type;
  OstreeGpgVerifyResult : Type;
  _ostree_gpg_verifier_new : OstreeGpgVerifier;
  _ostree_gpg_verifier_add_keyring_dir :
    OstreeGpgVerifier → string → GResult OstreeGpgVerifier;
  _ostree_gpg_verifier_add_global_keyring_dir :
    OstreeGpgVerifier → GResult OstreeGpgVerifier;
  _ostree_gpg_verifier_add_keyring :
    OstreeGpgVerifier → string → OstreeGpgVerifier;
  _ostree_gpg_verifier_add_key_ascii_file :
    OstreeGpgVerifier → string → OstreeGpgVerifier;
  _ostree_gpg_verifier_check_signature :
    OstreeGpgVerifier → bytes → bytes → GResult OstreeGpgVerifyResult;
  (** is there a signature made with this key ID in the result *)
  ostree_gpg_verify_result_lookup : OstreeGpgVerifyResult → string → bool;
  (** the keyring file of a remote, where [find_keyring] finds one *)
  find_keyring : OstreeRepo → OstreeRemote → option string;
  ot_keyfile_get_value_with_default :
    GKeyFile → string → string → option string → GResult (option string);
  (** the secret key with a key ID in a home directory, and a detached
      signature of data made with it *)
  gpgme_get_key : option string → string → GResult string;
  gpgme_op_sign_detach : string → bytes → GResult bytes;
  ostree_repo_read_commit_detached_metadata :
    OstreeRepo → string → GResult (option (list (string * GVariantValue)));
  ostree_repo_write_commit_detached_metadata :
    OstreeRepo → string → option (list (string * GVariantValue)) →
    OstreeRepo * GResult unit
}.

(** Modelled from the spec: [_ostree_detached_metadata_append_gpg_sig] is
    defined in ostree-core.c.  The spec: the signature is appended to the
    array under the key [ostree.gpgsigs] in the detached-metadata
    dictionary (an empty dictionary when there was no metadata). *)
Definition _ostree_detached_metadata_append_gpg_sig
    (existing_metadata : option (list (string * GVariantValue)))
    (signature_bytes : bytes) : list (string * GVariantValue) :=
  let metadata_dict := g_variant_dict_init existing_metadata in
  let signatures := default [] (lookup_gpgsigs existing_metadata) in
  g_variant_dict_end
    (<[_OSTREE_METADATA_GPGSIGS_NAME :=
         GV_array (GV_ay <$> signatures ++ [signature_bytes])]> metadata_dict).

Section Signing.
Context `{engine : GpgEngine}.

Definition _ostree_repo_gpg_verify_data_internal (self : OstreeRepo)
    (remote_name : RemoteSelector) (data signatures : bytes)
    (keyringdir extra_keyring : option string)
  : GResult OstreeGpgVerifyResult :=
  let verifier := _ostree_gpg_verifier_new in
  '(verifier, add_global_keyring_dir) ←
    match remote_name with
    | OSTREE_ALL_REMOTES =>
        (* add all available remote keyring files *)
        v ← _ostree_gpg_verifier_add_keyring_dir verifier (repodir self);
        GOk (v, true)
    | NAMED_REMOTE name =>
        remote ← _ostree_repo_get_remote_inherited self name;
        let '(v, global) :=
          match find_keyring self remote with
          | Some file => (_ostree_gpg_verifier_add_keyring verifier file, false)
          | None => (verifier, true)
          end in
        gpgkeypath ← ot_keyfile_get_value_with_default
                       (remote_options remote) (remote_group remote)
                       "gpgkeypath" None;
        GOk (match gpgkeypath with
             | Some path => _ostree_gpg_verifier_add_key_ascii_file v path
             | None => v
             end, global)
    | NO_REMOTE => GOk (verifier, true)
    end;
  verifier ← (if add_global_keyring_dir : bool
              then _ostree_gpg_verifier_add_global_keyring_dir verifier
              else GOk verifier);
  verifier ← match keyringdir with
             | Some d => _ostree_gpg_verifier_add_keyring_dir verifier d
             | None => GOk verifier
             end;
  let verifier :=
    match extra_keyring with
    | Some k => _ostree_gpg_verifier_add_keyring verifier k
    | None => verifier
    end in
  _ostree_gpg_verifier_check_signature verifier data signatures.

Definition _ostree_repo_gpg_verify_with_metadata (self : OstreeRepo)
    (signed_data : bytes)
    (metadata : option (list (string * GVariantValue)))
    (remote_name : RemoteSelector) (keyringdir extra_keyring : option string)
  : GResult OstreeGpgVerifyResult :=
  match lookup_gpgsigs metadata with
  | None => GErr G_IO_ERROR_NOT_FOUND
  | Some signaturedata =>
      (* each blob is a complete signature packet: concatenated, all the
         signatures are verified at once *)
      let signatures := concat signaturedata in
      _ostree_repo_gpg_verify_data_internal self remote_name signed_data
        signatures keyringdir extra_keyring
  end.


Definition ostree_repo_append_gpg_signature (self : OstreeRepo)
    (commit_checksum : string) (signature_bytes : bytes)
  : OstreeRepo * GResult unit :=
  match ostree_repo_read_commit_detached_metadata self commit_checksum with
  | GOk metadata =>
      ostree_repo_write_commit_detached_metadata self commit_checksum
        (Some (_ostree_detached_metadata_append_gpg_sig metadata
                 signature_bytes))
  | GErr e => (self, GErr e)
  | GAbort => (self, GAbort)
  end.

End Signing.

(** ** Summary builder *)

Definition OSTREE_COMMIT_TIMESTAMP : string := "ostree.commit.timestamp".
Definition OSTREE_SUMMARY_STATIC_DELTAS : string := "ostree.static-deltas".
Definition OSTREE_SUMMARY_LAST_MODIFIED : string :=
  "ostree.summary.last-modified".
Definition OSTREE_SUMMARY_COLLECTION_ID : string :=
  "ostree.summary.collection-id".
Definition OSTREE_SUMMARY_COLLECTION_MAP : string :=
  "ostree.summary.collection-map".
Definition G_USEC_PER_SEC : Z := 1000000.

(** [GUINT64_TO_BE] on a little-endian host: byte [i] moves to [7 - i]. *)
Definition GUINT64_TO_BE (x : Z) : Z :=
  foldr (λ i acc,
           Z.lor acc
             (Z.shiftl (Z.land (Z.shiftr x (8 * Z.of_nat i)) 0xFF)
                       (8 * (7 - Z.of_nat i))))
        0%Z (seq 0 8).

(** [glnx_file_replace_contents_at]: the file is replaced as a whole, by
    a new file renamed over it; over a directory the renaming fails with
    [EISDIR]. *)
Definition glnx_file_replace_contents_at (d : dir) (path : string)
    (buf : bytes) : dir * GResult unit :=
  let replaced :=
    (<[path := Entry (mkInode (Z.lor S_IFREG 0x1A4) 0 0 buf [] None)]> d,
     GOk ()) in
  match d !! path with
  | Some (Fault e) => (d, glnx_throw_errno e)
  | Some (Entry i) =>
      if S_ISDIR (st_mode i) then (d, glnx_throw_errno EISDIR) else replaced
  | None => replaced
  end.

Definition _ostree_repo_file_replace_contents (self : OstreeRepo)
    (path : string) (buf : bytes) : OstreeRepo * GResult unit :=
  let '(d, r) := glnx_file_replace_contents_at (repo_dir self) path buf in
  (set_repo_dir self d, r).

Definition ostree_repo_get_collection_id (self : OstreeRepo) : option string :=
  collection_id self.

(** The refs of ostree-repo-refs.c, the refspec and commit accessors of
    ostree-core.c, the static deltas, the clock and the serializer. *)
Class SummaryEnv : Type := {
  (** refspec to commit digest *)
  ostree_repo_list_refs : OstreeRepo → GResult (gmap string string);
  (** (collection ID, ref name) to commit digest *)
  ostree_repo_list_collection_refs :
    OstreeRepo → GResult (gmap (string * string) string);
  (** the remote, if any, and the ref of a refspec; [None] if malformed *)
  ostree_parse_refspec : string → option (option string * string);
  ostree_commit_get_timestamp : GVariant → Z;
  (** is there a [GDateTime] for this number of seconds *)
  g_date_time_new_from_unix_utc : Z → bool;
  ostree_checksum_to_bytes_v : string → bytes;
  ostree_repo_list_static_delta_names : OstreeRepo → GResult (list string);
  (** the SHA-256 of the superblock of the named delta *)
  static_delta_superblock_checksum : OstreeRepo → string → GResult bytes;
  (** microseconds since the epoch *)
  g_get_real_time : Z;
  g_variant_get_data : GVariantValue → bytes
}.

Section Summary.
Context `{env : SummaryEnv}.

(** Adds the entry of [ref] to [refs_builder], the elements so far of an
    array of type [a(s(taya{sv}))]. *)
Definition summary_add_ref_entry (self : OstreeRepo) (ref checksum : string)
    (refs_builder : list GVariantValue)
  : OstreeRepo * GResult (list GVariantValue) :=
  match ostree_parse_refspec ref with
  | None => (self, GAbort)
  | Some (Some remotename, _) =>
      (* remote refs are not put in the summary *)
      (self, GOk refs_builder)
  | Some (None, _) =>
      match ostree_repo_load_variant self OSTREE_OBJECT_TYPE_COMMIT
              checksum with
      | (self', GOk (Some commit_obj)) =>
          let commit_timestamp := ostree_commit_get_timestamp commit_obj in
          let commit_metadata_builder : gmap string GVariantValue :=
            if g_date_time_new_from_unix_utc commit_timestamp
            then <[OSTREE_COMMIT_TIMESTAMP :=
                     GV_uint64 (GUINT64_TO_BE commit_timestamp)]> ∅
            else ∅ in
          (self',
           GOk (refs_builder ++
                [GV_tuple
                   [GV_string ref;
                    GV_tuple
                      [GV_uint64 (Z.of_nat (length (gv_data commit_obj)));
                       GV_ay (ostree_checksum_to_bytes_v checksum);
                       GV_vardict
                         (g_variant_dict_end commit_metadata_builder)]]]))
      | (self', GOk None) => (self', GAbort)
      | (self', GErr e) => (self', GErr e)
      | (self', GAbort) => (self', GAbort)
      end
  end.

(** The loop over the sorted keys of a table of refs. *)
Fixpoint summary_add_ref_entries (self : OstreeRepo)
    (refs : gmap string string) (ordered_keys : list string)
    (builder : list GVariantValue)
  : OstreeRepo * GResult (list GVariantValue) :=
  match ordered_keys with
  | [] => (self, GOk builder)
  | ref :: rest =>
      match refs !! ref with
      | None => (self, GAbort)
      | Some commit =>
          match summary_add_ref_entry self ref commit builder with
          | (self', GOk builder') =>
              summary_add_ref_entries self' refs rest builder'
          | failed => failed
          end
      end
  end.

(** The table of collection ID to table of ref name to digest. *)
Definition summary_collection_map
    (collection_refs : gmap (string * string) string)
  : gmap string (gmap string string) :=
  map_fold (λ (ref : string * string) checksum collection_map,
              let ref_map := default ∅ (collection_map !! ref.1) in
              <[ref.1 := <[ref.2 := checksum]> ref_map]> collection_map)
           ∅ collection_refs.

(** The loop over the sorted collection IDs: the refs of the main
    collection go to [refs_builder], the others to a dictionary entry of
    their own in [collection_refs_builder]. *)
Fixpoint summary_add_collections (self : OstreeRepo)
    (main_collection_id : option string)
    (collection_map : gmap string (gmap string string))
    (ordered_collection_ids : list string)
    (refs_builder collection_refs_builder : list GVariantValue)
    (collection_map_size : nat)
  : OstreeRepo * GResult (list GVariantValue * list GVariantValue * nat) :=
  match ordered_collection_ids with
  | [] =>
      (self, GOk (refs_builder, collection_refs_builder, collection_map_size))
  | collection_id :: rest =>
      match collection_map !! collection_id with
      | None => (self, GAbort)
      | Some ref_map =>
          let is_main_collection_id :=
            bool_decide (main_collection_id = Some collection_id) in
          let ordered_refs := g_list_sort_strcmp (map_to_list ref_map).*1 in
          if is_main_collection_id then
            match summary_add_ref_entries self ref_map ordered_refs
                    refs_builder with
            | (self', GOk refs_builder') =>
                summary_add_collections self' main_collection_id
                  collection_map rest refs_builder' collection_refs_builder
                  collection_map_size
            | (self', GErr e) => (self', GErr e)
            | (self', GAbort) => (self', GAbort)
            end
          else
            match summary_add_ref_entries self ref_map ordered_refs [] with
            | (self', GOk entries) =>
                summary_add_collections self' main_collection_id
                  collection_map rest refs_builder
                  (collection_refs_builder ++
                   [GV_dict_entry collection_id (GV_array entries)])
                  (collection_map_size + length ordered_refs)
            | (self', GErr e) => (self', GErr e)
            | (self', GAbort) => (self', GAbort)
            end
      end
  end.

(** The dictionary of delta name to superblock digest. *)
Fixpoint summary_static_deltas (self : OstreeRepo) (delta_names : list string)
    (deltas_builder : gmap string GVariantValue)
  : GResult (gmap string GVariantValue) :=
  match delta_names with
  | [] => GOk deltas_builder
  | name :: rest =>
      csum ← static_delta_superblock_checksum self name;
      summary_static_deltas self rest (<[name := GV_ay csum]> deltas_builder)
  end.

(** The first part of [ostree_repo_regenerate_summary]: the variant
    [summary] of type [(a(s(taya{sv}))a{sv})] that is then written. *)
Definition regenerate_summary_variant (self : OstreeRepo)
    (additional_metadata : option (list (string * GVariantValue)))
  : OstreeRepo * GResult GVariantValue :=
  let additional_metadata_builder := g_variant_dict_init additional_metadata in
  let main_collection_id := ostree_repo_get_collection_id self in
  let listed :=
    match main_collection_id with
    | None =>
        match ostree_repo_list_refs self with
        | GOk refs =>
            let ordered_keys := g_list_sort_strcmp (map_to_list refs).*1 in
            summary_add_ref_entries self refs ordered_keys []
        | GErr e => (self, GErr e)
        | GAbort => (self, GAbort)
        end
    | Some _ => (self, GOk [])
    end in
  match listed with
  | (self1, GOk refs_builder) =>
      match (delta_names ← ostree_repo_list_static_delta_names self1;
             deltas_builder ← summary_static_deltas self1 delta_names ∅;
             GOk (delta_names, deltas_builder)) with
      | GOk (delta_names, deltas_builder) =>
          let additional_metadata_builder :=
            if bool_decide (0 < length delta_names)
            then <[OSTREE_SUMMARY_STATIC_DELTAS :=
                     GV_vardict (g_variant_dict_end deltas_builder)]>
                   additional_metadata_builder
            else additional_metadata_builder in
          let additional_metadata_builder :=
            <[OSTREE_SUMMARY_LAST_MODIFIED :=
                GV_uint64 (GUINT64_TO_BE (g_get_real_time / G_USEC_PER_SEC))]>
              additional_metadata_builder in
          (* refs which have a collection specified *)
          match ostree_repo_list_collection_refs self1 with
          | GOk collection_refs =>
              let collection_map := summary_collection_map collection_refs in
              let ordered_collection_ids :=
                g_list_sort_strcmp (map_to_list collection_map).*1 in
              match summary_add_collections self1 main_collection_id
                      collection_map ordered_collection_ids refs_builder
                      [] 0 with
              | (self2, GOk (refs_builder', collection_refs_builder,
                             collection_map_size)) =>
                  let additional_metadata_builder :=
                    match main_collection_id with
                    | Some id =>
                        <[OSTREE_SUMMARY_COLLECTION_ID := GV_string id]>
                          additional_metadata_builder
                    | None => additional_metadata_builder
                    end in
                  let additional_metadata_builder :=
                    if bool_decide (0 < collection_map_size)
                    then <[OSTREE_SUMMARY_COLLECTION_MAP :=
                             GV_array collection_refs_builder]>
                           additional_metadata_builder
                    else additional_metadata_builder in
                  (self2,
                   GOk (GV_tuple
                          [GV_array refs_builder';
                           GV_vardict
                             (g_variant_dict_end
                                additional_metadata_builder)]))
              | (self2, GErr e) => (self2, GErr e)
              | (self2, GAbort) => (self2, GAbort)
              end
          | GErr e => (self1, GErr e)
          | GAbort => (self1, GAbort)
          end
      | GErr e => (self1, GErr e)
      | GAbort => (self1, GAbort)
      end
  | (self1, GErr e) => (self1, GErr e)
  | (self1, GAbort) => (self1, GAbort)
  end.

Definition ostree_repo_regenerate_summary (self : OstreeRepo)
    (additional_metadata : option (list (string * GVariantValue)))
  : OstreeRepo * GResult unit :=
  match regenerate_summary_variant self additional_metadata with
  | (self2, GOk summary) =>
      match _ostree_repo_file_replace_contents self2 "summary"
              (g_variant_get_data summary) with
      | (self3, GOk _) =>
          let '(d, unlinked) := unlinkat (repo_dir self3) "summary.sig" in
          (set_repo_dir self3 d,
           match unlinked with
           | SysOk _ | SysErr ENOENT => GOk ()
           | SysErr e => glnx_throw_errno e
           end)
      | failed => failed
      end
  | (self2, GErr e) => (self2, GErr e)
  | (self2, GAbort) => (self2, GAbort)
  end.
End Summary.

(** ** Remotes registry: mutation *)

Definition set_remotes (self : OstreeRepo)
    (registry : gmap string OstreeRemote) : OstreeRepo :=
  mkRepo (inited self) (mode self) (repodir self) (repo_dir self)
    (objects_dir self) (commit_stagedir self) (parent_repo self)
    (dirmeta_cache self) (disable_xattrs self) (config self)
    (collection_id self) registry.

(** [g_hash_table_replace] answers whether the key was new; the repository
    afterwards and [already_existed]. *)
Definition _ostree_repo_add_remote (self : OstreeRepo) (remote : OstreeRemote)
  : OstreeRepo * bool :=
  let already_existed :=
    negb (bool_decide (remotes self !! remote_name remote = None)) in
  (set_remotes self (<[remote_name remote := remote]> (remotes self)),
   already_existed).

(** [g_hash_table_remove] answers whether the key was found; the repository
    afterwards and [removed]. *)
Definition _ostree_repo_remove_remote (self : OstreeRepo)
    (remote : OstreeRemote) : OstreeRepo * bool :=
  let removed :=
    bool_decide (is_Some (remotes self !! remote_name remote)) in
  (set_remotes self (delete (remote_name remote) (remotes self)), removed).

(** ** Repository modes *)

(** The [default:] case of the switch, an integer that is no mode, is not
    a value of [OstreeRepoMode]. *)
Definition ostree_repo_mode_to_string (mode : OstreeRepoMode)
  : GResult string :=
  match mode with
  | OSTREE_REPO_MODE_BARE => GOk "bare"
  | OSTREE_REPO_MODE_BARE_USER => GOk "bare-user"
  | OSTREE_REPO_MODE_BARE_USER_ONLY => GOk "bare-user-only"
  | OSTREE_REPO_MODE_ARCHIVE_Z2 => GOk "archive-z2"
  end.

Definition ostree_repo_mode_from_string (mode : string)
  : GResult OstreeRepoMode :=
  if bool_decide (mode = "bare") then GOk OSTREE_REPO_MODE_BARE
  else if bool_decide (mode = "bare-user") then GOk OSTREE_REPO_MODE_BARE_USER
  else if bool_decide (mode = "bare-user-only")
  then GOk OSTREE_REPO_MODE_BARE_USER_ONLY
  else if bool_decide (mode = "archive-z2") || bool_decide (mode = "archive")
  then GOk OSTREE_REPO_MODE_ARCHIVE_Z2
  else GErr G_IO_ERROR_FAILED.

(** ** Object store: storage size *)

Definition ostree_repo_query_object_storage_size (self : OstreeRepo)
    (objtype : OstreeObjectType) (sha256 : string) : GResult Z :=
  let loose_path := _ostree_loose_path sha256 objtype (mode self) in
  let res :=
    match fstatat (objects_dir self) loose_path, commit_stagedir self with
    | SysErr ENOENT, Some stagedir => fstatat stagedir loose_path
    | res, _ => res
    end in
  match res with
  | SysErr e => glnx_throw_errno e
  | SysOk stbuf => GOk (st_size stbuf)
  end.

(** ** Object store: streams and commit state *)

(** A local [guint64] that is declared without an initialiser: until it
    is assigned, its value is indeterminate. *)
Inductive local_guint64 : Set :=
  | Uninitialised
  | Assigned (n : Z).

Section LoadObjectStream.
(** Of ostree-core.c: the decoder of an archive object, and
    [ostree_raw_file_to_content_stream], which frames the three parts of a
    content object as one stream and tells its length. *)
Variable ostree_content_stream_parse :
  bytes → Z → GResult (option bytes * GFileInfo * list (bytes * bytes)).
Variable ostree_raw_file_to_content_stream :
  option bytes → option GFileInfo → option (list (bytes * bytes)) →
  GResult (bytes * Z).

(** [*out_input] and [*out_size].  [*out_size] is always written, with
    the local [size], which is declared without a value: the content
    branch assigns it, the metadata branch only through the [out_size] of
    [load_metadata_internal], and where that leaves it alone what is
    stored is the indeterminate value of the local. *)
Definition ostree_repo_load_object_stream (self : OstreeRepo)
    (objtype : OstreeObjectType) (checksum : string)
  : OstreeRepo * GResult (option bytes * local_guint64) :=
  if OSTREE_OBJECT_TYPE_IS_META objtype then
    let '(self', r) :=
      load_metadata_internal self objtype checksum true false true true in
    (self',
     (λ out, (md_stream out,
              match md_size out with
              | Some size => Assigned size
              | None => Uninitialised
              end)) <$> r)
  else
    (self,
     r ← ostree_repo_load_file ostree_content_stream_parse self checksum
           true true true;
     '(ret_input, size) ←
       ostree_raw_file_to_content_stream
         (lf_input r) (lf_file_info r) (lf_xattrs r);
     GOk (Some ret_input, Assigned size)).
End LoadObjectStream.

Definition OSTREE_REPO_COMMIT_STATE_PARTIAL : Z := 1.

(** Modelled from the spec: [_ostree_get_commitpartial_path] is defined in
    ostree-repo-commit.c.  The spec: a commit is partially fetched when the
    marker [state/<digest>.commitpartial] exists. *)
Definition _ostree_get_commitpartial_path (checksum : string) : string :=
  "state/" +:+ checksum +:+ ".commitpartial".

(** [fstatat (dfd, path, &stbuf, 0)]: a symbolic link is followed, out of
    the directory, where the model does not reach; as in [openat] this is
    [ELOOP]. *)
Definition fstatat_follow (d : dir) (path : string) : sysres inode :=
  match fstatat d path with
  | SysOk i => if S_ISLNK (st_mode i) then SysErr ELOOP else SysOk i
  | SysErr e => SysErr e
  end.

(** [want_variant] and [want_state] say which out-pointers are not [NULL];
    the result is [*out_variant] and [*out_state]. *)
Definition ostree_repo_load_commit (self : OstreeRepo) (checksum : string)
    (want_variant want_state : bool)
  : OstreeRepo * GResult (option GVariant * option Z) :=
  let '(self1, loaded) :=
    if want_variant then
      let '(self', r) :=
        load_metadata_internal self OSTREE_OBJECT_TYPE_COMMIT checksum
          true true false false in
      (self', md_variant <$> r)
    else (self, GOk None) in
  match loaded with
  | GOk out_variant =>
      if want_state then
        let commitpartial_path := _ostree_get_commitpartial_path checksum in
        match fstatat_follow (repo_dir self1) commitpartial_path with
        | SysOk _ =>
            (self1,
             GOk (out_variant,
                  Some (Z.lor 0 OSTREE_REPO_COMMIT_STATE_PARTIAL)))
        | SysErr ENOENT => (self1, GOk (out_variant, Some 0%Z))
        | SysErr e => (self1, glnx_throw_errno e)
        end
      else (self1, GOk (out_variant, None))
  | GErr e => (self1, GErr e)
  | GAbort => (self1, GAbort)
  end.

(** ** Directory-metadata cache: references *)

(** [G_MAXUINT], the largest [guint]. *)
Definition G_MAXUINT : Z := 4294967295.

(** [repo->dirmeta_cache_refcount], a [guint] of ostree-repo-private.h, is
    carried beside the handle, as its value between 0 and [G_MAXUINT]; [++]
    and [--] wrap around.  The result is the handle and the count
    afterwards. *)
Definition _ostree_repo_memory_cache_ref_init (repo : OstreeRepo)
    (dirmeta_cache_refcount : Z) : OstreeRepo * Z :=
  (match dirmeta_cache repo with
   | None => set_dirmeta_cache repo (Some ∅)
   | Some _ => repo
   end,
   ((dirmeta_cache_refcount + 1) mod (G_MAXUINT + 1))%Z).

Definition _ostree_repo_memory_cache_ref_destroy (repo : OstreeRepo)
    (dirmeta_cache_refcount : Z) : OstreeRepo * Z :=
  let dirmeta_cache_refcount :=
    ((dirmeta_cache_refcount - 1) mod (G_MAXUINT + 1))%Z in
  (if bool_decide (dirmeta_cache_refcount = 0%Z)
   then set_dirmeta_cache repo None
   else repo,
   dirmeta_cache_refcount).

(** ** Signature engine: commits *)

Section VerifyCommit.
Context `{engine : GpgEngine}.

(** Needed an internal version for the [remote_name] parameter: without a
    remote, every remote-specific keyring is used. *)
Definition _ostree_repo_verify_commit_internal (self : OstreeRepo)
    (commit_checksum : string) (remote_name : RemoteSelector)
    (keyringdir extra_keyring : option string)
  : OstreeRepo * GResult OstreeGpgVerifyResult :=
  match ostree_repo_load_variant self OSTREE_OBJECT_TYPE_COMMIT
          commit_checksum with
  | (self1, GOk (Some commit_variant)) =>
      match ostree_repo_read_commit_detached_metadata self1
              commit_checksum with
      | GOk metadata =>
          let signed_data := gv_data commit_variant in
          let remote_name :=
            match remote_name with
            | NO_REMOTE => OSTREE_ALL_REMOTES
            | _ => remote_name
            end in
          (self1,
           _ostree_repo_gpg_verify_with_metadata self1 signed_data metadata
             remote_name keyringdir extra_keyring)
      | GErr e => (self1, GErr e)
      | GAbort => (self1, GAbort)
      end
  | (self1, GOk None) => (self1, GAbort)
  | (self1, GErr e) => (self1, GErr e)
  | (self1, GAbort) => (self1, GAbort)
  end.
End VerifyCommit.

(** ** Remotes registry: loading from key files *)

Definition double_quote : string := String (Ascii.ascii_of_nat 34) EmptyString.

(** What is left of [s] after [prefix], if [s] begins with it. *)
Fixpoint string_strip_prefix (prefix s : string) : option string :=
  match prefix, s with
  | EmptyString, _ => Some s
  | String a prefix', String b s' =>
      if Ascii.eqb a b then string_strip_prefix prefix' s' else None
  | String _ _, EmptyString => None
  end.

(** What is before the last character of [s], if that character is [c]. *)
Fixpoint string_strip_last (c : Ascii.ascii) (s : string) : option string :=
  match s with
  | EmptyString => None
  | String a s' =>
      match s' with
      | EmptyString => if Ascii.eqb a c then Some EmptyString else None
      | String _ _ => String a <$> string_strip_last c s'
      end
  end.

Definition set_remote_file (remote : OstreeRemote) (file : option string)
  : OstreeRemote :=
  mkRemote (remote_name remote) (remote_group remote) (remote_keyring remote)
    file (remote_options remote).

(** Modelled from the spec: [ostree_remote_new_from_keyfile] is defined in
    ostree-remote.c.  The spec: a remote is a key-file group
    [remote "<name>"]; it has the name, the options of the group, no origin
    file yet, and the keyring file name [<name>.trustedkeys.gpg].  Any
    other group gives [NULL]. *)
Definition ostree_remote_new_from_keyfile (keyfile : GKeyFile)
    (group : string) : option OstreeRemote :=
  options ← keyfile !! group;
  rest ← string_strip_prefix ("remote " +:+ double_quote) group;
  name ← string_strip_last (Ascii.ascii_of_nat 34) rest;
  if decide (name = EmptyString) then None
  else Some (mkRemote name group (name +:+ ".trustedkeys.gpg") None
               {[group := options]}).

(** The first loop of [add_remotes_from_keyfile]: the remotes of the groups
    are queued, and the loop stops with an error at a remote whose name is
    registered already. *)
Fixpoint add_remotes_queue (self : OstreeRepo) (keyfile : GKeyFile)
    (file : option string) (groups : list string)
    (queue : list OstreeRemote) : GResult (list OstreeRemote) :=
  match groups with
  | [] => GOk queue
  | group :: groups' =>
      match ostree_remote_new_from_keyfile keyfile group with
      | Some remote =>
          (* make sure all the remotes in the key file are acceptable
             before adding any to the OstreeRepo *)
          if bool_decide (is_Some (remotes self !! remote_name remote))
          then GErr G_IO_ERROR_FAILED
          else
            add_remotes_queue self keyfile file groups'
              (queue ++ [match file with
                         | Some _ => set_remote_file remote file
                         | None => remote
                         end])
      | None => add_remotes_queue self keyfile file groups' queue
      end
  end.

(** [g_key_file_get_groups] lists the groups of the table; the second loop
    empties the queue into the registry. *)
Definition add_remotes_from_keyfile (self : OstreeRepo) (keyfile : GKeyFile)
    (file : option string) : OstreeRepo * GResult unit :=
  let groups := (map_to_list keyfile).*1 in
  match add_remotes_queue self keyfile file groups [] with
  | GOk queue =>
      (set_remotes self
         (foldl (λ registry remote, <[remote_name remote := remote]> registry)
            (remotes self) queue),
       GOk ())
  | GErr e => (self, GErr e)
  | GAbort => (self, GAbort)
  end.

(** ** Collection ID *)

Definition set_config (self : OstreeRepo) (kf : GKeyFile) : OstreeRepo :=
  mkRepo (inited self) (mode self) (repodir self) (repo_dir self)
    (objects_dir self) (commit_stagedir self) (parent_repo self)
    (dirmeta_cache self) (disable_xattrs self) kf
    (collection_id self) (remotes self).

Definition set_collection_id_field (self : OstreeRepo) (id : option string)
  : OstreeRepo :=
  mkRepo (inited self) (mode self) (repodir self) (repo_dir self)
    (objects_dir self) (commit_stagedir self) (parent_repo self)
    (dirmeta_cache self) (disable_xattrs self) (config self)
    id (remotes self).

(** [g_key_file_set_value]: the group is created if it is not there. *)
Definition g_key_file_set_value (kf : GKeyFile) (group key raw : string)
  : GKeyFile :=
  <[group := <[key := raw]> (default ∅ (kf !! group))]> kf.

(** [g_key_file_remove_key]: the key file afterwards and the result. *)
Definition g_key_file_remove_key (kf : GKeyFile) (group key : string)
  : GKeyFile * GResult unit :=
  match kf !! group with
  | None => (kf, GErr G_KEY_FILE_ERROR_GROUP_NOT_FOUND)
  | Some g =>
      match g !! key with
      | None => (kf, GErr G_KEY_FILE_ERROR_KEY_NOT_FOUND)
      | Some _ => (<[group := delete key g]> kf, GOk ())
      end
  end.

Section CollectionId.
(** [ostree_validate_collection_id] is defined in ostree-core.c; GLib
    escapes a string into the raw value that [g_key_file_set_string]
    stores. *)
Variable ostree_validate_collection_id : string → GResult unit.
Variable g_key_file_parse_string_as_value : string → string.

Definition g_key_file_set_string (kf : GKeyFile) (group key value : string)
  : GKeyFile :=
  g_key_file_set_value kf group key (g_key_file_parse_string_as_value value).

(** The configuration is loaded when the repository is opened:
    [self->config != NULL] is [inited self]. *)
Definition ostree_repo_set_collection_id (self : OstreeRepo)
    (collection_id : option string) : OstreeRepo * GResult unit :=
  match (match collection_id with
         | Some id => ostree_validate_collection_id id
         | None => GOk ()
         end) with
  | GOk _ =>
      let self1 := set_collection_id_field self collection_id in
      if inited self1 then
        match collection_id with
        | Some id =>
            (set_config self1
               (g_key_file_set_string (config self1) "core" "collection-id"
                  id),
             GOk ())
        | None =>
            let '(kf, removed) :=
              g_key_file_remove_key (config self1) "core" "collection-id" in
            (set_config self1 kf, removed)
        end
      else (self1, GOk ())
  | GErr e => (self, GErr e)
  | GAbort => (self, GAbort)
  end.
End CollectionId.

(** ** Progress display *)

(** What [_formatted_time_remaining_from_seconds] appends to the
    description, in order: each number with its unit.  A [guint64] is a
    natural number; no operation here leaves its range. *)
Definition time_remaining_fields (seconds_remaining : N) : list (N * string) :=
  let minutes_remaining := (seconds_remaining / 60)%N in
  let hours_remaining := (minutes_remaining / 60)%N in
  let days_remaining := (hours_remaining / 24)%N in
  (if decide (days_remaining = 0%N) then []
   else [(days_remaining, "days")])
  ++ (if decide (hours_remaining = 0%N) then []
      else [((hours_remaining mod 24)%N, "hours")])
  ++ (if decide (minutes_remaining = 0%N) then []
      else [((minutes_remaining mod 60)%N, "minutes")])
  ++ [((seconds_remaining mod 60)%N, "seconds")].

(** Each [g_string_append_printf (description, "%" G_GUINT64_FORMAT " days ",
    ...)] appends the number in decimal, a space, the unit and a space. *)
Definition _formatted_time_remaining_from_seconds (seconds_remaining : N)
  : string :=
  foldr (λ field description,
           pretty field.1 +:+ " " +:+ field.2 +:+ " " +:+ description)
    EmptyString (time_remaining_fields seconds_remaining).

(** ** Object store: listing *)

Global Instance OstreeObjectType_countable : Countable OstreeObjectType.
Proof.
  refine (inj_countable'
    (λ objtype, match objtype with
                | OSTREE_OBJECT_TYPE_FILE => 0
                | OSTREE_OBJECT_TYPE_DIR_TREE => 1
                | OSTREE_OBJECT_TYPE_DIR_META => 2
                | OSTREE_OBJECT_TYPE_COMMIT => 3
                | OSTREE_OBJECT_TYPE_TOMBSTONE_COMMIT => 4
                | OSTREE_OBJECT_TYPE_COMMIT_META => 5
                end)
    (λ n, match n with
          | 0 => OSTREE_OBJECT_TYPE_FILE
          | 1 => OSTREE_OBJECT_TYPE_DIR_TREE
          | 2 => OSTREE_OBJECT_TYPE_DIR_META
          | 3 => OSTREE_OBJECT_TYPE_COMMIT
          | 4 => OSTREE_OBJECT_TYPE_TOMBSTONE_COMMIT
          | _ => OSTREE_OBJECT_TYPE_COMMIT_META
          end) _).
  by intros [].
Defined.

(** A serialized object name ([ostree_object_name_serialize]) is the pair
    of the checksum and the object type; the table of listed objects maps
    every name to the same value, so it is the set of its keys. *)
Abbreviation ObjectNames := (gset (string * OstreeObjectType)).














(** ** Remotes registry: adding and deleting *)

(** A value of an [a{sv}] of options, by the types that
    [keyfile_set_from_vardict] tells apart. *)
Inductive GVariantOption : Type :=
  | GVO_string (s : string)
  | GVO_boolean (b : bool)
  | GVO_strv (l : list string)
  | GVO_unhandled.

Definition set_remote_options (remote : OstreeRemote) (options : GKeyFile)
  : OstreeRemote :=
  mkRemote (remote_name remote) (remote_group remote) (remote_keyring remote)
    (remote_file remote) options.

(** Modelled from the spec: [ostree_remote_new] is defined in
    ostree-remote.c.  The spec: a remote has its name, the key-file group
    [remote "<name>"], the keyring file name [<name>.trustedkeys.gpg], no
    origin file and no options yet. *)
Definition ostree_remote_new (name : string) : OstreeRemote :=
  mkRemote name ("remote " +:+ double_quote +:+ name +:+ double_quote)
    (name +:+ ".trustedkeys.gpg") None ∅.

(** [g_key_file_set_boolean] stores [true] or [false]. *)
Definition g_key_file_set_boolean (kf : GKeyFile) (group key : string)
    (value : bool) : GKeyFile :=
  g_key_file_set_value kf group key (if value then "true" else "false").

(** [g_key_file_remove_group]: the key file afterwards, and whether the
    group was there. *)
Definition g_key_file_remove_group (kf : GKeyFile) (group : string)
  : GKeyFile * bool :=
  match kf !! group with
  | Some _ => (delete group kf, true)
  | None => (kf, false)
  end.

(** [ot_ensure_unlinked_at]: a path that is not there is not an error. *)
Definition ot_ensure_unlinked_at (d : dir) (path : string)
  : dir * GResult unit :=
  let '(d', unlinked) := unlinkat d path in
  (d', match unlinked with
       | SysOk _ | SysErr ENOENT => GOk ()
       | SysErr e => glnx_throw_errno e
       end).

Section RemoteChange.
(** The environment of a change of the registry: the name check of
    ostree-core.c; the place of the [remotes.d] directory for a repository
    and an optional sysroot ([get_remotes_d_dir] reads fields of the handle
    that are not modelled), a directory outside the repository, with GIO's
    operations on it; GLib's serializer and parser of key files and its
    escaping of values; otutil's copy of a key-file group. *)
Variable ostree_validate_remote_name : string → GResult unit.
Variable get_remotes_d_dir : OstreeRepo → option string → option string.
Variable g_file_make_directory_with_parents : string → GResult unit.
Variable g_file_replace_contents : string → bytes → GResult unit.
Variable unlink : string → sysres unit.
Variable g_key_file_to_data : GKeyFile → bytes.
Variable g_key_file_load_from_data : bytes → GKeyFile * GResult unit.
Variable g_key_file_parse_string_as_value : string → string.
Variable g_key_file_parse_string_list_as_value : list string → string.
Variable ot_keyfile_copy_group : GKeyFile → GKeyFile → string → GKeyFile.

Definition g_key_file_set_string_list (kf : GKeyFile) (group key : string)
    (value : list string) : GKeyFile :=
  g_key_file_set_value kf group key
    (g_key_file_parse_string_list_as_value value).

(** Bind a subset of an [a{sv}] to options in a given key-file section. *)
Definition keyfile_set_from_vardict (keyfile : GKeyFile) (section : string)
    (vardict : list (string * GVariantOption)) : GKeyFile :=
  foldl (λ kf entry,
           match entry.2 with
           | GVO_string s =>
               g_key_file_set_string g_key_file_parse_string_as_value
                 kf section entry.1 s
           | GVO_boolean b => g_key_file_set_boolean kf section entry.1 b
           | GVO_strv l => g_key_file_set_string_list kf section entry.1 l
           | GVO_unhandled => kf (* g_critical *)
           end)
    keyfile vardict.

Definition ostree_repo_copy_config (self : OstreeRepo) : GResult GKeyFile :=
  if negb (inited self) then GAbort
  else
    match g_key_file_load_from_data (g_key_file_to_data (config self)) with
    | (copy, GOk _) => GOk copy
    | _ => GAbort (* g_assert_not_reached *)
    end.

Definition ostree_repo_write_config (self : OstreeRepo)
    (new_config : GKeyFile) : OstreeRepo * GResult unit :=
  if negb (inited self) then (self, GAbort)
  else
    let data := g_key_file_to_data new_config in
    match glnx_file_replace_contents_at (repo_dir self) "config" data with
    | (d, GOk _) =>
        let '(kf, loaded) := g_key_file_load_from_data data in
        (set_config (set_repo_dir self d) kf, loaded)
    | (d, failed) => (set_repo_dir self d, failed)
    end.

Definition impl_repo_remote_add (self : OstreeRepo)
    (sysroot : option string) (if_not_exists : bool) (name url : string)
    (options : option (list (string * GVariantOption)))
  : OstreeRepo * GResult unit :=
  match ostree_validate_remote_name name with
  | GOk _ =>
      match _ostree_repo_get_remote self name with
      | GOk remote =>
          if if_not_exists then (self, GOk ()) (* note early return *)
          else (self, GErr G_IO_ERROR_FAILED)
      | _ =>
          let remote := ostree_remote_new name in
          match (match get_remotes_d_dir self sysroot with
                 | Some etc_ostree_remotes_d =>
                     match g_file_make_directory_with_parents
                             etc_ostree_remotes_d with
                     | GOk _ | GErr G_IO_ERROR_EXISTS =>
                         let basename := name +:+ ".conf" in
                         GOk (set_remote_file remote
                                (Some (etc_ostree_remotes_d +:+ "/"
                                       +:+ basename)))
                     | GErr e => GErr e
                     | GAbort => GAbort
                     end
                 | None => GOk remote
                 end) with
          | GOk remote =>
              let group := remote_group remote in
              let options1 :=
                match string_strip_prefix "metalink=" url with
                | Some metalink =>
                    g_key_file_set_string g_key_file_parse_string_as_value
                      (remote_options remote) group "metalink" metalink
                | None =>
                    g_key_file_set_string g_key_file_parse_string_as_value
                      (remote_options remote) group "url" url
                end in
              let options2 :=
                match options with
                | Some vardict => keyfile_set_from_vardict options1 group vardict
                | None => options1
                end in
              let remote := set_remote_options remote options2 in
              let '(self1, written) :=
                match remote_file remote with
                | Some file =>
                    (self,
                     g_file_replace_contents file
                       (g_key_file_to_data options2))
                | None =>
                    match ostree_repo_copy_config self with
                    | GOk config =>
                        ostree_repo_write_config self
                          (ot_keyfile_copy_group options2 config group)
                    | GErr e => (self, GErr e)
                    | GAbort => (self, GAbort)
                    end
                end in
              match written with
              | GOk _ => ((_ostree_repo_add_remote self1 remote).1, GOk ())
              | failed => (self1, failed)
              end
          | GErr e => (self, GErr e)
          | GAbort => (self, GAbort)
          end
      end
  | GErr e => (self, GErr e)
  | GAbort => (self, GAbort)
  end.

Definition ostree_repo_remote_add (self : OstreeRepo) (name url : string)
    (options : option (list (string * GVariantOption)))
  : OstreeRepo * GResult unit :=
  impl_repo_remote_add self None false name url options.

Definition impl_repo_remote_delete (self : OstreeRepo)
    (sysroot : option string) (if_exists : bool) (name : string)
  : OstreeRepo * GResult unit :=
  match ostree_validate_remote_name name with
  | GOk _ =>
      match _ostree_repo_get_remote self name, if_exists with
      | GOk remote, _ =>
          let '(self1, removed) :=
            match remote_file remote with
            | Some file =>
                (self,
                 match unlink file with
                 | SysOk _ => GOk ()
                 | SysErr e => glnx_throw_errno e
                 end)
            | None =>
                match ostree_repo_copy_config self with
                | GOk config =>
                    (* not sure it's worth failing if the group to remove
                       isn't found *)
                    match g_key_file_remove_group config
                            (remote_group remote) with
                    | (config', true) => ostree_repo_write_config self config'
                    | (_, false) => (self, GOk ())
                    end
                | GErr e => (self, GErr e)
                | GAbort => (self, GAbort)
                end
            end in
          match removed with
          | GOk _ =>
              (* delete the remote's keyring file, if it exists *)
              let '(d, unlinked) :=
                ot_ensure_unlinked_at (repo_dir self1)
                  (remote_keyring remote) in
              let self2 := set_repo_dir self1 d in
              match unlinked with
              | GOk _ => ((_ostree_repo_remove_remote self2 remote).1, GOk ())
              | failed => (self2, failed)
              end
          | failed => (self1, failed)
          end
      | _, true => (self, GOk ()) (* note early return *)
      | GErr e, false => (self, GErr e)
      | GAbort, false => (self, GAbort)
      end
  | GErr e => (self, GErr e)
  | GAbort => (self, GAbort)
  end.

Definition ostree_repo_remote_delete (self : OstreeRepo) (name : string)
  : OstreeRepo * GResult unit :=
  impl_repo_remote_delete self None false name.

Inductive OstreeRepoRemoteChange : Set :=
  | OSTREE_REPO_REMOTE_CHANGE_ADD
  | OSTREE_REPO_REMOTE_CHANGE_ADD_IF_NOT_EXISTS
  | OSTREE_REPO_REMOTE_CHANGE_DELETE
  | OSTREE_REPO_REMOTE_CHANGE_DELETE_IF_EXISTS.

Definition ostree_repo_remote_change (self : OstreeRepo)
    (sysroot : option string) (changeop : OstreeRepoRemoteChange)
    (name url : string) (options : option (list (string * GVariantOption)))
  : OstreeRepo * GResult unit :=
  match changeop with
  | OSTREE_REPO_REMOTE_CHANGE_ADD =>
      impl_repo_remote_add self sysroot false name url options
  | OSTREE_REPO_REMOTE_CHANGE_ADD_IF_NOT_EXISTS =>
      impl_repo_remote_add self sysroot true name url options
  | OSTREE_REPO_REMOTE_CHANGE_DELETE =>
      impl_repo_remote_delete self sysroot false name
  | OSTREE_REPO_REMOTE_CHANGE_DELETE_IF_EXISTS =>
      impl_repo_remote_delete self sysroot true name
  end.
End RemoteChange.


(** ** Object store: import from another repository *)

Definition import_is_bareuser_only_conversion (src_repo dest_repo : OstreeRepo)
    (objtype : OstreeObjectType) : bool :=
  bool_decide (mode src_repo = OSTREE_REPO_MODE_BARE_USER)
  && bool_decide (mode dest_repo = OSTREE_REPO_MODE_BARE_USER_ONLY)
  && bool_decide (objtype = OSTREE_OBJECT_TYPE_FILE).

(** [owner_uid] is a field of the handle that the record above does not
    have; the uid is passed beside each handle. *)
Definition import_via_hardlink_is_possible
    (src_repo : OstreeRepo) (src_owner_uid : Z)
    (dest_repo : OstreeRepo) (dest_owner_uid : Z)
    (objtype : OstreeObjectType) : bool :=
  (* We need the ability to make hardlinks *)
  if bool_decide (src_owner_uid ≠ dest_owner_uid) then false
  (* Equal modes are always compatible *)
  else if bool_decide (mode src_repo = mode dest_repo) then true
  (* Metadata is identical between all modes *)
  else if OSTREE_OBJECT_TYPE_IS_META objtype then true
  else if import_is_bareuser_only_conversion src_repo dest_repo objtype
  then true
  else false.

(** The [errno] values of a failed [linkat]: the four the code tells apart,
    and the others. *)
Inductive linkat_errno : Set :=
  | EEXIST
  | EMLINK
  | EXDEV
  | EPERM
  | linkat_other (e : errno).

(** [linkat (olddirfd, oldpath, newdirfd, newpath, 0)]: the new directory
    afterwards, and the [errno] of a failure.  The old path is looked up
    first, then the new one, which must not exist; a path on which system
    calls fail makes this one fail in the same way, on either side.  A
    directory is not linked ([EPERM]).  [refused] is the answer of the file
    systems to a link between the two directories when they refuse one
    ([EXDEV] across mounts, [EMLINK], [EPERM]). *)
Definition linkat (refused : option linkat_errno)
    (olddir : dir) (oldpath : string) (newdir : dir) (newpath : string)
  : dir * option linkat_errno :=
  match olddir !! oldpath with
  | None => (newdir, Some (linkat_other ENOENT))
  | Some (Fault e) => (newdir, Some (linkat_other e))
  | Some (Entry ino) =>
      match newdir !! newpath with
      | Some (Entry _) => (newdir, Some EEXIST)
      | Some (Fault e) => (newdir, Some (linkat_other e))
      | None =>
          if S_ISDIR (st_mode ino) then (newdir, Some EPERM)
          else
            match refused with
            | Some e => (newdir, Some e)
            | None => (<[newpath := Entry ino]> newdir, None)
            end
      end
  end.

Section ImportObject.
Context `{engine : GpgEngine}.
(** Of ostree-core.c and ostree-repo-commit.c: the content codec of
    [ostree_repo_load_object_stream], the creation of the two-character
    directory of a loose path (the directories of the model are flat, so it
    changes nothing, but it can fail), and the four writers of objects;
    the untrusted writers return the digest they computed.  The variant
    written is the serialized one that was loaded. *)
Variable ostree_content_stream_parse :
  bytes → Z → GResult (option bytes * GFileInfo * list (bytes * bytes)).
Variable ostree_raw_file_to_content_stream :
  option bytes → option GFileInfo → option (list (bytes * bytes)) →
  GResult (bytes * Z).
Variable _ostree_repo_ensure_loose_objdir_at : dir → string → GResult unit.
Variable ostree_repo_write_metadata_trusted :
  OstreeRepo → OstreeObjectType → string → GVariant →
  OstreeRepo * GResult unit.
Variable ostree_repo_write_metadata :
  OstreeRepo → OstreeObjectType → string → GVariant →
  OstreeRepo * GResult bytes.
Variable ostree_repo_write_content_trusted :
  OstreeRepo → string → option bytes → local_guint64 →
  OstreeRepo * GResult unit.
Variable ostree_repo_write_content :
  OstreeRepo → string → option bytes → local_guint64 →
  OstreeRepo * GResult bytes.
(** What the file systems answer to a hard link from the objects directory
    of the source into the one of the destination. *)
Variable linkat_refused : option linkat_errno.

Definition copy_detached_metadata (self source : OstreeRepo)
    (checksum : string) : OstreeRepo * GResult unit :=
  match ostree_repo_read_commit_detached_metadata source checksum with
  | GOk (Some detached_meta) =>
      ostree_repo_write_commit_detached_metadata self checksum
        (Some detached_meta)
  | GOk None => (self, GOk ())
  | GErr e => (self, GErr e)
  | GAbort => (self, GAbort)
  end.

(** The destination afterwards and [*out_was_supported].  The loose path is
    computed once, for the mode of the destination, and names the object in
    both directories of [linkat]. *)
Definition import_one_object_link (self source : OstreeRepo)
    (checksum : string) (objtype : OstreeObjectType)
  : OstreeRepo * GResult bool :=
  let loose_path_buf := _ostree_loose_path checksum objtype (mode self) in
  (* Hardlinking between bare-user and bare-user-only is only possible for
     regular files, not symlinks, which in bare-user are stored as regular
     files: [true] is to drop through and try a hardlink *)
  let try_link : GResult bool :=
    if import_is_bareuser_only_conversion source self objtype then
      r ← _ostree_repo_load_file_bare source checksum false true false false;
      match bf_stbuf r with
      | Some stbuf =>
          if S_ISREG (stb_mode stbuf) then GOk true
          else if S_ISLNK (stb_mode stbuf) then GOk false
          else GAbort (* g_assert_not_reached *)
      | None => GAbort (* [&stbuf] was passed: it is always filled *)
      end
    else GOk true in
  match try_link with
  | GOk false => (self, GOk false) (* NOTE early return *)
  | GOk true =>
      match _ostree_repo_ensure_loose_objdir_at (objects_dir self)
              loose_path_buf with
      | GOk _ =>
          let '(d, failed) :=
            linkat linkat_refused (objects_dir source) loose_path_buf
              (objects_dir self) loose_path_buf in
          match failed with
          | Some EEXIST => (self, GOk true)
          | Some EMLINK | Some EXDEV | Some EPERM => (self, GOk false)
          | Some (linkat_other e) => (self, glnx_throw_errno e)
          | None =>
              let self1 := set_objects_dir self d in
              if bool_decide (objtype = OSTREE_OBJECT_TYPE_COMMIT) then
                let '(self2, copied) :=
                  copy_detached_metadata self1 source checksum in
                (self2, copied ≫= λ _, GOk true)
              else (self1, GOk true)
          end
      | GErr e => (self, GErr e)
      | GAbort => (self, GAbort)
      end
  | GErr e => (self, GErr e)
  | GAbort => (self, GAbort)
  end.

(** The destination and the source afterwards (loading a variant can fill
    the directory-metadata cache of the source) and the result. *)
Definition ostree_repo_import_object_from_with_trust
    (self : OstreeRepo) (self_owner_uid : Z)
    (source : OstreeRepo) (source_owner_uid : Z)
    (objtype : OstreeObjectType) (checksum : string) (trusted : bool)
  : OstreeRepo * OstreeRepo * GResult unit :=
  let '(self1, hardlink_was_supported) :=
    if trusted
       && import_via_hardlink_is_possible source source_owner_uid
            self self_owner_uid objtype
    then import_one_object_link self source checksum objtype
    else (self, GOk false) in
  match hardlink_was_supported with
  (* If we hardlinked, we're done! *)
  | GOk true => (self1, source, GOk ())
  | GOk false =>
      (* The copy path.  First, do we have the object already? *)
      match ostree_repo_has_object self1 objtype checksum with
      | GOk true => (self1, source, GOk ())
      | GOk false =>
          if OSTREE_OBJECT_TYPE_IS_META objtype then
            let '(self2, copied) :=
              if bool_decide (objtype = OSTREE_OBJECT_TYPE_COMMIT)
              then copy_detached_metadata self1 source checksum
              else (self1, GOk ()) in
            match copied with
            | GOk _ =>
                match ostree_repo_load_variant source objtype checksum with
                | (source1, GOk (Some variant)) =>
                    if trusted then
                      let '(self3, r) :=
                        ostree_repo_write_metadata_trusted self2 objtype
                          checksum variant in
                      (self3, source1, r)
                    else
                      let '(self3, r) :=
                        ostree_repo_write_metadata self2 objtype checksum
                          variant in
                      (self3, source1, r ≫= λ _, GOk ())
                | (source1, GOk None) => (self2, source1, GAbort)
                | (source1, GErr e) => (self2, source1, GErr e)
                | (source1, GAbort) => (self2, source1, GAbort)
                end
            | GErr e => (self2, source, GErr e)
            | GAbort => (self2, source, GAbort)
            end
          else
            match ostree_repo_load_object_stream ostree_content_stream_parse
                    ostree_raw_file_to_content_stream source objtype
                    checksum with
            | (source1, GOk (object_stream, length)) =>
                if trusted then
                  let '(self2, r) :=
                    ostree_repo_write_content_trusted self1 checksum
                      object_stream length in
                  (self2, source1, r)
                else
                  let '(self2, r) :=
                    ostree_repo_write_content self1 checksum object_stream
                      length in
                  (self2, source1, r ≫= λ _, GOk ())
            | (source1, GErr e) => (self1, source1, GErr e)
            | (source1, GAbort) => (self1, source1, GAbort)
            end
      | GErr e => (self1, source, GErr e)
      | GAbort => (self1, source, GAbort)
      end
  | GErr e => (self1, source, GErr e)
  | GAbort => (self1, source, GAbort)
  end.

Definition ostree_repo_import_object_from
    (self : OstreeRepo) (self_owner_uid : Z)
    (source : OstreeRepo) (source_owner_uid : Z)
    (objtype : OstreeObjectType) (checksum : string)
  : OstreeRepo * OstreeRepo * GResult unit :=
  ostree_repo_import_object_from_with_trust self self_owner_uid
    source source_owner_uid objtype checksum true.
End ImportObject.

(** ** Temporary directories and their locks *)

(** The directory [tmp/] of a repository: what a name leads to (a
    directory, a file such as a lock file, or an entry on which system
    calls fail), and the lock files on which some process holds a lock. *)
Inductive tmp_entry : Set :=
  | TmpSubdir
  | TmpFile
  | TmpFault (e : errno).

Record TmpDir : Type := mkTmpDir {
  tmp_entries : gmap string tmp_entry;
  tmp_locked : gset string
}.

(** The errors of this part: two codes that [GErrorCode] above does not
    have, and the others. *)
Inductive TmpErrorCode : Set :=
  | G_IO_ERROR_NOT_DIRECTORY
  | G_IO_ERROR_WOULD_BLOCK
  | G_IO_ERROR_other (code : GErrorCode).

Inductive TmpResult (A : Type) : Type :=
  | TmpOk (a : A)
  | TmpErr (e : TmpErrorCode)
  | TmpAbort.
Global Arguments TmpOk {A} a.
Global Arguments TmpErr {A} e.
Global Arguments TmpAbort {A}.

Definition tmp_throw_errno {A} (e : errno) : TmpResult A :=
  TmpErr (G_IO_ERROR_other (g_io_error_from_errno e)).

(** [d_type] of a [struct dirent]. *)
Inductive d_type : Set := DT_UNKNOWN | DT_DIR | DT_REG | DT_LNK.

Global Instance d_type_eq_dec : EqDecision d_type.
Proof. solve_decision. Defined.

(** [glnx_opendirat (dfd, name, FALSE, ...)]. *)
Definition glnx_opendirat (tmpdir : TmpDir) (name : string)
  : TmpResult unit :=
  match tmp_entries tmpdir !! name with
  | Some TmpSubdir => TmpOk ()
  | Some TmpFile => TmpErr G_IO_ERROR_NOT_DIRECTORY
  | Some (TmpFault e) => tmp_throw_errno e
  | None => tmp_throw_errno ENOENT
  end.

(** [glnx_make_lock_file (dfd, name, LOCK_EX | LOCK_NB, ...)]: the file is
    opened, and created if there is none; the lock is taken unless some
    process holds one on the file. *)
Definition glnx_make_lock_file (tmpdir : TmpDir) (lock_name : string)
  : TmpDir * TmpResult unit :=
  match tmp_entries tmpdir !! lock_name with
  | Some TmpSubdir => (tmpdir, tmp_throw_errno EISDIR)
  | Some (TmpFault e) => (tmpdir, tmp_throw_errno e)
  | Some TmpFile | None =>
      let entries := <[lock_name := TmpFile]> (tmp_entries tmpdir) in
      if bool_decide (lock_name ∈ tmp_locked tmpdir)
      then (mkTmpDir entries (tmp_locked tmpdir),
            TmpErr G_IO_ERROR_WOULD_BLOCK)
      else (mkTmpDir entries ({[lock_name]} ∪ tmp_locked tmpdir), TmpOk ())
  end.

(** [*out_did_lock]; the lock file is named by the directory afterwards. *)
Definition _ostree_repo_try_lock_tmpdir (tmpdir : TmpDir)
    (tmpdir_name : string) : TmpDir * TmpResult bool :=
  let lock_name := tmpdir_name +:+ "-lock" in
  (* We put the lock outside the dir, so we can hold the lock until the
     directory is fully removed *)
  match glnx_make_lock_file tmpdir lock_name with
  | (tmpdir', TmpOk _) => (tmpdir', TmpOk true)
  | (tmpdir', TmpErr G_IO_ERROR_WOULD_BLOCK) => (tmpdir', TmpOk false)
  | (tmpdir', TmpErr e) => (tmpdir', TmpErr e)
  | (tmpdir', TmpAbort) => (tmpdir', TmpAbort)
  end.

Section AllocateTmpdir.
(** Of ostree-repo-private.h, the two prefixes of the directories that are
    locked; of libglnx, the entries that the iterator of a directory
    returns, in its order, and the six characters that [glnx_mkdtempat]
    puts for [XXXXXX] in its last attempt, if it makes one. *)
Variable OSTREE_REPO_TMPDIR_STAGING : string.
Variable OSTREE_REPO_TMPDIR_FETCHER : string.
Variable glnx_dirfd_iterator : gmap string tmp_entry → list (string * d_type).
Variable glnx_mkdtempat_suffix : gmap string tmp_entry → option string.

Definition _ostree_repo_is_locked_tmpdir (filename : string) : bool :=
  String.prefix OSTREE_REPO_TMPDIR_STAGING filename
  || String.prefix OSTREE_REPO_TMPDIR_FETCHER filename.

(** [glnx_mkdtempat (dfd, template, 0777, ...)]: the name that was made of
    the template. *)
Definition glnx_mkdtempat (tmpdir : TmpDir) (tmpdir_prefix : string)
  : TmpDir * TmpResult string :=
  match glnx_mkdtempat_suffix (tmp_entries tmpdir) with
  | Some suffix =>
      let name := tmpdir_prefix +:+ suffix in
      match tmp_entries tmpdir !! name with
      | None =>
          (mkTmpDir (<[name := TmpSubdir]> (tmp_entries tmpdir))
             (tmp_locked tmpdir),
           TmpOk name)
      | Some _ => (tmpdir, TmpErr (G_IO_ERROR_other G_IO_ERROR_EXISTS))
      end
  | None => (tmpdir, TmpErr (G_IO_ERROR_other G_IO_ERROR_EXISTS))
  end.

(** The first loop of [_ostree_repo_allocate_tmpdir], over the entries
    that the iterator has yet to return: look for an existing tmpdir (with
    the same prefix) to reuse.  [None] is [tmpdir_name == NULL] at the end
    of the directory. *)
Fixpoint allocate_tmpdir_reuse (tmpdir : TmpDir) (tmpdir_prefix : string)
    (dents : list (string * d_type))
  : TmpDir * TmpResult (option string) :=
  match dents with
  | [] => (tmpdir, TmpOk None)
  | (d_name, dent_type) :: rest =>
      if negb (String.prefix tmpdir_prefix d_name)
      then allocate_tmpdir_reuse tmpdir tmpdir_prefix rest
      (* Quickly skip non-dirs, if unknown we ignore ENOTDIR when opening
         instead *)
      else if negb (bool_decide (dent_type = DT_UNKNOWN))
              && negb (bool_decide (dent_type = DT_DIR))
      then allocate_tmpdir_reuse tmpdir tmpdir_prefix rest
      else
        match glnx_opendirat tmpdir d_name with
        | TmpErr G_IO_ERROR_NOT_DIRECTORY =>
            allocate_tmpdir_reuse tmpdir tmpdir_prefix rest
        | TmpErr e => (tmpdir, TmpErr e)
        | TmpAbort => (tmpdir, TmpAbort)
        | TmpOk _ =>
            match _ostree_repo_try_lock_tmpdir tmpdir d_name with
            | (tmpdir', TmpOk false) =>
                allocate_tmpdir_reuse tmpdir' tmpdir_prefix rest
            (* We found an existing tmpdir which we managed to lock *)
            | (tmpdir', TmpOk true) => (tmpdir', TmpOk (Some d_name))
            | (tmpdir', TmpErr e) => (tmpdir', TmpErr e)
            | (tmpdir', TmpAbort) => (tmpdir', TmpAbort)
            end
        end
  end.

(** The second loop: no existing tmpdir found, create a new one.  A new
    directory whose lock another process has taken in between is left, and
    another one is made; [fuel] bounds the number of directories made, and
    [None] is a loop that has not ended within the bound. *)
Fixpoint allocate_tmpdir_new (fuel : nat) (tmpdir : TmpDir)
    (tmpdir_prefix : string) : option (TmpDir * TmpResult string) :=
  match fuel with
  | 0 => None
  | S fuel' =>
      match glnx_mkdtempat tmpdir tmpdir_prefix with
      | (tmpdir1, TmpOk tmpdir_name_template) =>
          match glnx_opendirat tmpdir1 tmpdir_name_template with
          | TmpOk _ =>
              match _ostree_repo_try_lock_tmpdir tmpdir1
                      tmpdir_name_template with
              | (tmpdir2, TmpOk false) =>
                  allocate_tmpdir_new fuel' tmpdir2 tmpdir_prefix
              | (tmpdir2, TmpOk true) =>
                  Some (tmpdir2, TmpOk tmpdir_name_template)
              | (tmpdir2, TmpErr e) => Some (tmpdir2, TmpErr e)
              | (tmpdir2, TmpAbort) => Some (tmpdir2, TmpAbort)
              end
          | TmpErr e => Some (tmpdir1, TmpErr e)
          | TmpAbort => Some (tmpdir1, TmpAbort)
          end
      | (tmpdir1, TmpErr e) => Some (tmpdir1, TmpErr e)
      | (tmpdir1, TmpAbort) => Some (tmpdir1, TmpAbort)
      end
  end.

(** [*tmpdir_name_out] and [*reusing_dir_out]; the descriptor and the lock
    returned are those of the directory named and of its lock file.
    Opening [tmp/] and reading its entries do not fail in the model. *)
Definition _ostree_repo_allocate_tmpdir (fuel : nat) (tmpdir : TmpDir)
    (tmpdir_prefix : string) : option (TmpDir * TmpResult (string * bool)) :=
  if negb (_ostree_repo_is_locked_tmpdir tmpdir_prefix)
  then Some (tmpdir, TmpAbort) (* g_return_val_if_fail *)
  else
    match allocate_tmpdir_reuse tmpdir tmpdir_prefix
            (glnx_dirfd_iterator (tmp_entries tmpdir)) with
    | (tmpdir1, TmpOk (Some tmpdir_name)) =>
        Some (tmpdir1, TmpOk (tmpdir_name, true))
    | (tmpdir1, TmpOk None) =>
        match allocate_tmpdir_new fuel tmpdir1 tmpdir_prefix with
        | Some (tmpdir2, TmpOk tmpdir_name) =>
            Some (tmpdir2, TmpOk (tmpdir_name, false))
        | Some (tmpdir2, TmpErr e) => Some (tmpdir2, TmpErr e)
        | Some (tmpdir2, TmpAbort) => Some (tmpdir2, TmpAbort)
        | None => None
        end
    | (tmpdir1, TmpErr e) => Some (tmpdir1, TmpErr e)
    | (tmpdir1, TmpAbort) => Some (tmpdir1, TmpAbort)
    end.
End AllocateTmpdir.
(** ** Vocabulary of the properties *)

(** The outcome of probing directories in order with a system call: the
    first outcome that is not [ENOENT], and [ENOENT] if there is none. *)
Fixpoint first_hit (syscall : dir → string → sysres inode) (dirs : list dir)
    (path : string) : sysres inode :=
  match dirs with
  | [] => SysErr ENOENT
  | d :: rest =>
      match syscall d path with
      | SysErr ENOENT => first_hit syscall rest path
      | outcome => outcome
      end
  end.

(** The two orders in which the directories of one repository are probed;
    the staging directory takes part when a transaction has it open. *)
Definition stagedir_then_objects (self : OstreeRepo) : list dir :=
  match commit_stagedir self with
  | Some stagedir => [stagedir; objects_dir self]
  | None => [objects_dir self]
  end.

Definition objects_then_stagedir (self : OstreeRepo) : list dir :=
  match commit_stagedir self with
  | Some stagedir => [objects_dir self; stagedir]
  | None => [objects_dir self]
  end.

(** [self] with the entry [ino] at [path] as its only loose object, outside
    of any transaction. *)
Definition with_only_object (self : OstreeRepo) (path : string) (ino : inode)
  : OstreeRepo :=
  set_commit_stagedir (set_objects_dir self {[path := Entry ino]}) None.

(** What the directory-metadata cache of [self] holds for an object. *)
Definition dirmeta_cache_lookup (self : OstreeRepo)
    (objtype : OstreeObjectType) (sha256 : string) : option GVariant :=
  if bool_decide (objtype = OSTREE_OBJECT_TYPE_DIR_META)
  then cache ← dirmeta_cache self; cache !! sha256
  else None.

(** The repository of the parent chain in whose directories the search of
    [_ostree_repo_load_file_bare] for a content object ends. *)
Fixpoint serving_repo (self : OstreeRepo) (checksum : string)
  : option OstreeRepo :=
  match first_hit fstatat (objects_then_stagedir self)
          (_ostree_loose_path checksum OSTREE_OBJECT_TYPE_FILE (mode self)) with
  | SysErr ENOENT =>
      match parent_repo self with
      | Some parent => serving_repo parent checksum
      | None => None
      end
  | _ => Some self
  end.

(** The parent chain of a repository, the repository itself first. *)
Fixpoint repo_chain (self : OstreeRepo) : list OstreeRepo :=
  self :: match parent_repo self with
          | Some parent => repo_chain parent
          | None => []
          end.

(** The remotes of a name along the parent chain, nearest first. *)
Definition remotes_named (self : OstreeRepo) (name : string)
  : list OstreeRemote :=
  omap (λ repo, remotes repo !! name) (repo_chain self).

(** The key file of a remote says nothing on a key that is not in the
    group of the remote. *)
Definition key_undefined {A} (answer : GResult A) : bool :=
  match answer with
  | GErr G_KEY_FILE_ERROR_KEY_NOT_FOUND => true
  | _ => false
  end.

(** The first of the answers that says something on the key. *)
Fixpoint first_defined {A} (answers : list (GResult A))
  : option (GResult A) :=
  match answers with
  | [] => None
  | answer :: rest =>
      if key_undefined answer then first_defined rest else Some answer
  end.

(** The cascade of an option in the spec's words, for a name that is not a
    [file://] URL; [get] reads the key from the key file of a remote.  The
    lookup goes to the nearest repository of the chain that has the remote
    (the parent is asked when the remote is absent); without one it is not
    found.  The answer of that remote stands, value or error, unless the
    key is missing there: then the inherited remotes are consulted before
    the default, the nearest that has the key gives its value, and the
    default is returned when none has it or when that one fails. *)
Definition spec_option_cascade {A} (get : OstreeRemote → GResult A)
    (default_value : A) (self : OstreeRepo) (name : string) : GResult A :=
  match remotes_named self name with
  | [] => GErr G_IO_ERROR_NOT_FOUND
  | nearest :: inherited =>
      if key_undefined (get nearest) then
        match first_defined (get <$> inherited) with
        | Some (GOk value) => GOk value
        | _ => GOk default_value
        end
      else get nearest
  end.

(** What a successful load is to report for a content object found as
    [ino] in a directory of [owner], by the mode of [owner]: the uid, the
    gid and the extended attributes.  Bare-user-only reports the canonical
    identity; bare the one of the file, with its attributes unless they are
    disabled; bare-user the one recorded in the [user.ostreemeta] attribute
    of the file.  The bare loader serves nothing out of an archive
    repository. *)
Definition reported_by_mode (owner : OstreeRepo) (ino : inode)
  : option (Z * Z * list (bytes * bytes)) :=
  match mode owner with
  | OSTREE_REPO_MODE_BARE_USER_ONLY => Some (0%Z, 0%Z, [])
  | OSTREE_REPO_MODE_BARE =>
      Some (st_uid ino, st_gid ino,
            if disable_xattrs owner then [] else i_xattrs ino)
  | OSTREE_REPO_MODE_BARE_USER =>
      (λ metadata,
         (GUINT32_FROM_BE (fm_uid_be metadata),
          GUINT32_FROM_BE (fm_gid_be metadata),
          fm_xattrs metadata)) <$> i_ostreemeta ino
  | OSTREE_REPO_MODE_ARCHIVE_Z2 => None
  end.

(** Reading a summary back: the ref names of an array of type
    [a(s(taya{sv}))], and the collection IDs with their ref names of a
    collection map of type [a{sa(s(taya{sv}))}]. *)
Definition summary_ref_name (entry : GVariantValue) : option string :=
  match entry with
  | GV_tuple (GV_string ref :: _) => Some ref
  | _ => None
  end.

Definition summary_ref_names (entries : list GVariantValue)
  : option (list string) :=
  mapM summary_ref_name entries.

Definition collection_map_entry_names (entry : GVariantValue)
  : option (string * list string) :=
  match entry with
  | GV_dict_entry collection_id (GV_array entries) =>
      names ← summary_ref_names entries; Some (collection_id, names)
  | _ => None
  end.

Definition collection_map_names (v : GVariantValue)
  : option (list (string * list string)) :=
  match v with
  | GV_array entries => mapM collection_map_entry_names entries
  | _ => None
  end.

Definition strictly_increasing (l : list string) : Prop :=
  StronglySorted (strict String.le) l.

(** A collection map whose collection IDs are strictly increasing and whose
    entries each have strictly increasing ref names. *)
Definition sorted_collection_map (v : GVariantValue) : Prop :=
  ∃ entries,
    collection_map_names v = Some entries
    ∧ strictly_increasing entries.*1
    ∧ Forall (λ entry, strictly_increasing entry.2) entries.

(** A refspec without remote part: the refs that a summary lists. *)
Definition is_local_refspec `{env : SummaryEnv} (ref : string) : bool :=
  match ostree_parse_refspec ref with
  | Some (None, _) => true
  | _ => false
  end.

(** The remote of a name in the nearest repository of the chain that has
    one. *)
Definition nearest_remote (self : OstreeRepo) (name : string)
  : option OstreeRemote :=
  head (omap (λ r, remotes r !! name) (repo_chain self)).

(** The raw value of an option of a remote in one repository: [None] when
    the repository has no such remote. *)
Definition remote_option_lookup (self : OstreeRepo)
    (remote_name option_name : string) : option (GResult string) :=
  remote ← remotes self !! remote_name;
  Some (g_key_file_lookup (remote_options remote) (remote_group remote)
          option_name).

(** The repository says nothing about the option: it has no such remote,
    or the remote has no such key. *)
Definition remote_option_undefined (remote_name option_name : string)
    (self : OstreeRepo) : Prop :=
  remote_option_lookup self remote_name option_name = None
  ∨ remote_option_lookup self remote_name option_name
    = Some (GErr G_KEY_FILE_ERROR_KEY_NOT_FOUND).

(** The key-file group of the remote of a name. *)
Definition remote_group_of (name : string) : string :=
  "remote " +:+ double_quote +:+ name +:+ double_quote.

(** The remote that a key file read from [file] defines for a name. *)
Definition keyfile_remote (keyfile : GKeyFile) (file : option string)
    (name : string) : option OstreeRemote :=
  remote ← ostree_remote_new_from_keyfile keyfile (remote_group_of name);
  Some (match file with
        | Some _ => set_remote_file remote file
        | None => remote
        end).

(** A remote of the key file has the name of a registered remote. *)
Definition keyfile_clash (self : OstreeRepo) (keyfile : GKeyFile) : Prop :=
  ∃ group remote,
    ostree_remote_new_from_keyfile keyfile group = Some remote
    ∧ is_Some (remotes self !! remote_name remote).

(** The seconds in a unit of the progress display. *)
Definition unit_seconds (unit : string) : N :=
  if decide (unit = "days") then 86400
  else if decide (unit = "hours") then 3600
  else if decide (unit = "minutes") then 60
  else 1.









(** The mode that the [user.ostreemeta] attribute of a stored file records;
    in bare-user it is the mode of the object. *)
Definition recorded_mode (ino : inode) : option Z :=
  (λ metadata, GUINT32_FROM_BE (fm_mode_be metadata)) <$> i_ostreemeta ino.

(** A bare-user content object that is a regular file, and one that is a
    symbolic link: both are regular files in the objects directory. *)
Definition stored_regular (ino : inode) : Prop :=
  S_ISREG (st_mode ino) = true
  ∧ ∃ m, recorded_mode ino = Some m ∧ S_ISREG m = true.

Definition stored_symlink (ino : inode) : Prop :=
  S_ISREG (st_mode ino) = true
  ∧ ∃ m, recorded_mode ino = Some m ∧ S_ISLNK m = true.

(** The path fails in no directory of the repository. *)
Definition sound_at (self : OstreeRepo) (path : string) : Prop :=
  ∀ d e, d ∈ stagedir_then_objects self → d !! path ≠ Some (Fault e).

(** The lock file of a temporary directory. *)
Definition lock_of (tmpdir_name : string) : string := tmpdir_name +:+ "-lock".

(** The directory has grown by lock files only. *)
Definition grown_by_lock_files (before after : gmap string tmp_entry) : Prop :=
  ∀ name, after !! name = before !! name
          ∨ (before !! name = None ∧ after !! name = Some TmpFile).

(** A directory among the listed entries that the first loop would take:
    its name has the prefix and its [d_type] does not rule it out. *)
Definition tmpdir_candidate (tmpdir_prefix : string)
    (dents : list (string * d_type)) (tmpdir : TmpDir) (name : string)
  : Prop :=
  String.prefix tmpdir_prefix name = true
  ∧ (∃ dent_type, (name, dent_type) ∈ dents
                  ∧ (dent_type = DT_UNKNOWN ∨ dent_type = DT_DIR))
  ∧ tmp_entries tmpdir !! name = Some TmpSubdir.

(** No system call fails on the listed entries with the prefix: each is a
    directory or a file, and where its lock file would be there is nothing
    or a file. *)
Definition tmpdir_listing_sound (tmpdir_prefix : string)
    (dents : list (string * d_type)) (tmpdir : TmpDir) : Prop :=
  ∀ name dent_type,
    (name, dent_type) ∈ dents →
    String.prefix tmpdir_prefix name = true →
    (tmp_entries tmpdir !! name = Some TmpSubdir
     ∨ tmp_entries tmpdir !! name = Some TmpFile)
    ∧ (tmp_entries tmpdir !! lock_of name = None
       ∨ tmp_entries tmpdir !! lock_of name = Some TmpFile).
(** ** Scenarios *)

Module Scenario.
(** The digest ["aaaa…"] of the spec's scenarios, 64 characters. *)
Definition digest : string :=
  "aaaaaaaaaaaaaaaaaaaaaaaaaaaaaaaaaaaaaaaaaaaaaaaaaaaaaaaaaaaaaaaa".

Definition regular_file (uid gid : Z) (data : bytes)
    (xattrs : list (bytes * bytes)) : inode :=
  mkInode (Z.lor S_IFREG 0x1A4) uid gid data xattrs None.

Definition repo (repo_mode : OstreeRepoMode) (objects : dir)
    (stagedir : option dir) (parent : option OstreeRepo) : OstreeRepo :=
  mkRepo true repo_mode "/repo" ∅ objects stagedir parent None false ∅
    None ∅.

Definition loose (objtype : OstreeObjectType) (repo_mode : OstreeRepoMode)
  : string :=
  _ostree_loose_path digest objtype repo_mode.

(** *** Key files and remotes (scenario 3 of the spec) *)

Definition parse_string (raw : string) : option string := Some raw.
Definition parse_string_list (raw : string) : option (list string) :=
  Some [raw].
Definition parse_boolean (raw : string) : option bool :=
  if bool_decide (raw = "true" ∨ raw = "1") then Some true
  else if bool_decide (raw = "false" ∨ raw = "0") then Some false
  else None.

Definition dquote : string := String (Ascii.ascii_of_nat 34) EmptyString.

Definition remote (name : string) (options : gmap string string)
  : OstreeRemote :=
  let group := "remote " +:+ dquote +:+ name +:+ dquote in
  mkRemote name group (name +:+ ".trustedkeys.gpg") None
    {[group := options]}.

Definition with_remotes (self : OstreeRepo)
    (registry : gmap string OstreeRemote) : OstreeRepo :=
  mkRepo (inited self) (mode self) (repodir self) (repo_dir self)
    (objects_dir self) (commit_stagedir self) (parent_repo self)
    (dirmeta_cache self) (disable_xattrs self) (config self)
    (collection_id self) registry.

Definition upstream_parent : OstreeRepo :=
  with_remotes (repo OSTREE_REPO_MODE_BARE ∅ None None)
    {["upstream" := remote "upstream" {["url" := "https://a/"]}]}.

(** A child of that repository without a remote of its own. *)
Definition plain_child : OstreeRepo :=
  repo OSTREE_REPO_MODE_BARE ∅ None (Some upstream_parent).

Definition upstream_child : OstreeRepo :=
  with_remotes (repo OSTREE_REPO_MODE_BARE ∅ None (Some upstream_parent))
    {["upstream" := remote "upstream" {["gpg-verify" := "false"]}]}.

(** *** Object store *)

(** A transaction is open; the loose path of the commit leads to
    different bytes in the staging directory and in [objects/]. *)
Definition staged_commit : inode := regular_file 0 0 [Byte.x01] [].
Definition stored_commit : inode := regular_file 0 0 [Byte.x02] [].


(** A commit object of [n] bytes. *)
Definition blob (n : Z) : inode :=
  regular_file 0 0 (repeat Byte.x00 (Z.to_nat n)) [].

Definition with_commit_of_size (n : Z) : OstreeRepo :=
  repo OSTREE_REPO_MODE_BARE
    {[loose OSTREE_OBJECT_TYPE_COMMIT OSTREE_REPO_MODE_BARE
        := Entry (blob n)]}
    None None.

(** A file of user 1000 with an extended attribute, in a bare parent of a
    bare-user-only repository, and in a bare-user-only repository. *)
Definition owned_file : inode :=
  regular_file 1000 1000 (String.list_byte_of_string "hello")
    [(String.list_byte_of_string "user.foo",
      String.list_byte_of_string "bar")].

Definition bare_parent : OstreeRepo :=
  repo OSTREE_REPO_MODE_BARE
    {[loose OSTREE_OBJECT_TYPE_FILE OSTREE_REPO_MODE_BARE
        := Entry owned_file]}
    None None.

Definition user_only_child : OstreeRepo :=
  repo OSTREE_REPO_MODE_BARE_USER_ONLY ∅ None (Some bare_parent).

Definition archive_parent : OstreeRepo :=
  repo OSTREE_REPO_MODE_ARCHIVE_Z2
    {[loose OSTREE_OBJECT_TYPE_FILE OSTREE_REPO_MODE_ARCHIVE_Z2
        := Entry owned_file]}
    None None.

Definition user_only_child_of_archive : OstreeRepo :=
  repo OSTREE_REPO_MODE_BARE_USER_ONLY ∅ None (Some archive_parent).

Definition user_only_alone : OstreeRepo :=
  repo OSTREE_REPO_MODE_BARE_USER_ONLY
    {[loose OSTREE_OBJECT_TYPE_FILE OSTREE_REPO_MODE_BARE_USER_ONLY
        := Entry owned_file]}
    None None.

Definition no_archive_codec (data : bytes) (size : Z)
  : GResult (option bytes * GFileInfo * list (bytes * bytes)) :=
  GErr G_IO_ERROR_FAILED.

(** *** Deletion (scenario 2 of the spec) *)

Definition get_boolean_with_default (kf : GKeyFile) (group key : string)
    (default_value : bool) : GResult bool :=
  match g_key_file_get parse_boolean kf group key with
  | GErr G_KEY_FILE_ERROR_KEY_NOT_FOUND
  | GErr G_KEY_FILE_ERROR_GROUP_NOT_FOUND => GOk default_value
  | other => other
  end.

Definition write_metadata_trusted (self : OstreeRepo)
    (objtype : OstreeObjectType) (sha256 : string) (v : GVariantValue)
  : OstreeRepo * GResult unit :=
  (set_objects_dir self
     (<[_ostree_loose_path sha256 objtype (mode self)
          := Entry (regular_file 0 0 [] [])]> (objects_dir self)),
   GOk ()).

Definition with_config (self : OstreeRepo) (kf : GKeyFile) : OstreeRepo :=
  mkRepo (inited self) (mode self) (repodir self) (repo_dir self)
    (objects_dir self) (commit_stagedir self) (parent_repo self)
    (dirmeta_cache self) (disable_xattrs self) kf
    (collection_id self) (remotes self).

Definition with_tombstones : OstreeRepo :=
  with_config
    (repo OSTREE_REPO_MODE_BARE
       {[loose OSTREE_OBJECT_TYPE_COMMIT OSTREE_REPO_MODE_BARE
           := Entry stored_commit;
         loose OSTREE_OBJECT_TYPE_COMMIT_META OSTREE_REPO_MODE_BARE
           := Entry (regular_file 0 0 [] [])]}
       None None)
    {["core" := {["tombstone-commits" := "true"]}]}.

Definition with_orphan_commitmeta : OstreeRepo :=
  repo OSTREE_REPO_MODE_BARE
    {[loose OSTREE_OBJECT_TYPE_COMMIT_META OSTREE_REPO_MODE_BARE
        := Entry (regular_file 0 0 [] [])]}
    None None.

(** *** Signing *)

(** A toy OpenPGP engine.  A signature is a packet that tells its own
    length: the length of what follows, one byte for the key ([1] for the
    key ID ["KEY1"], [2] for any other), and the data signed.  Packets
    that are concatenated can be told apart again.  A verify result is
    the key bytes of the signatures checked.  The detached metadata of a
    commit is kept, its signatures concatenated, in the [.commitmeta]
    file. *)
Definition key_byte (key_id : string) : Byte.byte :=
  if bool_decide (key_id = "KEY1") then Byte.x01 else Byte.x02.

Definition signature_packet (key_id : string) (data : bytes) : bytes :=
  default Byte.x00 (Byte.of_nat (S (length data))) :: key_byte key_id :: data.

Fixpoint packets (fuel : nat) (stream : bytes) : list bytes :=
  match fuel, stream with
  | S fuel', len :: rest =>
      (len :: take (Byte.to_nat len) rest)
      :: packets fuel' (drop (Byte.to_nat len) rest)
  | _, _ => []
  end.

Definition openpgp_packets (stream : bytes) : list bytes :=
  packets (length stream) stream.

(** The engine, for a given outcome of checking signatures once they are
    parsed. *)
Definition gpg_engine
    (check : list bytes → GResult (list Byte.byte)) : GpgEngine := {|
  OstreeGpgVerifier := list string;
  OstreeGpgVerifyResult := list Byte.byte;
  _ostree_gpg_verifier_new := [];
  _ostree_gpg_verifier_add_keyring_dir v d := GOk (d :: v);
  _ostree_gpg_verifier_add_global_keyring_dir v := GOk v;
  _ostree_gpg_verifier_add_keyring v file := file :: v;
  _ostree_gpg_verifier_add_key_ascii_file v file := file :: v;
  _ostree_gpg_verifier_check_signature v data signatures :=
    check (openpgp_packets signatures);
  ostree_gpg_verify_result_lookup result key_id :=
    existsb (Byte.eqb (key_byte key_id)) result;
  find_keyring self remote := None;
  ot_keyfile_get_value_with_default kf group key default_value :=
    GOk default_value;
  gpgme_get_key homedir key_id := GOk key_id;
  gpgme_op_sign_detach key data := GOk (signature_packet key data);
  ostree_repo_read_commit_detached_metadata self checksum :=
    match fstatat (objects_dir self)
            (_ostree_loose_path checksum OSTREE_OBJECT_TYPE_COMMIT_META
               (mode self)) with
    | SysOk file =>
        GOk (Some [(_OSTREE_METADATA_GPGSIGS_NAME,
                    GV_array (GV_ay <$> openpgp_packets (i_data file)))])
    | SysErr ENOENT => GOk None
    | SysErr e => glnx_throw_errno e
    end;
  ostree_repo_write_commit_detached_metadata self checksum metadata :=
    (set_objects_dir self
       (<[_ostree_loose_path checksum OSTREE_OBJECT_TYPE_COMMIT_META
            (mode self)
          := Entry (regular_file 0 0
                      (concat (default [] (lookup_gpgsigs metadata))) [])]>
          (objects_dir self)),
     GOk ())
|}.

(** The engine that checks: the result names the key of every signature;
    and one whose check fails because a keyring file is gone, which gpgme
    reports as not found. *)
Definition gpg : GpgEngine :=
  gpg_engine (λ signatures, GOk (omap (λ packet, packet !! 1) signatures)).



(** *** Summary (scenario 6 of the spec) *)

(** The part of a refspec before its first colon, if it has one. *)
Fixpoint refspec_remote (refspec : string) : option string :=
  match refspec with
  | EmptyString => None
  | String c rest =>
      if Ascii.eqb c (Ascii.ascii_of_nat 58) then Some EmptyString
      else String c <$> refspec_remote rest
  end.

(** A serializer that writes every part of a variant: a tag for the
    kind, strings ended by a NUL byte, each byte of a byte array after a
    [1], an integer as its eight bytes, and a NUL byte after the elements
    of a container. *)
Definition serialize_string (s : string) : bytes :=
  String.list_byte_of_string s ++ [Byte.x00].

Definition serialize_uint64 (n : Z) : bytes :=
  (λ i : nat,
     default Byte.x00
       (Byte.of_nat (Z.to_nat (Z.land (Z.shiftr n (8 * (7 - Z.of_nat i)))
                                 0xFF))))
  <$> seq 0 8.

Fixpoint serialize_variant (v : GVariantValue) : bytes :=
  match v with
  | GV_string s => Byte.x01 :: serialize_string s
  | GV_bytestring s => Byte.x02 :: serialize_string s
  | GV_ay b => Byte.x03 :: concat ((λ x, [Byte.x01; x]) <$> b) ++ [Byte.x00]
  | GV_uint64 n => Byte.x04 :: serialize_uint64 n
  | GV_array l =>
      Byte.x05 :: concat (List.map serialize_variant l) ++ [Byte.x00]
  | GV_tuple l =>
      Byte.x06 :: concat (List.map serialize_variant l) ++ [Byte.x00]
  | GV_dict_entry key value =>
      Byte.x07 :: serialize_string key ++ serialize_variant value
  | GV_vardict d =>
      Byte.x08
      :: concat (List.map (λ entry : string * GVariantValue,
                             let '(key, value) := entry in
                             Byte.x07 :: serialize_string key
                             ++ serialize_variant value) d)
      ++ [Byte.x00]
  end.

(** An environment with the given refs and collection refs, no static
    deltas and the clock at the epoch. *)
Definition summary_env (refs : gmap string string)
    (collection_refs : gmap (string * string) string) : SummaryEnv := {|
  ostree_repo_list_refs self := GOk refs;
  ostree_repo_list_collection_refs self := GOk collection_refs;
  ostree_parse_refspec refspec := Some (refspec_remote refspec, refspec);
  ostree_commit_get_timestamp commit := 0%Z;
  g_date_time_new_from_unix_utc seconds := true;
  ostree_checksum_to_bytes_v checksum := String.list_byte_of_string checksum;
  ostree_repo_list_static_delta_names self := GOk [];
  static_delta_superblock_checksum self name := GErr G_IO_ERROR_NOT_FOUND;
  g_get_real_time := 0%Z;
  g_variant_get_data := serialize_variant
|}.

Definition with_one_commit : OstreeRepo :=
  repo OSTREE_REPO_MODE_BARE
    {[loose OSTREE_OBJECT_TYPE_COMMIT OSTREE_REPO_MODE_BARE
        := Entry stored_commit]}
    None None.

Definition refs_b_a : gmap string string :=
  {["b" := digest; "a" := digest; "origin:c" := digest]}.

(** Additional metadata in which the caller has put a collection map of
    its own, with the collection IDs out of order. *)
Definition unsorted_collection_map : list (string * GVariantValue) :=
  [(OSTREE_SUMMARY_COLLECTION_MAP,
    GV_array [GV_dict_entry "org.b" (GV_array []);
              GV_dict_entry "org.a" (GV_array [])])].

(** *** Further repositories *)

(** A third repository on top of the two of scenario 3, with no remote of
    its own. *)
Definition upstream_grandchild : OstreeRepo :=
  repo OSTREE_REPO_MODE_BARE ∅ None (Some upstream_child).

(** An empty repository with an empty parent. *)
Definition empty_child : OstreeRepo :=
  repo OSTREE_REPO_MODE_BARE ∅ None
    (Some (repo OSTREE_REPO_MODE_BARE ∅ None None)).

(** An empty repository whose parent has the commit. *)
Definition commit_child : OstreeRepo :=
  repo OSTREE_REPO_MODE_BARE ∅ None (Some with_one_commit).

(** A directory-metadata object in [objects/], with the cache enabled and
    empty; and the same object in the staging directory only. *)
Definition with_dirmeta : OstreeRepo :=
  set_dirmeta_cache
    (repo OSTREE_REPO_MODE_BARE
       {[loose OSTREE_OBJECT_TYPE_DIR_META OSTREE_REPO_MODE_BARE
           := Entry stored_commit]}
       None None)
    (Some ∅).

Definition staged_dirmeta : OstreeRepo :=
  repo OSTREE_REPO_MODE_BARE ∅
    (Some {[loose OSTREE_OBJECT_TYPE_DIR_META OSTREE_REPO_MODE_BARE
              := Entry staged_commit]})
    None.

(** *** Changing the registry *)

(** An environment without a [remotes.d] directory, where every name but
    the empty one validates, values are stored as they are, and the
    serializer of key files keeps nothing. *)
Definition validate_remote_name (name : string) : GResult unit :=
  if decide (name = EmptyString) then GErr G_IO_ERROR_FAILED else GOk ().
Definition remotes_d_dir (self : OstreeRepo) (sysroot : option string)
  : option string := None.
Definition make_directory_with_parents (path : string) : GResult unit :=
  GOk ().
Definition file_replace_contents (path : string) (data : bytes)
  : GResult unit := GOk ().
Definition unlink_file (path : string) : sysres unit := SysOk ().
Definition key_file_to_data (kf : GKeyFile) : bytes := [].
Definition key_file_load_from_data (data : bytes) : GKeyFile * GResult unit :=
  (∅, GOk ()).
Definition parse_string_as_value (value : string) : string := value.
Definition parse_string_list_as_value (value : list string) : string :=
  String.concat ";" value.
Definition keyfile_copy_group (source target : GKeyFile) (group : string)
  : GKeyFile :=
  <[group := default ∅ (source !! group)]> target.

Definition validate_collection_id (id : string) : GResult unit :=
  if decide (id = EmptyString) then GErr G_IO_ERROR_FAILED else GOk ().

(** The content framing is not used by the scenarios. *)
Definition no_content_stream (input : option bytes)
    (file_info : option GFileInfo) (xattrs : option (list (bytes * bytes)))
  : GResult (bytes * Z) :=
  GErr G_IO_ERROR_FAILED.


(** *** Import *)

(** A symbolic link as bare-user stores it: a regular file that holds the
    target, with the mode of a link recorded in its attribute. *)
Definition bare_user_symlink : inode :=
  mkInode (Z.lor S_IFREG 0x1A4) 1000 1000
    (String.list_byte_of_string "target") []
    (Some (mkFileMeta 0 0 (GUINT32_FROM_BE (Z.lor S_IFLNK 0x1FF)) [])).

Definition bare_user_source : OstreeRepo :=
  repo OSTREE_REPO_MODE_BARE_USER
    {[loose OSTREE_OBJECT_TYPE_FILE OSTREE_REPO_MODE_BARE_USER
        := Entry bare_user_symlink]}
    None None.

Definition user_only_empty : OstreeRepo :=
  repo OSTREE_REPO_MODE_BARE_USER_ONLY ∅ None None.

Definition archive_empty : OstreeRepo :=
  repo OSTREE_REPO_MODE_ARCHIVE_Z2 ∅ None None.

Definition ensure_loose_objdir_at (dfd : dir) (loose_path : string)
  : GResult unit := GOk ().

(** The writers of the copy path are not used by the scenarios. *)
Definition write_metadata_trusted_refused (self : OstreeRepo)
    (objtype : OstreeObjectType) (checksum : string) (variant : GVariant)
  : OstreeRepo * GResult unit := (self, GErr G_IO_ERROR_FAILED).
Definition write_metadata_refused (self : OstreeRepo)
    (objtype : OstreeObjectType) (checksum : string) (variant : GVariant)
  : OstreeRepo * GResult bytes := (self, GErr G_IO_ERROR_FAILED).
Definition write_content_trusted_refused (self : OstreeRepo)
    (checksum : string) (object_stream : option bytes)
    (length : local_guint64)
  : OstreeRepo * GResult unit := (self, GErr G_IO_ERROR_FAILED).
Definition write_content_refused (self : OstreeRepo)
    (checksum : string) (object_stream : option bytes)
    (length : local_guint64)
  : OstreeRepo * GResult bytes := (self, GErr G_IO_ERROR_FAILED).

(** *** Temporary directories *)

Definition tmpdir_staging : string := "staging-".
Definition tmpdir_fetcher : string := "fetcher-".
Definition staging_prefix : string := "staging-boot-".
Definition tmp_in_use : string := "staging-boot-aaaaaa".
Definition tmp_left : string := "staging-boot-bbbbbb".

(** [tmp/] with a staging directory that a process has locked and one that
    was left behind; and an empty [tmp/]. *)
Definition tmp_two : TmpDir :=
  mkTmpDir
    {[tmp_in_use := TmpSubdir; lock_of tmp_in_use := TmpFile;
      tmp_left := TmpSubdir]}
    {[lock_of tmp_in_use]}.

Definition tmp_empty : TmpDir := mkTmpDir ∅ ∅.

(** A file system that does not tell the type of an entry, and a
    [glnx_mkdtempat] that always draws the same characters. *)
Definition dirfd_iterator (entries : gmap string tmp_entry)
  : list (string * d_type) :=
  (λ entry, (entry.1, DT_UNKNOWN)) <$> map_to_list entries.
Definition mkdtempat_suffix (entries : gmap string tmp_entry)
  : option string := Some "cccccc".
End Scenario.

(** * Properties *)

(** ** Remotes registry *)

Section RemoteOptionFacts.
Variable parse_string : string → option string.
Variable parse_string_list : string → option (list string).
Variable parse_boolean : string → option bool.

#[local] Abbreviation get_option := (ostree_repo_get_remote_option parse_string).
#[local] Abbreviation get_list_option :=
  (ostree_repo_get_remote_list_option parse_string_list).
#[local] Abbreviation get_boolean_option :=
  (ostree_repo_get_remote_boolean_option parse_boolean).

Lemma remote_name_is_file_prefix rest :
  _ostree_repo_remote_name_is_file ("file://" +:+ rest) = true.
Proof. unfold _ostree_repo_remote_name_is_file. by destruct rest. Qed.

(** C10: for a remote name beginning with [file://], whatever the
    repository, its registry and its parents hold, the three option
    getters succeed with the caller's default ([NULL] for a list), and
    [ostree_repo_remote_get_gpg_verify] reports verification disabled. *)
Theorem file_remote_name_bypasses_registry
    (self : OstreeRepo) (rest option_name : string)
    (default_value : option string) (default_boolean : bool) :
  let name := "file://" +:+ rest in
  get_option self name option_name default_value = GOk default_value
  ∧ get_list_option self name option_name = GOk None
  ∧ get_boolean_option self name option_name default_boolean
    = GOk default_boolean
  ∧ ostree_repo_remote_get_gpg_verify parse_boolean self name = GOk false.
Proof.
  intros name. pose proof (remote_name_is_file_prefix rest) as Hfile.
  fold name in Hfile.
  unfold ostree_repo_remote_get_gpg_verify.
  destruct self; cbn [ostree_repo_get_remote_option
    ostree_repo_get_remote_list_option
    ostree_repo_get_remote_boolean_option].
  by rewrite Hfile.
Qed.

(** A getter reads the key of the local remote first. *)
Lemma g_key_file_get_key_not_found {A} (parse : string → option A)
    (kf : GKeyFile) (group key : string) :
  g_key_file_lookup kf group key = GErr G_KEY_FILE_ERROR_KEY_NOT_FOUND →
  g_key_file_get parse kf group key = GErr G_KEY_FILE_ERROR_KEY_NOT_FOUND.
Proof. unfold g_key_file_get. by intros ->. Qed.

Lemma repo_chain_unfold (self : OstreeRepo) :
  repo_chain self
  = self :: match parent_repo self with
            | Some parent => repo_chain parent
            | None => []
            end.
Proof. by destruct self. Qed.

Lemma remotes_named_unfold (self : OstreeRepo) (name : string) :
  remotes_named self name
  = from_option (λ remote, [remote]) [] (remotes self !! name)
    ++ match parent_repo self with
       | Some parent => remotes_named parent name
       | None => []
       end.
Proof.
  unfold remotes_named. rewrite repo_chain_unfold. cbn [omap list_omap].
  destruct (remotes self !! name), (parent_repo self); by cbn.
Qed.

(** One step of the cascade of the spec: what it is for a repository, from
    what it is for the parent. *)
Lemma spec_option_cascade_unfold {A} (get : OstreeRemote → GResult A)
    (default_value : A) (self : OstreeRepo) (name : string) :
  spec_option_cascade get default_value self name
  = let inherited :=
      match parent_repo self with
      | Some parent => spec_option_cascade get default_value parent name
      | None => GErr G_IO_ERROR_NOT_FOUND
      end in
    match remotes self !! name with
    | Some remote =>
        if key_undefined (get remote) then
          match inherited with
          | GOk value => GOk value
          | _ => GOk default_value
          end
        else get remote
    | None => inherited
    end.
Proof.
  unfold spec_option_cascade. rewrite remotes_named_unfold.
  destruct (remotes self !! name) as [remote|]; cbn [from_option app].
  - destruct (key_undefined (get remote)); [|done].
    destruct (parent_repo self) as [parent|]; [|done].
    destruct (remotes_named parent name) as [|nearest inherited]; [done|].
    cbn [fmap list_fmap first_defined].
    destruct (key_undefined (get nearest)) eqn:Hnearest.
    + by destruct (first_defined _) as [[]|].
    + by destruct (get nearest) as [|[]|].
  - by destruct (parent_repo self).
Qed.

(** C5, against the cascade in the spec's words: for a remote name that is
    not a [file://] URL, each of the three getters returns what the
    cascade gives for the way it reads a key.  So a name that is absent
    from the local registry leaves the whole lookup to the parent chain,
    and is not found if no repository of the chain has it; a name that is
    present with the key gives the local value; present without the key,
    it gives the value of the nearest inherited remote that has the key,
    and the caller's default ([NULL] for a list) when there is none or
    when the inherited lookup fails. *)
Theorem remote_option_cascade
    (self : OstreeRepo) (name key : string)
    (default_value : option string) (default_boolean : bool) :
  _ostree_repo_remote_name_is_file name = false →
  get_option self name key default_value
  = spec_option_cascade
      (λ remote, Some <$> g_key_file_get parse_string
                            (remote_options remote) (remote_group remote) key)
      default_value self name
  ∧ get_list_option self name key
    = spec_option_cascade
        (λ remote, Some <$> g_key_file_get parse_string_list
                              (remote_options remote) (remote_group remote)
                              key)
        None self name
  ∧ get_boolean_option self name key default_boolean
    = spec_option_cascade
        (λ remote, g_key_file_get parse_boolean
                     (remote_options remote) (remote_group remote) key)
        default_boolean self name.
Proof.
  intros Hfile.
  induction self as [self Hroot|self parent Hparent IH]
    using OstreeRepo_chain_ind.
  all: rewrite !spec_option_cascade_unfold; cbn zeta.
  - rewrite Hroot. destruct self; cbn in *.
    unfold _ostree_repo_get_remote; cbn.
    rewrite Hfile, Hroot.
    unfold g_key_file_get_string, g_key_file_get_string_list,
      g_key_file_get_boolean.
    destruct (remotes0 !! name) as [remote|]; [|done].
    split_and!.
    all: by destruct (g_key_file_get _ _ _ _) as [value|[]|].
  - rewrite Hparent. destruct IH as (IH1 & IH2 & IH3).
    rewrite <- IH1, <- IH2, <- IH3.
    destruct self; cbn in *.
    unfold _ostree_repo_get_remote; cbn.
    rewrite Hfile, Hparent.
    unfold g_key_file_get_string, g_key_file_get_string_list,
      g_key_file_get_boolean.
    destruct (remotes0 !! name) as [remote|]; [|done].
    split_and!.
    all: by destruct (g_key_file_get _ _ _ _) as [value|[]|].
Qed.
End RemoteOptionFacts.

(** ** Sorting with [strcmp] *)

Lemma g_list_sort_strcmp_elem_of (l : list string) (x : string) :
  x ∈ g_list_sort_strcmp l ↔ x ∈ l.
Proof. unfold g_list_sort_strcmp. by rewrite merge_sort_Permutation. Qed.

Lemma g_list_sort_strcmp_NoDup (l : list string) :
  NoDup l → NoDup (g_list_sort_strcmp l).
Proof. unfold g_list_sort_strcmp. by rewrite merge_sort_Permutation. Qed.

Lemma g_list_sort_strcmp_sorted (l : list string) :
  StronglySorted String.le (g_list_sort_strcmp l).
Proof. apply (StronglySorted_merge_sort _). Qed.

Lemma StronglySorted_strict_NoDup (l : list string) :
  StronglySorted String.le l → NoDup l → StronglySorted (strict String.le) l.
Proof.
  induction 1 as [|x l Hsorted IH Hall]; intros Hnodup; constructor.
  - apply IH. by eapply NoDup_cons_1_2.
  - apply NoDup_cons in Hnodup as [Hx _].
    rewrite Forall_forall in Hall |- *. intros y Hy. split; [by apply Hall|].
    intros Hyx. apply Hx.
    by rewrite (anti_symm String.le x y (Hall y Hy) Hyx).
Qed.

(** Sorting a list without duplicates gives a strictly increasing list. *)
Lemma g_list_sort_strcmp_strict (l : list string) :
  NoDup l → StronglySorted (strict String.le) (g_list_sort_strcmp l).
Proof.
  intros Hnodup. apply StronglySorted_strict_NoDup.
  - apply g_list_sort_strcmp_sorted.
  - by apply g_list_sort_strcmp_NoDup.
Qed.

Lemma StronglySorted_filter {A} (R : relation A) (P : A → Prop)
    `{∀ x, Decision (P x)} (l : list A) :
  StronglySorted R l → StronglySorted R (filter P l).
Proof.
  induction 1 as [|x l Hsorted IH Hall]; [constructor|].
  rewrite filter_cons. case_decide; [|done].
  constructor; [done|].
  rewrite Forall_forall in Hall |- *.
  intros y [_ Hy]%list_elem_of_filter. by apply Hall.
Qed.

(** ** Remotes registry: listing *)

Lemma remote_list_insert_keys (registry : gmap string OstreeRemote)
    (out : gset string) :
  map_fold (λ key _ (acc : gset string), {[key]} ∪ acc) out registry
  = dom registry ∪ out.
Proof.
  apply (map_fold_weak_ind (λ r m, r = dom m ∪ out)).
  - by rewrite dom_empty_L, (left_id_L ∅ (∪)).
  - intros name remote m r _ ->.
    by rewrite dom_insert_L, (assoc_L (∪)).
Qed.

(** With a parent configured, the helper calls itself on [self] again, with
    the same registry, and so on: no bound on the number of calls lets it
    return. *)
Lemma _ostree_repo_remote_list_parent (fuel : nat) (self : OstreeRepo)
    (out : gset string) :
  is_Some (parent_repo self) → _ostree_repo_remote_list fuel self out = None.
Proof.
  intros [parent Hparent]. revert out.
  induction fuel as [|fuel IH]; intros out; cbn; [done|].
  rewrite Hparent. apply IH.
Qed.

(** C2, on a repository with a parent: whatever the number of calls allowed,
    [ostree_repo_remote_list] does not return.  The helper was to recurse
    into [self->parent_repo] and recurses into [self]. *)
Theorem remote_list_with_parent_never_returns
    (fuel : nat) (self parent : OstreeRepo) :
  parent_repo self = Some parent → ostree_repo_remote_list fuel self = None.
Proof.
  intros Hparent. unfold ostree_repo_remote_list.
  by rewrite _ostree_repo_remote_list_parent.
Qed.

(** Without a parent the list returns after one call of the helper; it
    holds exactly the names of the registry, each once, in strictly
    increasing order. *)
Lemma remote_list_without_parent (fuel : nat) (self : OstreeRepo) :
  parent_repo self = None →
  ∃ names n_remotes,
    ostree_repo_remote_list (S fuel) self
    = Some (if decide (0 < n_remotes) then Some names else None, n_remotes)
    ∧ n_remotes = size (remotes self)
    ∧ length names = n_remotes
    ∧ (∀ name, name ∈ names ↔ is_Some (remotes self !! name))
    ∧ NoDup names
    ∧ StronglySorted (strict String.le) names.
Proof.
  intros Hparent.
  exists (g_list_sort_strcmp (elements (dom (remotes self)))),
    (size (dom (remotes self))).
  unfold ostree_repo_remote_list. cbn. rewrite Hparent. cbn.
  rewrite remote_list_insert_keys, (right_id_L ∅ (∪)).
  split_and!; [done|apply size_dom| | | |].
  - unfold g_list_sort_strcmp. by rewrite merge_sort_Permutation.
  - intros name.
    by rewrite g_list_sort_strcmp_elem_of, elem_of_elements, elem_of_dom.
  - apply g_list_sort_strcmp_NoDup, NoDup_elements.
  - apply g_list_sort_strcmp_strict, NoDup_elements.
Qed.

(** ** Object store: deletion *)

Lemma set_objects_dir_twice (self : OstreeRepo) (d1 d2 : dir) :
  set_objects_dir (set_objects_dir self d1) d2 = set_objects_dir self d2.
Proof. by destruct self. Qed.

Lemma set_objects_dir_same (self : OstreeRepo) :
  set_objects_dir self (objects_dir self) = self.
Proof. by destruct self. Qed.

(** A commit and its detached metadata have different loose paths. *)
Lemma loose_path_commit_meta_ne (sha256 : string) (repo_mode : OstreeRepoMode) :
  _ostree_loose_path sha256 OSTREE_OBJECT_TYPE_COMMIT repo_mode
  ≠ _ostree_loose_path sha256 OSTREE_OBJECT_TYPE_COMMIT_META repo_mode.
Proof.
  unfold _ostree_loose_path. intros Heq.
  do 4 apply (inj (String.app _)) in Heq.
  by destruct repo_mode.
Qed.

Section DeleteObjectFacts.
Variable get_boolean_with_default :
  GKeyFile → string → string → bool → GResult bool.
Variable write_metadata_trusted :
  OstreeRepo → OstreeObjectType → string → GVariantValue →
  OstreeRepo * GResult unit.

#[local] Abbreviation delete_object :=
  (ostree_repo_delete_object get_boolean_with_default write_metadata_trusted).

(** C4: deleting a commit whose loose file is in the objects directory
    removes that file and its [.commitmeta] twin, whether or not the twin
    was there; with [core/tombstone-commits] true, the call then is the
    writing of a [TOMBSTONE_COMMIT] object under the digest, holding the
    dictionary of ["commit"] to the digest, and without it the call
    succeeds at once.  The two paths lead to files: [unlinkat] does not
    remove a directory. *)
Theorem delete_commit_unlinks_twin_and_writes_tombstone
    (self : OstreeRepo) (sha256 : string) (commit : inode)
    (tombstone_commits : bool) :
  let commit_path :=
    _ostree_loose_path sha256 OSTREE_OBJECT_TYPE_COMMIT (mode self) in
  let meta_path :=
    _ostree_loose_path sha256 OSTREE_OBJECT_TYPE_COMMIT_META (mode self) in
  let self2 :=
    set_objects_dir self
      (delete commit_path (delete meta_path (objects_dir self))) in
  inited self = true →
  objects_dir self !! commit_path = Some (Entry commit) →
  S_ISDIR (st_mode commit) = false →
  (objects_dir self !! meta_path = None
   ∨ ∃ meta, objects_dir self !! meta_path = Some (Entry meta)
             ∧ S_ISDIR (st_mode meta) = false) →
  get_boolean_with_default (config self) "core" "tombstone-commits" false
  = GOk tombstone_commits →
  objects_dir self2 !! commit_path = None
  ∧ objects_dir self2 !! meta_path = None
  ∧ delete_object self OSTREE_OBJECT_TYPE_COMMIT sha256
    = if tombstone_commits
      then write_metadata_trusted self2 OSTREE_OBJECT_TYPE_TOMBSTONE_COMMIT
             sha256 (GV_vardict [("commit", GV_bytestring sha256)])
      else (self2, GOk ()).
Proof.
  intros commit_path meta_path self2 Hinited Hcommit Hfile Hmeta Hconfig.
  assert (commit_path ≠ meta_path) as Hne
    by apply loose_path_commit_meta_ne.
  split_and!.
  - subst self2. destruct self; cbn. apply lookup_delete_eq.
  - subst self2. destruct self; cbn.
    by rewrite lookup_delete_ne, lookup_delete_eq.
  - unfold ostree_repo_delete_object.
    rewrite !bool_decide_true by done. fold commit_path meta_path.
    assert (unlinkat (objects_dir self) meta_path
            = (delete meta_path (objects_dir self), SysOk ())
            ∨ unlinkat (objects_dir self) meta_path
              = (delete meta_path (objects_dir self), SysErr ENOENT))
      as [-> | ->].
    { unfold unlinkat. destruct Hmeta as [Hm | (meta & Hm & Hm')]; rewrite Hm.
      - right. by rewrite delete_id.
      - left. by rewrite Hm'. }
    all: unfold unlinkat; cbn.
    all: replace (objects_dir
                    (set_objects_dir self
                       (delete meta_path (objects_dir self))))
           with (delete meta_path (objects_dir self)) by (by destruct self).
    all: rewrite lookup_delete_ne, Hcommit, Hfile by done; cbn.
    all: rewrite set_objects_dir_twice; fold self2.
    all: unfold ostree_repo_get_config.
    all: replace (inited self2) with true by (by destruct self).
    all: replace (config self2) with (config self) by (by destruct self).
    all: rewrite Hconfig; by destruct tombstone_commits.
Qed.

(** C9: deleting a commit whose loose file is missing fails with
    [G_IO_ERROR_NOT_FOUND], and yet its [.commitmeta] twin, a file that
    was there, is gone from the objects directory afterwards: the twin is
    unlinked before the commit itself is tried. *)
Theorem delete_missing_commit_fails_after_unlinking_twin
    (self : OstreeRepo) (sha256 : string) (meta : inode) :
  let commit_path :=
    _ostree_loose_path sha256 OSTREE_OBJECT_TYPE_COMMIT (mode self) in
  let meta_path :=
    _ostree_loose_path sha256 OSTREE_OBJECT_TYPE_COMMIT_META (mode self) in
  objects_dir self !! commit_path = None →
  objects_dir self !! meta_path = Some (Entry meta) →
  S_ISDIR (st_mode meta) = false →
  ∃ self',
    delete_object self OSTREE_OBJECT_TYPE_COMMIT sha256
    = (self', GErr G_IO_ERROR_NOT_FOUND)
    ∧ objects_dir self' = delete meta_path (objects_dir self)
    ∧ objects_dir self' !! meta_path = None.
Proof.
  intros commit_path meta_path Hcommit Hmeta Hfile.
  exists (set_objects_dir self (delete meta_path (objects_dir self))).
  split_and!.
  - unfold ostree_repo_delete_object.
    rewrite !bool_decide_true by done. fold commit_path meta_path.
    unfold unlinkat at 1. rewrite Hmeta, Hfile. cbn.
    unfold unlinkat.
    replace (objects_dir
               (set_objects_dir self (delete meta_path (objects_dir self))))
      with (delete meta_path (objects_dir self)) by (by destruct self).
    rewrite lookup_delete_ne, Hcommit
      by (symmetry; apply loose_path_commit_meta_ne).
    by rewrite set_objects_dir_twice.
  - by destruct self.
  - destruct self; cbn. apply lookup_delete_eq.
Qed.
End DeleteObjectFacts.

(** ** Object store: lookup order *)

Lemma fstatat_lookup (d d' : dir) (path : string) :
  d !! path = d' !! path → fstatat d path = fstatat d' path.
Proof. unfold fstatat. by intros ->. Qed.

Lemma openat_lookup (d d' : dir) (path : string) :
  d !! path = d' !! path → openat d path = openat d' path.
Proof. unfold openat. by intros ->. Qed.

Lemma fstatat_SysOk (d : dir) (path : string) (ino : inode) :
  fstatat d path = SysOk ino ↔ d !! path = Some (Entry ino).
Proof.
  unfold fstatat. destruct (d !! path) as [[]|]; naive_solver.
Qed.

(** The existence check probes the staging directory first. *)
Lemma has_loose_object_stagedir_first
    (self : OstreeRepo) (checksum : string) (objtype : OstreeObjectType) :
  _ostree_repo_has_loose_object self checksum objtype
  = match first_hit fstatat (stagedir_then_objects self)
            (_ostree_loose_path checksum objtype (mode self)) with
    | SysOk _ => GOk true
    | SysErr ENOENT => GOk false
    | SysErr e => glnx_throw_errno e
    end.
Proof.
  unfold _ostree_repo_has_loose_object, stagedir_then_objects.
  destruct (commit_stagedir self) as [stagedir|]; cbn.
  - destruct (fstatat stagedir _) as [|[]]; try done.
    by destruct (fstatat (objects_dir self) _) as [|[]].
  - by destruct (fstatat (objects_dir self) _) as [|[]].
Qed.

Lemma has_object_cascade
    (self : OstreeRepo) (objtype : OstreeObjectType) (checksum : string) :
  first_hit fstatat (stagedir_then_objects self)
    (_ostree_loose_path checksum objtype (mode self)) = SysErr ENOENT →
  ostree_repo_has_object self objtype checksum
  = match parent_repo self with
    | Some parent => ostree_repo_has_object parent objtype checksum
    | None => GOk false
    end.
Proof.
  intros Hmiss. destruct self; cbn [ostree_repo_has_object].
  rewrite has_loose_object_stagedir_first, Hmiss. cbn.
  by destruct parent_repo0.
Qed.

(** One unfolding of a function that recurses along the parent chain, with
    the repository kept abstract. *)
Ltac unfold_on_repo self f :=
  destruct self as [?i ?m ?rp ?rd ?od ?sd ?pr ?dc ?dx ?cf ?ci ?rs];
  cbn [f];
  match goal with
  | |- context [mkRepo ?a1 ?a2 ?a3 ?a4 ?a5 ?a6 ?a7 ?a8 ?a9 ?a10 ?a11 ?a12] =>
      let E := fresh "E" in
      remember (mkRepo a1 a2 a3 a4 a5 a6 a7 a8 a9 a10 a11 a12) as self eqn:E
        in *;
      clear E
  end.

(** A metadata load that the cache does not answer probes the objects
    directory first, then the staging directory, then asks the parent. *)
Lemma load_variant_objects_first
    (self : OstreeRepo) (objtype : OstreeObjectType) (sha256 : string) :
  OSTREE_OBJECT_TYPE_IS_META objtype = true →
  dirmeta_cache_lookup self objtype sha256 = None →
  (ostree_repo_load_variant self objtype sha256).2
  = match first_hit openat (objects_then_stagedir self)
            (_ostree_loose_path sha256 objtype (mode self)) with
    | SysOk fd => GOk (Some (load_variant_from_fd objtype fd))
    | SysErr ENOENT =>
        match parent_repo self with
        | Some parent => (ostree_repo_load_variant parent objtype sha256).2
        | None => GErr G_IO_ERROR_NOT_FOUND
        end
    | SysErr e => glnx_throw_errno e
    end.
Proof.
  intros Hmeta Hcache. unfold ostree_repo_load_variant.
  unfold_on_repo self load_metadata_internal.
  rewrite Hmeta. cbn [negb andb].
  unfold dirmeta_cache_lookup in Hcache.
  assert ((if bool_decide (objtype = OSTREE_OBJECT_TYPE_DIR_META)
              && true && true
           then dirmeta_cache self ≫= λ cache, cache !! sha256
           else None) = None) as ->.
  { by destruct (bool_decide (objtype = OSTREE_OBJECT_TYPE_DIR_META)). }
  unfold objects_then_stagedir, ot_openat_ignore_enoent.
  destruct (commit_stagedir self) as [stagedir|]; cbn [first_hit];
    (destruct (openat (objects_dir self) _) as [fd|[]]; try done).
  - destruct (openat stagedir _) as [fd|[]]; try done.
    destruct (parent_repo self) as [parent|]; [|done].
    by destruct (load_metadata_internal parent _ _ _ _ _ _) as [? [| |]].
  - destruct (parent_repo self) as [parent|]; [|done].
    by destruct (load_metadata_internal parent _ _ _ _ _ _) as [? [| |]].
Qed.

Lemma fstatat_singleton (path : string) (ino : inode) :
  fstatat {[path := Entry ino]} path = SysOk ino.
Proof. unfold fstatat. by rewrite lookup_singleton_eq. Qed.

Lemma openat_singleton (d : dir) (path : string) (ino : inode) :
  fstatat d path = SysOk ino →
  openat {[path := Entry ino]} path = openat d path.
Proof.
  intros Hd%fstatat_SysOk. apply openat_lookup.
  by rewrite lookup_singleton_eq.
Qed.

(** A content load probes the objects directory first, then the staging
    directory, then asks the parent; what it finds is served as if it were
    the only loose object of the repository. *)
Lemma load_file_bare_objects_first
    (self : OstreeRepo) (checksum : string)
    (want_fd want_stbuf want_symlink want_xattrs : bool) :
  let path :=
    _ostree_loose_path checksum OSTREE_OBJECT_TYPE_FILE (mode self) in
  let load r :=
    _ostree_repo_load_file_bare r checksum
      want_fd want_stbuf want_symlink want_xattrs in
  match first_hit fstatat (objects_then_stagedir self) path with
  | SysOk ino => load self = load (with_only_object self path ino)
  | SysErr ENOENT =>
      load self = match parent_repo self with
                  | Some parent => load parent
                  | None => GErr G_IO_ERROR_NOT_FOUND
                  end
  | SysErr e => load self = glnx_throw_errno e
  end.
Proof.
  intros path load. subst load. cbn beta.
  assert (∀ (objdir_fd : dir) ino,
             fstatat objdir_fd path = SysOk ino →
             load_file_bare_found self objdir_fd path ino
               want_fd want_stbuf want_symlink want_xattrs
             = _ostree_repo_load_file_bare (with_only_object self path ino)
                 checksum want_fd want_stbuf want_symlink want_xattrs)
    as Hfound.
  { intros objdir_fd ino Hino. subst path.
    destruct self; cbn. rewrite fstatat_singleton.
    unfold load_file_bare_found; cbn.
    by rewrite (openat_singleton objdir_fd). }
  unfold objects_then_stagedir.
  unfold_on_repo self _ostree_repo_load_file_bare. fold path.
  destruct (commit_stagedir self) as [stagedir|]; cbn [first_hit].
  - destruct (fstatat (objects_dir self) path) as [ino|[]] eqn:Hobj;
      try done; [by apply Hfound|].
    destruct (fstatat stagedir path) as [ino|[]] eqn:Hstage;
      try done; by apply Hfound.
  - destruct (fstatat (objects_dir self) path) as [ino|[]] eqn:Hobj;
      try done; by apply Hfound.
Qed.


(** ** Object store: the 16 KiB threshold *)

(** C8: a metadata object that [ostree_repo_load_variant] finds as the
    loose file [fd] of the repository (and does not take from the
    directory-metadata cache) is returned as a variant over the bytes of
    the file; the variant owns a heap buffer when the file has at most
    16384 bytes, and borrows a memory mapping of the file when it has
    16385 bytes or more. *)
Theorem load_variant_maps_above_16k
    (self : OstreeRepo) (objtype : OstreeObjectType) (sha256 : string)
    (fd : inode) :
  OSTREE_OBJECT_TYPE_IS_META objtype = true →
  dirmeta_cache_lookup self objtype sha256 = None →
  first_hit openat (objects_then_stagedir self)
    (_ostree_loose_path sha256 objtype (mode self)) = SysOk fd →
  ∃ v,
    (ostree_repo_load_variant self objtype sha256).2 = GOk (Some v)
    ∧ gv_type v = objtype
    ∧ gv_data v = i_data fd
    ∧ ((st_size fd ≤ 16384)%Z → gv_backing v = HeapBuffer)
    ∧ ((16385 ≤ st_size fd)%Z → gv_backing v = MappedFile).
Proof.
  intros Hmeta Hcache Hfd.
  rewrite load_variant_objects_first, Hfd by done.
  eexists. split; [done|].
  unfold load_variant_from_fd. case_bool_decide; cbn; split_and!; try done.
  all: intros; lia.
Qed.

(** ** Object store: canonical identity in bare-user-only *)

Lemma serving_repo_unfold (self : OstreeRepo) (checksum : string) :
  serving_repo self checksum
  = match first_hit fstatat (objects_then_stagedir self)
            (_ostree_loose_path checksum OSTREE_OBJECT_TYPE_FILE
               (mode self)) with
    | SysErr ENOENT =>
        match parent_repo self with
        | Some parent => serving_repo parent checksum
        | None => None
        end
    | _ => Some self
    end.
Proof. by destruct self. Qed.

Lemma load_file_bare_with_only_object
    (self : OstreeRepo) (checksum : string) (ino : inode)
    (want_fd want_stbuf want_symlink want_xattrs : bool) :
  let path :=
    _ostree_loose_path checksum OSTREE_OBJECT_TYPE_FILE (mode self) in
  _ostree_repo_load_file_bare (with_only_object self path ino) checksum
    want_fd want_stbuf want_symlink want_xattrs
  = load_file_bare_found self {[path := Entry ino]} path ino
      want_fd want_stbuf want_symlink want_xattrs.
Proof. intros path. subst path. destruct self; cbn. by rewrite fstatat_singleton. Qed.

(** An object found is reported by the mode of the repository in whose
    directory it was found. *)
Lemma load_file_bare_found_reported
    (owner : OstreeRepo) (path : string) (ino : inode)
    (want_fd want_symlink : bool) (out : BareFileOut) :
  load_file_bare_found owner {[path := Entry ino]} path ino
    want_fd true want_symlink true = GOk out →
  ∃ stbuf xattrs,
    bf_stbuf out = Some stbuf ∧ bf_xattrs out = Some xattrs
    ∧ reported_by_mode owner ino
      = Some (stb_uid stbuf, stb_gid stbuf, xattrs).
Proof.
  unfold load_file_bare_found, reported_by_mode, openat.
  rewrite lookup_singleton_eq.
  replace (want_fd || true) with true by (by destruct want_fd).
  cbn [orb andb stat_of_inode stb_mode].
  destruct (S_ISREG (st_mode ino)) eqn:Hreg;
    cbn [orb negb mbind GResult_bind].
  - destruct (mode owner); cbn; try done.
    + intros [= <-]. cbn. eauto.
    + destruct (i_ostreemeta ino) as [metadata|]; cbn; [|done].
      destruct (S_ISLNK (GUINT32_FROM_BE (fm_mode_be metadata)));
        intros [= <-]; cbn; eauto.
    + intros [= <-]. cbn. eauto.
  - destruct (S_ISLNK (st_mode ino)) eqn:Hlnk; cbn [negb]; [|done].
    destruct (mode owner); cbn; try done.
    all: intros [= <-]; cbn; eauto.
Qed.

(** A successful content load returns what the repository of the chain
    that holds the object makes of it. *)
Lemma load_file_bare_served
    (self : OstreeRepo) (checksum : string)
    (want_fd want_stbuf want_symlink want_xattrs : bool) :
  ∀ owner out,
    serving_repo self checksum = Some owner →
    _ostree_repo_load_file_bare self checksum
      want_fd want_stbuf want_symlink want_xattrs = GOk out →
    let path :=
      _ostree_loose_path checksum OSTREE_OBJECT_TYPE_FILE (mode owner) in
    ∃ ino,
      first_hit fstatat (objects_then_stagedir owner) path = SysOk ino
      ∧ load_file_bare_found owner {[path := Entry ino]} path ino
          want_fd want_stbuf want_symlink want_xattrs = GOk out.
Proof.
  induction self as [self Hroot|self parent Hparent IH]
    using OstreeRepo_chain_ind; intros owner out Hserving Hload.
  all: rewrite serving_repo_unfold in Hserving.
  all: pose proof (load_file_bare_objects_first self checksum
                     want_fd want_stbuf want_symlink want_xattrs) as Hprobe.
  all: cbn zeta in Hprobe.
  all: destruct (first_hit fstatat _ _) as [ino|[]] eqn:Hhit;
    rewrite Hprobe in Hload; try done.
  all: try (injection Hserving as <-;
            rewrite load_file_bare_with_only_object in Hload;
            by exists ino).
  - by rewrite Hroot in Hserving.
  - rewrite Hparent in Hserving, Hload. by eapply IH.
Qed.

Section LoadFileFacts.
Variable content_stream_parse :
  bytes → Z → GResult (option bytes * GFileInfo * list (bytes * bytes)).

#[local] Abbreviation load_file :=
  (ostree_repo_load_file content_stream_parse).

(** C3, as the code has it: in a repository of mode [BARE_USER_ONLY], a
    successful [ostree_repo_load_file] of a content object reports what
    the mode of the repository of the parent chain in which the object is
    found (the repository itself first) makes of the file found: uid 0,
    gid 0 and no extended attributes if that repository is of mode
    [BARE_USER_ONLY]; the uid, gid and attributes of the file if it is
    [BARE]; those recorded in the file's [user.ostreemeta] if it is
    [BARE_USER]; and out of an [ARCHIVE_Z2] repository no load
    succeeds. *)
Theorem load_file_bare_user_only_canonical
    (self owner : OstreeRepo) (checksum : string) (want_input : bool)
    (r : LoadedFile) :
  mode self = OSTREE_REPO_MODE_BARE_USER_ONLY →
  serving_repo self checksum = Some owner →
  load_file self checksum want_input true true = GOk r →
  ∃ ino info xattrs,
    first_hit fstatat (objects_then_stagedir owner)
      (_ostree_loose_path checksum OSTREE_OBJECT_TYPE_FILE (mode owner))
    = SysOk ino
    ∧ lf_file_info r = Some info
    ∧ lf_xattrs r = Some xattrs
    ∧ reported_by_mode owner ino = Some (fi_uid info, fi_gid info, xattrs)
    ∧ (mode owner = OSTREE_REPO_MODE_BARE_USER_ONLY →
       fi_uid info = 0%Z ∧ fi_gid info = 0%Z ∧ xattrs = [])
    ∧ mode owner ≠ OSTREE_REPO_MODE_ARCHIVE_Z2.
Proof.
  intros Hself Hserving.
  unfold_on_repo self ostree_repo_load_file. rewrite Hself.
  destruct (_ostree_repo_load_file_bare self checksum _ _ _ _)
    as [out| |] eqn:Hbare; cbn; try done.
  eapply load_file_bare_served in Hbare as (ino & Hhit & Hfound); [|done].
  apply load_file_bare_found_reported in Hfound
    as (stbuf & xattrs & Hstbuf & Hxattrs & Hreported).
  rewrite Hstbuf, Hxattrs.
  assert (∀ info,
            fi_uid info = stb_uid stbuf → fi_gid info = stb_gid stbuf →
            ∃ ino0 info0 xattrs0,
              first_hit fstatat (objects_then_stagedir owner)
                (_ostree_loose_path checksum OSTREE_OBJECT_TYPE_FILE
                   (mode owner)) = SysOk ino0
              ∧ Some info = Some info0
              ∧ Some xattrs = Some xattrs0
              ∧ reported_by_mode owner ino0
                = Some (fi_uid info0, fi_gid info0, xattrs0)
              ∧ (mode owner = OSTREE_REPO_MODE_BARE_USER_ONLY →
                 fi_uid info0 = 0%Z ∧ fi_gid info0 = 0%Z ∧ xattrs0 = [])
              ∧ mode owner ≠ OSTREE_REPO_MODE_ARCHIVE_Z2) as Hinfo.
  { intros info Huid Hgid. exists ino, info, xattrs.
    rewrite Huid, Hgid. split_and!; try done.
    - intros Howner. unfold reported_by_mode in Hreported.
      rewrite Howner in Hreported. by injection Hreported as <- <- <-.
    - intros Howner. unfold reported_by_mode in Hreported.
      by rewrite Howner in Hreported. }
  destruct (S_ISLNK (stb_mode stbuf)); [|destruct (S_ISREG _)]; cbn;
    try done.
  all: intros [= <-]; cbn; by apply Hinfo.
Qed.
End LoadFileFacts.

(** ** Variant dictionaries *)

Lemma vardict_lookup_elem_of (d : list (string * GVariantValue))
    (key : string) (v : GVariantValue) :
  NoDup d.*1 → (key, v) ∈ d → vardict_lookup d key = Some v.
Proof.
  induction d as [|[k w] d IH]; cbn; intros Hnodup Hin.
  - by apply elem_of_nil in Hin.
  - apply NoDup_cons in Hnodup as [Hk Hnodup].
    apply elem_of_cons in Hin as [[= <- <-]|Hin].
    + by rewrite decide_True.
    + rewrite decide_False; [by apply IH|].
      intros ->. apply Hk. apply list_elem_of_fmap. by exists (key, v).
Qed.

Lemma vardict_lookup_None (d : list (string * GVariantValue)) (key : string) :
  key ∉ d.*1 → vardict_lookup d key = None.
Proof.
  induction d as [|[k w] d IH]; cbn; [done|]. intros Hnotin.
  apply not_elem_of_cons in Hnotin as [Hne Hnotin].
  rewrite decide_False by done. by apply IH.
Qed.

(** Reading the [a{sv}] that [g_variant_dict_end] makes is reading the
    dictionary. *)
Lemma vardict_lookup_dict_end (d : gmap string GVariantValue) (key : string) :
  vardict_lookup (g_variant_dict_end d) key = d !! key.
Proof.
  unfold g_variant_dict_end. destruct (d !! key) as [v|] eqn:Hkey.
  - apply vardict_lookup_elem_of; [apply NoDup_fst_map_to_list|].
    by apply elem_of_map_to_list.
  - apply vardict_lookup_None. intros [[k v] [Hk Hin]]%list_elem_of_fmap.
    apply elem_of_map_to_list in Hin. cbn in Hk. subst k. congruence.
Qed.


(** ** Signature engine *)


(** Loading a metadata object other than a [DIR_META] leaves the
    repository as it was. *)
Lemma load_metadata_internal_state
    (self : OstreeRepo) (objtype : OstreeObjectType) (sha256 : string)
    (error_if_not_found want_variant want_stream want_size : bool) :
  objtype ≠ OSTREE_OBJECT_TYPE_DIR_META →
  (load_metadata_internal self objtype sha256
     error_if_not_found want_variant want_stream want_size).1 = self.
Proof.
  intros Htype.
  revert error_if_not_found want_variant want_stream want_size.
  induction self as [self Hroot|self parent Hparent IH]
    using OstreeRepo_chain_ind; intros e wv ws wz.
  all: unfold_on_repo self load_metadata_internal.
  all: rewrite bool_decide_false by done; cbn [andb].
  all: destruct (negb _); [done|].
  all: destruct (ot_openat_ignore_enoent _ _) as [[fd|]| |]; try done.
  all: try by destruct wv.
  all: destruct (commit_stagedir self) as [stagedir|].
  all: try destruct (ot_openat_ignore_enoent stagedir _) as [[fd|]| |];
    try done.
  all: try by destruct wv.
  all: try (rewrite Hroot; by destruct e).
  all: rewrite Hparent.
  all: specialize (IH true true false false).
  all: destruct (load_metadata_internal parent _ _ _ _ _ _) as [parent' [| |]].
  all: cbn in IH |- *; subst parent'; rewrite <- Hparent; by destruct self.
Qed.

Lemma load_variant_state
    (self : OstreeRepo) (objtype : OstreeObjectType) (sha256 : string) :
  objtype ≠ OSTREE_OBJECT_TYPE_DIR_META →
  (ostree_repo_load_variant self objtype sha256).1 = self.
Proof.
  intros Htype. unfold ostree_repo_load_variant.
  pose proof (load_metadata_internal_state self objtype sha256
                true true false false Htype) as Hstate.
  by destruct (load_metadata_internal _ _ _ _ _ _ _).
Qed.

Section SigningFacts.
Context `{engine : GpgEngine}.

End SigningFacts.

(** ** Summary builder *)

Lemma mapM_app_Some {A B} (f : A → option B) (l1 l2 : list A)
    (k1 k2 : list B) :
  mapM f l1 = Some k1 → mapM f l2 = Some k2 →
  mapM f (l1 ++ l2) = Some (k1 ++ k2).
Proof. rewrite !mapM_Some. apply Forall2_app. Qed.

Lemma strictly_increasing_sorted_keys {A} (m : gmap string A)
    (P : string → Prop) `{∀ x, Decision (P x)} :
  strictly_increasing (filter P (g_list_sort_strcmp (map_to_list m).*1)).
Proof.
  apply StronglySorted_filter, g_list_sort_strcmp_strict,
    NoDup_fst_map_to_list.
Qed.

Section SummaryFacts.
Context `{env : SummaryEnv}.

Lemma summary_add_ref_entry_names (self self' : OstreeRepo)
    (ref checksum : string) (builder builder' : list GVariantValue) :
  summary_add_ref_entry self ref checksum builder = (self', GOk builder') →
  ∃ added,
    builder' = builder ++ added
    ∧ summary_ref_names added = Some (filter is_local_refspec [ref]).
Proof.
  unfold summary_add_ref_entry.
  rewrite filter_cons, filter_nil. unfold is_local_refspec.
  destruct (ostree_parse_refspec ref) as [[[remotename|] r]|]; [| |done].
  - intros [= <- <-]. exists []. by rewrite (right_id_L [] (++)).
  - destruct (ostree_repo_load_variant self _ _) as [self1 [[commit|]| |]];
      intros [= <- <-].
    by eexists.
Qed.

Lemma summary_add_ref_entries_names (refs : gmap string string)
    (ordered_keys : list string) :
  ∀ (self self' : OstreeRepo) (builder builder' : list GVariantValue),
    summary_add_ref_entries self refs ordered_keys builder
    = (self', GOk builder') →
    ∃ added,
      builder' = builder ++ added
      ∧ summary_ref_names added
        = Some (filter is_local_refspec ordered_keys).
Proof.
  induction ordered_keys as [|ref rest IH]; intros self self' b b' Hadd.
  - injection Hadd as <- <-. exists []. by rewrite (right_id_L [] (++)).
  - cbn [summary_add_ref_entries] in Hadd.
    destruct (refs !! ref) as [commit|]; [|done].
    destruct (summary_add_ref_entry self ref commit b)
      as [self1 [b1| |]] eqn:Hentry; try done.
    apply summary_add_ref_entry_names in Hentry as (added1 & -> & Hnames1).
    apply IH in Hadd as (added2 & -> & Hnames2).
    exists (added1 ++ added2). split; [by rewrite (assoc_L (++))|].
    change (ref :: rest) with ([ref] ++ rest). rewrite filter_app.
    by apply mapM_app_Some.
Qed.

Lemma summary_add_collections_names (main_collection_id : option string)
    (collection_map : gmap string (gmap string string))
    (ordered_collection_ids : list string) :
  NoDup ordered_collection_ids →
  ∀ (self self' : OstreeRepo)
    (refs_builder collection_refs_builder : list GVariantValue)
    (refs_builder' collection_refs_builder' : list GVariantValue)
    (collection_map_size collection_map_size' : nat),
    summary_add_collections self main_collection_id collection_map
      ordered_collection_ids refs_builder collection_refs_builder
      collection_map_size
    = (self', GOk (refs_builder', collection_refs_builder',
                   collection_map_size')) →
    ∃ refs_added collections_added ref_names collections,
      refs_builder' = refs_builder ++ refs_added
      ∧ collection_refs_builder'
        = collection_refs_builder ++ collections_added
      ∧ summary_ref_names refs_added = Some ref_names
      ∧ strictly_increasing ref_names
      ∧ ((∀ id, id ∈ ordered_collection_ids →
                main_collection_id ≠ Some id) → refs_added = [])
      ∧ mapM collection_map_entry_names collections_added
        = Some collections
      ∧ collections.*1
        = filter (λ id, main_collection_id ≠ Some id)
            ordered_collection_ids
      ∧ Forall (λ entry, strictly_increasing entry.2) collections.
Proof.
  induction ordered_collection_ids as [|id rest IH];
    intros Hnodup self self' rb crb rb' crb' n n' Hadd.
  - injection Hadd as <- <- <- <-. exists [], [], [], [].
    rewrite !(right_id_L [] (++)). split_and!; try done; constructor.
  - apply NoDup_cons in Hnodup as [Hid Hnodup].
    cbn [summary_add_collections] in Hadd.
    destruct (collection_map !! id) as [ref_map|]; [|done].
    case_bool_decide as Hmain.
    + destruct (summary_add_ref_entries self ref_map _ rb)
        as [self1 [rb1| |]] eqn:Hentries; try done.
      apply summary_add_ref_entries_names in Hentries
        as (added & -> & Hnames).
      apply (IH Hnodup) in Hadd
        as (radded & cadded & rnames & cnames & -> & -> & _ & _ & Hnone
            & Hcnames & Hids & Hsorted).
      rewrite Hnone by (intros id' Hin ->; congruence).
      eexists added, cadded, _, cnames.
      rewrite (right_id_L [] (++)).
      split_and!; try done.
      * apply strictly_increasing_sorted_keys.
      * intros Hnomain. by destruct (Hnomain id (list_elem_of_here _ _)).
      * rewrite Hids, filter_cons. by rewrite decide_False by naive_solver.
    + destruct (summary_add_ref_entries self ref_map _ [])
        as [self1 [entries| |]] eqn:Hentries; try done.
      apply summary_add_ref_entries_names in Hentries
        as (added & -> & Hnames).
      apply (IH Hnodup) in Hadd
        as (radded & cadded & rnames & cnames & -> & -> & Hrnames & Hrsorted
            & Hnone & Hcnames & Hids & Hsorted).
      eexists radded, (_ :: cadded), rnames, ((id, _) :: cnames).
      rewrite <- (assoc_L (++)).
      split_and!; try done.
      * intros Hnomain. apply Hnone. intros id' Hin.
        apply Hnomain. by apply list_elem_of_further.
      * unfold summary_ref_names in Hnames. cbn.
        rewrite Hnames. cbn. by rewrite Hcnames.
      * rewrite filter_cons, decide_True by done. cbn. by rewrite Hids.
      * constructor; [|done]. apply strictly_increasing_sorted_keys.
Qed.

(** The summary variant: its refs are strictly increasing, and its
    collection map is sorted unless it is the caller's own. *)
Lemma regenerate_summary_variant_sorted (self self2 : OstreeRepo)
    (additional_metadata : option (list (string * GVariantValue)))
    (summary : GVariantValue) :
  regenerate_summary_variant self additional_metadata
  = (self2, GOk summary) →
  ∃ refs metadata names,
    summary = GV_tuple [GV_array refs; GV_vardict metadata]
    ∧ summary_ref_names refs = Some names
    ∧ strictly_increasing names
    ∧ (collection_id self = None →
       ∀ listed,
         ostree_repo_list_refs self = GOk listed →
         names = filter is_local_refspec
                   (g_list_sort_strcmp (map_to_list listed).*1))
    ∧ (∀ v,
         vardict_lookup metadata OSTREE_SUMMARY_COLLECTION_MAP = Some v →
         sorted_collection_map v
         ∨ g_variant_dict_init additional_metadata
             !! OSTREE_SUMMARY_COLLECTION_MAP = Some v).
Proof.
  unfold regenerate_summary_variant, ostree_repo_get_collection_id.
  set (listing := match collection_id self with
                  | Some _ => _
                  | None => _
                  end).
  destruct listing as [self1 [rb| |]] eqn:Hlisting; try done.
  destruct (ostree_repo_list_static_delta_names self1) as [delta_names| |];
    try done; cbn [mbind GResult_bind].
  destruct (summary_static_deltas self1 delta_names ∅) as [deltas| |];
    try done; cbn [mbind GResult_bind].
  destruct (ostree_repo_list_collection_refs self1) as [collection_refs| |];
    try done.
  destruct (summary_add_collections _ _ _ _ _ _ _)
    as [self3 [[[rb' crb'] n']| |]] eqn:Hcollections; try done.
  intros [= <- <-].
  apply summary_add_collections_names in Hcollections
    as (radded & cadded & rnames & cnames & -> & -> & Hrnames & Hrsorted
        & Hnomain & Hcnames & Hids & Hcsorted);
    [|apply g_list_sort_strcmp_NoDup, NoDup_fst_map_to_list].
  assert (∃ rb_names,
             summary_ref_names (rb ++ radded) = Some rb_names
             ∧ strictly_increasing rb_names
             ∧ (collection_id self = None →
                ∀ listed,
                  ostree_repo_list_refs self = GOk listed →
                  rb_names = filter is_local_refspec
                               (g_list_sort_strcmp (map_to_list listed).*1)))
    as (names & Hnames & Hsorted & Hlisted).
  { subst listing. destruct (collection_id self) as [main|] eqn:Hmain.
    - injection Hlisting as <- <-. exists rnames. by split_and!.
    - rewrite Hnomain, (right_id_L [] (++)) by done.
      destruct (ostree_repo_list_refs self) as [listed| |] eqn:Hrefs;
        try done.
      apply summary_add_ref_entries_names in Hlisting
        as (added & -> & Hadded).
      eexists. split_and!; [done|apply strictly_increasing_sorted_keys|].
      by intros _ ? [= <-]. }
  eexists _, _, names. split_and!; [done..|].
  intros v. rewrite vardict_lookup_dict_end.
  unfold OSTREE_SUMMARY_COLLECTION_MAP, OSTREE_SUMMARY_COLLECTION_ID,
    OSTREE_SUMMARY_LAST_MODIFIED, OSTREE_SUMMARY_STATIC_DELTAS.
  case_bool_decide.
  - rewrite lookup_insert_eq. intros [= <-]. left.
    exists cnames. split_and!; [done| |done].
    rewrite Hids. apply StronglySorted_filter, g_list_sort_strcmp_strict,
      NoDup_fst_map_to_list.
  - intros Hv. right.
    destruct (collection_id self); rewrite ?lookup_insert_ne in Hv by done;
      case_bool_decide; by rewrite ?lookup_insert_ne in Hv by done.
Qed.

(** A summary that was regenerated is in the file [summary], and the
    signature of the older one is gone. *)
Lemma regenerate_summary_written (self self' : OstreeRepo)
    (additional_metadata : option (list (string * GVariantValue))) :
  ostree_repo_regenerate_summary self additional_metadata
  = (self', GOk ()) →
  ∃ self2 summary file,
    regenerate_summary_variant self additional_metadata
    = (self2, GOk summary)
    ∧ repo_dir self' !! "summary" = Some (Entry file)
    ∧ i_data file = g_variant_get_data summary
    ∧ fstatat (repo_dir self') "summary.sig" = SysErr ENOENT.
Proof.
  unfold ostree_repo_regenerate_summary.
  destruct (regenerate_summary_variant self additional_metadata)
    as [self2 [summary| |]] eqn:Hvariant; try done.
  unfold _ostree_repo_file_replace_contents, glnx_file_replace_contents_at.
  set (written := Entry _).
  assert (∀ d : dir,
             let d' := <["summary" := written]> d in
             (let '(d'', unlinked) := unlinkat d' "summary.sig" in
              (set_repo_dir (set_repo_dir self2 d') d'',
               match unlinked with
               | SysOk _ | SysErr ENOENT => GOk ()
               | SysErr e => glnx_throw_errno e
               end)) = (self', GOk ()) →
             repo_dir self' !! "summary" = Some written
             ∧ fstatat (repo_dir self') "summary.sig" = SysErr ENOENT)
    as Hwritten.
  { intros d d'. unfold unlinkat, fstatat.
    destruct (d' !! "summary.sig") as [[sig|[]]|] eqn:Hsig; cbn;
      try destruct (S_ISDIR (st_mode sig)); cbn; try done;
      intros [= <-]; (destruct self2; cbn).
    all: rewrite ?lookup_delete_eq, ?lookup_delete_ne, ?Hsig by done.
    all: subst d'; by rewrite lookup_insert_eq. }
  destruct (repo_dir self2 !! "summary") as [[old|e]|];
    [destruct (S_ISDIR (st_mode old))| |]; cbn [fst snd].
  - by destruct (set_repo_dir _ _).
  - intros [Hfile Hsig]%Hwritten. by eexists self2, summary, _.
  - by destruct e.
  - intros [Hfile Hsig]%Hwritten. by eexists self2, summary, _.
Qed.

(** What does hold of the order: a summary file written by
    [ostree_repo_regenerate_summary] holds a variant whose refs array is
    strictly increasing in ref name; without a collection ID of the
    repository itself, the array lists exactly the refs without remote
    part, in the [strcmp] order of their names; and its collection map,
    unless it is the entry that the caller passed in the additional
    metadata, has strictly increasing collection IDs and, in each entry,
    strictly increasing ref names. *)
Lemma regenerate_summary_sorted (self self' : OstreeRepo)
    (additional_metadata : option (list (string * GVariantValue))) :
  ostree_repo_regenerate_summary self additional_metadata
  = (self', GOk ()) →
  ∃ file refs metadata names,
    repo_dir self' !! "summary" = Some (Entry file)
    ∧ i_data file
      = g_variant_get_data (GV_tuple [GV_array refs; GV_vardict metadata])
    ∧ fstatat (repo_dir self') "summary.sig" = SysErr ENOENT
    ∧ summary_ref_names refs = Some names
    ∧ strictly_increasing names
    ∧ (collection_id self = None →
       ∀ listed,
         ostree_repo_list_refs self = GOk listed →
         names = filter is_local_refspec
                   (g_list_sort_strcmp (map_to_list listed).*1))
    ∧ (∀ v,
         vardict_lookup metadata OSTREE_SUMMARY_COLLECTION_MAP = Some v →
         sorted_collection_map v
         ∨ g_variant_dict_init additional_metadata
             !! OSTREE_SUMMARY_COLLECTION_MAP = Some v).
Proof.
  intros (self2 & summary & file & Hvariant & Hfile & Hdata & Hsig)
    %regenerate_summary_written.
  apply regenerate_summary_variant_sorted in Hvariant
    as (refs & metadata & names & -> & Hnames & Hsorted & Hlisted & Hmap).
  by exists file, refs, metadata, names.
Qed.

(** Without a ref of a collection other than the repository's own, the
    summary has the collection map of the additional metadata. *)
Lemma regenerate_summary_variant_keeps_collection_map
    (self self2 : OstreeRepo)
    (additional_metadata : option (list (string * GVariantValue)))
    (summary v : GVariantValue) :
  (∀ repo, ostree_repo_list_collection_refs repo = GOk ∅) →
  g_variant_dict_init additional_metadata !! OSTREE_SUMMARY_COLLECTION_MAP
  = Some v →
  regenerate_summary_variant self additional_metadata
  = (self2, GOk summary) →
  ∃ refs metadata,
    summary = GV_tuple [GV_array refs; GV_vardict metadata]
    ∧ vardict_lookup metadata OSTREE_SUMMARY_COLLECTION_MAP = Some v.
Proof.
  intros Hnone Hcaller.
  unfold regenerate_summary_variant, ostree_repo_get_collection_id.
  set (listing := match collection_id self with
                  | Some _ => _
                  | None => _
                  end).
  destruct listing as [self1 [rb| |]] eqn:Hlisting; try done.
  destruct (ostree_repo_list_static_delta_names self1) as [delta_names| |];
    try done; cbn [mbind GResult_bind].
  destruct (summary_static_deltas self1 delta_names ∅) as [deltas| |];
    try done; cbn [mbind GResult_bind].
  rewrite Hnone. unfold summary_collection_map.
  rewrite map_fold_empty, map_to_list_empty.
  cbn [fmap list_fmap]. unfold g_list_sort_strcmp.
  assert (merge_sort String.le (@nil string) = []) as -> by reflexivity.
  cbn [summary_add_collections]. intros [= <- <-].
  eexists _, _. split; [done|]. rewrite vardict_lookup_dict_end.
  unfold OSTREE_SUMMARY_COLLECTION_MAP, OSTREE_SUMMARY_COLLECTION_ID,
    OSTREE_SUMMARY_LAST_MODIFIED, OSTREE_SUMMARY_STATIC_DELTAS in *.
  destruct (collection_id self); rewrite ?lookup_insert_ne by done;
    case_bool_decide; by rewrite ?lookup_insert_ne by done.
Qed.

(** C7: the order of the collection map is not guaranteed.  When no ref
    belongs to a collection other than the repository's own, no map is
    built, and the entry [ostree.summary.collection-map] that the caller
    passed in the additional metadata is in the summary file that is
    written, as it was passed: with its collection IDs and refs in any
    order. *)
Theorem regenerate_summary_keeps_caller_collection_map
    (self self' : OstreeRepo)
    (additional_metadata : option (list (string * GVariantValue)))
    (v : GVariantValue) :
  (∀ repo, ostree_repo_list_collection_refs repo = GOk ∅) →
  g_variant_dict_init additional_metadata !! OSTREE_SUMMARY_COLLECTION_MAP
  = Some v →
  ostree_repo_regenerate_summary self additional_metadata
  = (self', GOk ()) →
  ∃ file refs metadata,
    repo_dir self' !! "summary" = Some (Entry file)
    ∧ i_data file
      = g_variant_get_data (GV_tuple [GV_array refs; GV_vardict metadata])
    ∧ vardict_lookup metadata OSTREE_SUMMARY_COLLECTION_MAP = Some v.
Proof.
  intros Hnone Hcaller
    (self2 & summary & file & Hvariant & Hfile & Hdata & Hsig)
    %regenerate_summary_written.
  eapply regenerate_summary_variant_keeps_collection_map in Hvariant
    as (refs & metadata & -> & Hmap); [|done..].
  by exists file, refs, metadata.
Qed.
End SummaryFacts.

(** * The properties on the example repositories *)

(** Scenario 3 of the spec.  A child without the remote answers with the
    parent's [url]; the child whose remote has no [url] does too, while
    [gpg-verify] is its own.  The list getter cascades alike, and where
    no remote of the chain has the key the default comes back. *)
Lemma remote_option_cascade_witness :
  _ostree_repo_remote_name_is_file "upstream" = false
  ∧ ostree_repo_get_remote_option Scenario.parse_string
      Scenario.plain_child "upstream" "url" None
    = GOk (Some "https://a/")
  ∧ ostree_repo_get_remote_option Scenario.parse_string
      Scenario.upstream_child "upstream" "url" None
    = GOk (Some "https://a/")
  ∧ ostree_repo_get_remote_list_option Scenario.parse_string_list
      Scenario.upstream_child "upstream" "url"
    = GOk (Some ["https://a/"])
  ∧ ostree_repo_get_remote_list_option Scenario.parse_string_list
      Scenario.plain_child "upstream" "gpg-verify"
    = GOk None
  ∧ ostree_repo_get_remote_boolean_option Scenario.parse_boolean
      Scenario.upstream_child "upstream" "gpg-verify" true
    = GOk false
  ∧ ostree_repo_get_remote_boolean_option Scenario.parse_boolean
      Scenario.plain_child "upstream" "gpg-verify" true
    = GOk true.
Proof.
  split; [reflexivity|].
  destruct (remote_option_cascade Scenario.parse_string
              Scenario.parse_string_list Scenario.parse_boolean
              Scenario.plain_child "upstream" "url" None true eq_refl)
    as (-> & _ & _).
  destruct (remote_option_cascade Scenario.parse_string
              Scenario.parse_string_list Scenario.parse_boolean
              Scenario.upstream_child "upstream" "url" None true eq_refl)
    as (-> & -> & _).
  destruct (remote_option_cascade Scenario.parse_string
              Scenario.parse_string_list Scenario.parse_boolean
              Scenario.plain_child "upstream" "gpg-verify" None true eq_refl)
    as (_ & -> & ->).
  destruct (remote_option_cascade Scenario.parse_string
              Scenario.parse_string_list Scenario.parse_boolean
              Scenario.upstream_child "upstream" "gpg-verify" None true
              eq_refl)
    as (_ & _ & ->).
  split_and!; vm_compute; reflexivity.
Defined.

Lemma remote_list_with_parent_never_returns_witness :
  parent_repo Scenario.upstream_child = Some Scenario.upstream_parent
  ∧ ostree_repo_remote_list 1000 Scenario.upstream_child = None.
Proof.
  split; [reflexivity|].
  apply (remote_list_with_parent_never_returns 1000 Scenario.upstream_child
           Scenario.upstream_parent).
  reflexivity.
Defined.

(** Without the parent, the list of the same registry is returned. *)
Lemma remote_list_without_parent_example :
  ostree_repo_remote_list 1 Scenario.upstream_parent
  = Some (Some ["upstream"], 1)
  ∧ ostree_repo_remote_list 1
      (Scenario.with_remotes Scenario.upstream_parent
         {["zeta" := Scenario.remote "zeta" ∅;
           "alpha" := Scenario.remote "alpha" ∅;
           "mid" := Scenario.remote "mid" ∅]})
    = Some (Some ["alpha"; "mid"; "zeta"], 3).
Proof. split; vm_compute; reflexivity. Qed.



(** The boundary of C8: 16384 bytes are read into a buffer, 16385 bytes
    are mapped. *)
Lemma load_variant_maps_above_16k_witness :
  (ostree_repo_load_variant (Scenario.with_commit_of_size 16384)
     OSTREE_OBJECT_TYPE_COMMIT Scenario.digest).2
  = GOk (Some (mkGVariant OSTREE_OBJECT_TYPE_COMMIT
                 (repeat Byte.x00 (Z.to_nat 16384)) HeapBuffer)).
Proof.
  destruct (load_variant_maps_above_16k (Scenario.with_commit_of_size 16384)
              OSTREE_OBJECT_TYPE_COMMIT Scenario.digest (Scenario.blob 16384))
    as ([t data backing] & -> & Htype & Hdata & Hheap & _);
    [vm_compute; reflexivity..|].
  cbn in Htype, Hdata, Hheap. rewrite Htype, Hdata, Hheap; [done|].
  unfold st_size. cbn. rewrite repeat_length. lia.
Defined.

Lemma load_variant_16385_is_mapped :
  (ostree_repo_load_variant (Scenario.with_commit_of_size 16385)
     OSTREE_OBJECT_TYPE_COMMIT Scenario.digest).2
  = GOk (Some (mkGVariant OSTREE_OBJECT_TYPE_COMMIT
                 (repeat Byte.x00 (Z.to_nat 16385)) MappedFile)).
Proof. vm_compute. reflexivity. Qed.

(** C3 as the spec words it does not hold: the repository is
    bare-user-only, the object is in its bare parent, and the load reports
    the owner and the extended attribute of the parent's file. *)
Lemma load_file_via_bare_parent_not_canonical :
  mode Scenario.user_only_child = OSTREE_REPO_MODE_BARE_USER_ONLY
  ∧ ostree_repo_load_file Scenario.no_archive_codec Scenario.user_only_child
      Scenario.digest true true true
    = GOk (mkLoadedFile
             (Some (String.list_byte_of_string "hello"))
             (Some (mkGFileInfo (Z.lor S_IFREG 0x1A4) 1000 1000 5 None))
             (Some [(String.list_byte_of_string "user.foo",
                     String.list_byte_of_string "bar")])).
Proof. split; vm_compute; reflexivity. Qed.

Lemma load_file_bare_user_only_canonical_witness :
  ostree_repo_load_file Scenario.no_archive_codec Scenario.user_only_alone
    Scenario.digest true true true
  = GOk (mkLoadedFile
           (Some (String.list_byte_of_string "hello"))
           (Some (mkGFileInfo (Z.lor S_IFREG 0x1A4) 0 0 5 None))
           (Some [])).
Proof.
  destruct (ostree_repo_load_file Scenario.no_archive_codec
              Scenario.user_only_alone Scenario.digest true true true)
    as [r| |] eqn:Hload; [|by vm_compute in Hload..].
  destruct (load_file_bare_user_only_canonical Scenario.no_archive_codec
              Scenario.user_only_alone Scenario.user_only_alone
              Scenario.digest true r)
    as (ino & info & xattrs & _ & Hinfo & Hxattrs & _ & Hcanonical & _);
    [vm_compute; reflexivity..|done|].
  vm_compute in Hload. by injection Hload as <-.
Defined.

(** A child of mode [BARE_USER_ONLY] of an archive repository that holds
    the object: the load stops at the assertion of the bare loader. *)
Lemma load_file_via_archive_parent_aborts :
  ostree_repo_load_file Scenario.no_archive_codec
    Scenario.user_only_child_of_archive Scenario.digest true true true
  = GAbort.
Proof. vm_compute; reflexivity. Qed.

(** Scenario 2 of the spec: the commit and its detached metadata are
    deleted and the tombstone is there afterwards. *)
Lemma delete_commit_unlinks_twin_and_writes_tombstone_witness :
  (ostree_repo_delete_object Scenario.get_boolean_with_default
     Scenario.write_metadata_trusted Scenario.with_tombstones
     OSTREE_OBJECT_TYPE_COMMIT Scenario.digest).2 = GOk ()
  ∧ objects_dir
      (ostree_repo_delete_object Scenario.get_boolean_with_default
         Scenario.write_metadata_trusted Scenario.with_tombstones
         OSTREE_OBJECT_TYPE_COMMIT Scenario.digest).1
    = {[Scenario.loose OSTREE_OBJECT_TYPE_TOMBSTONE_COMMIT
          OSTREE_REPO_MODE_BARE
        := Entry (Scenario.regular_file 0 0 [] [])]}.
Proof.
  destruct (delete_commit_unlinks_twin_and_writes_tombstone
              Scenario.get_boolean_with_default Scenario.write_metadata_trusted
              Scenario.with_tombstones Scenario.digest Scenario.stored_commit
              true)
    as (_ & _ & ->).
  - reflexivity.
  - vm_compute. reflexivity.
  - reflexivity.
  - right. eexists. split; vm_compute; reflexivity.
  - vm_compute. reflexivity.
  - split; vm_compute; reflexivity.
Defined.

Lemma delete_missing_commit_fails_after_unlinking_twin_witness :
  (ostree_repo_delete_object Scenario.get_boolean_with_default
     Scenario.write_metadata_trusted Scenario.with_orphan_commitmeta
     OSTREE_OBJECT_TYPE_COMMIT Scenario.digest).2
  = GErr G_IO_ERROR_NOT_FOUND
  ∧ objects_dir
      (ostree_repo_delete_object Scenario.get_boolean_with_default
         Scenario.write_metadata_trusted Scenario.with_orphan_commitmeta
         OSTREE_OBJECT_TYPE_COMMIT Scenario.digest).1 = ∅.
Proof.
  destruct (delete_missing_commit_fails_after_unlinking_twin
              Scenario.get_boolean_with_default Scenario.write_metadata_trusted
              Scenario.with_orphan_commitmeta Scenario.digest
              (Scenario.regular_file 0 0 [] []))
    as (self' & Hdeleted & Hdir & _); [vm_compute; reflexivity..|].
  rewrite Hdeleted. cbn. rewrite Hdir. split; vm_compute; reflexivity.
Defined.



(** C7 on a repository without refs, when the caller passes additional
    metadata with a collection map whose IDs are out of order: the call
    succeeds and the summary file holds that map, ["org.b"] before
    ["org.a"]. *)
Lemma regenerate_summary_keeps_caller_collection_map_witness :
  (ostree_repo_regenerate_summary (env := Scenario.summary_env ∅ ∅)
     Scenario.with_one_commit (Some Scenario.unsorted_collection_map)).2
  = GOk ()
  ∧ (∃ file refs metadata,
       repo_dir
         (ostree_repo_regenerate_summary (env := Scenario.summary_env ∅ ∅)
            Scenario.with_one_commit
            (Some Scenario.unsorted_collection_map)).1 !! "summary"
       = Some (Entry file)
       ∧ i_data file
         = Scenario.serialize_variant
             (GV_tuple [GV_array refs; GV_vardict metadata])
       ∧ vardict_lookup metadata OSTREE_SUMMARY_COLLECTION_MAP
         ≫= collection_map_names
         = Some [("org.b", []); ("org.a", [])])
  ∧ ¬ strictly_increasing ["org.b"; "org.a"].
Proof.
  set (env := Scenario.summary_env ∅ ∅).
  set (regenerated :=
         ostree_repo_regenerate_summary Scenario.with_one_commit
           (Some Scenario.unsorted_collection_map)).
  assert (regenerated.2 = GOk ()) as Hok by (vm_compute; reflexivity).
  split_and!; [done| |].
  - destruct (regenerate_summary_keeps_caller_collection_map (env := env)
                Scenario.with_one_commit regenerated.1
                (Some Scenario.unsorted_collection_map)
                (GV_array [GV_dict_entry "org.b" (GV_array []);
                           GV_dict_entry "org.a" (GV_array [])]))
      as (file & refs & metadata & Hfile & Hdata & Hmap).
    + done.
    + vm_compute. reflexivity.
    + rewrite <- Hok. apply surjective_pairing.
    + exists file, refs, metadata. split_and!; [done..|].
      by rewrite Hmap.
  - intros Hsorted. apply StronglySorted_inv in Hsorted as [_ Hall].
    apply Forall_cons in Hall as [[Hle _] _]. by vm_compute in Hle.
Defined.

(** Scenario 6 of the spec: refs [b] and [a] (and a remote ref, which is
    left out) give a summary that lists [a] before [b]. *)
Lemma regenerate_summary_sorted_witness :
  (ostree_repo_regenerate_summary
     (env := Scenario.summary_env Scenario.refs_b_a ∅)
     Scenario.with_one_commit None).2 = GOk ()
  ∧ ∃ file refs metadata,
      repo_dir
        (ostree_repo_regenerate_summary
           (env := Scenario.summary_env Scenario.refs_b_a ∅)
           Scenario.with_one_commit None).1 !! "summary"
      = Some (Entry file)
      ∧ i_data file
        = g_variant_get_data
            (SummaryEnv := Scenario.summary_env Scenario.refs_b_a ∅)
            (GV_tuple [GV_array refs; GV_vardict metadata])
      ∧ summary_ref_names refs = Some ["a"; "b"].
Proof.
  set (env := Scenario.summary_env Scenario.refs_b_a ∅).
  set (regenerated :=
         ostree_repo_regenerate_summary Scenario.with_one_commit None).
  assert (regenerated.2 = GOk ()) as Hok by (vm_compute; reflexivity).
  split; [done|].
  destruct (regenerate_summary_sorted (env := env) Scenario.with_one_commit
              regenerated.1 None)
    as (file & refs & metadata & names & Hfile & Hdata & _ & Hnames & _
        & Hlisted & _).
  { rewrite <- Hok. apply surjective_pairing. }
  exists file, refs, metadata. split_and!; [done..|].
  rewrite Hnames. f_equal.
  rewrite (Hlisted eq_refl Scenario.refs_b_a eq_refl).
  vm_compute. reflexivity.
Defined.

(** * More of the repository engine *)

(** ** Remotes registry: mutation and inheritance *)

Lemma nearest_remote_unfold (self : OstreeRepo) (name : string) :
  nearest_remote self name
  = match remotes self !! name with
    | Some remote => Some remote
    | None =>
        match parent_repo self with
        | Some parent => nearest_remote parent name
        | None => None
        end
    end.
Proof.
  unfold nearest_remote. rewrite repo_chain_unfold. cbn.
  destruct (remotes self !! name); [done|].
  by destruct (parent_repo self).
Qed.

(** X1: a remote added to the registry is the one a lookup of its name
    returns, whatever was registered under the name before; every other
    name is looked up as before, and the flag returned tells whether a
    remote of the name was replaced. *)
Theorem add_remote_then_get (self : OstreeRepo) (remote : OstreeRemote)
    (name : string) :
  _ostree_repo_get_remote (_ostree_repo_add_remote self remote).1 name
  = (if decide (name = remote_name remote) then GOk remote
     else _ostree_repo_get_remote self name)
  ∧ ((_ostree_repo_add_remote self remote).2 = true
     ↔ ∃ old, _ostree_repo_get_remote self (remote_name remote) = GOk old).
Proof.
  unfold _ostree_repo_add_remote, _ostree_repo_get_remote. cbn. split.
  - destruct (decide (name = remote_name remote)) as [->|Hne].
    + by rewrite lookup_insert_eq.
    + by rewrite lookup_insert_ne.
  - destruct (remotes self !! remote_name remote) as [old|] eqn:Hold.
    + rewrite bool_decide_false by done. naive_solver.
    + rewrite bool_decide_true by done. naive_solver.
Qed.

(** X2: a remote removed from the registry is not found afterwards, every
    other name is looked up as before, and the flag returned tells whether
    there was a remote of the name.  Removing a remote that was just added
    under a new name gives back the repository. *)
Theorem remove_remote_then_get (self : OstreeRepo) (remote : OstreeRemote)
    (name : string) :
  _ostree_repo_get_remote (_ostree_repo_remove_remote self remote).1 name
  = (if decide (name = remote_name remote) then GErr G_IO_ERROR_NOT_FOUND
     else _ostree_repo_get_remote self name)
  ∧ ((_ostree_repo_remove_remote self remote).2 = true
     ↔ ∃ old, _ostree_repo_get_remote self (remote_name remote) = GOk old)
  ∧ (_ostree_repo_get_remote self (remote_name remote)
     = GErr G_IO_ERROR_NOT_FOUND →
     _ostree_repo_remove_remote (_ostree_repo_add_remote self remote).1 remote
     = (self, true)).
Proof.
  unfold _ostree_repo_remove_remote, _ostree_repo_add_remote,
    _ostree_repo_get_remote.
  cbn. split_and!.
  - destruct (decide (name = remote_name remote)) as [->|Hne].
    + by rewrite lookup_delete_eq.
    + by rewrite lookup_delete_ne.
  - destruct (remotes self !! remote_name remote) as [old|] eqn:Hold.
    + rewrite bool_decide_true by done. naive_solver.
    + rewrite bool_decide_false by (by intros [? ?]). naive_solver.
  - destruct (remotes self !! remote_name remote) as [old|] eqn:Hold; [done|].
    intros _. rewrite lookup_insert_eq, bool_decide_true by done.
    rewrite delete_insert_eq, delete_id by done.
    by destruct self.
Qed.

Lemma get_remote_inherited_unknown (self : OstreeRepo) (name : string) :
  Forall (λ r, remotes r !! name = None) (repo_chain self) →
  _ostree_repo_get_remote_inherited self name = GErr G_IO_ERROR_NOT_FOUND.
Proof.
  induction self as [self Hparent|self parent Hparent IH]
    using OstreeRepo_chain_ind;
    rewrite repo_chain_unfold, Hparent, Forall_cons; intros [Hself Hrest];
    unfold_on_repo self _ostree_repo_get_remote_inherited;
    unfold _ostree_repo_get_remote; rewrite Hself, Hparent; [done|].
  by apply IH.
Qed.

(** X3: the inherited lookup returns the remote of the nearest repository of
    the parent chain that has one of the name, and fails with
    [G_IO_ERROR_NOT_FOUND] exactly when no repository of the chain has. *)
Theorem get_remote_inherited_nearest (self : OstreeRepo) (name : string) :
  _ostree_repo_get_remote_inherited self name
  = match nearest_remote self name with
    | Some remote => GOk remote
    | None => GErr G_IO_ERROR_NOT_FOUND
    end
  ∧ (nearest_remote self name = None
     ↔ Forall (λ r, remotes r !! name = None) (repo_chain self)).
Proof.
  induction self as [self Hparent|self parent Hparent [IH1 IH2]]
    using OstreeRepo_chain_ind;
    rewrite nearest_remote_unfold, repo_chain_unfold, Hparent;
    (split; [unfold_on_repo self _ostree_repo_get_remote_inherited;
             unfold _ostree_repo_get_remote; rewrite Hparent|]).
  - by destruct (remotes self !! name).
  - rewrite Forall_singleton. by destruct (remotes self !! name).
  - destruct (remotes self !! name); [done|]. apply IH1.
  - rewrite Forall_cons, <- IH2.
    destruct (remotes self !! name); naive_solver.
Qed.


Section RemoteOptionChainFacts.
Variable parse_string : string → option string.
Variable parse_string_list : string → option (list string).
Variable parse_boolean : string → option bool.

#[local] Abbreviation get_option := (ostree_repo_get_remote_option parse_string).
#[local] Abbreviation get_list_option :=
  (ostree_repo_get_remote_list_option parse_string_list).
#[local] Abbreviation get_boolean_option :=
  (ostree_repo_get_remote_boolean_option parse_boolean).

(** One call of a getter on a name that is not a [file://] URL. *)
Lemma get_option_step (self : OstreeRepo) (name key : string)
    (default_value : option string) :
  _ostree_repo_remote_name_is_file name = false →
  get_option self name key default_value
  = match remotes self !! name with
    | Some remote =>
        match g_key_file_get parse_string (remote_options remote)
                (remote_group remote) key with
        | GOk value => GOk (Some value)
        | GErr G_KEY_FILE_ERROR_KEY_NOT_FOUND =>
            match parent_repo self with
            | Some parent =>
                match get_option parent name key default_value with
                | GOk out_value => GOk out_value
                | _ => GOk default_value
                end
            | None => GOk default_value
            end
        | GErr temp_error => GErr temp_error
        | GAbort => GAbort
        end
    | None =>
        match parent_repo self with
        | Some parent => get_option parent name key default_value
        | None => GErr G_IO_ERROR_NOT_FOUND
        end
    end.
Proof.
  intros Hfile. unfold_on_repo self ostree_repo_get_remote_option.
  rewrite Hfile. unfold _ostree_repo_get_remote.
  by destruct (remotes self !! name).
Qed.

Lemma get_list_option_step (self : OstreeRepo) (name key : string) :
  _ostree_repo_remote_name_is_file name = false →
  get_list_option self name key
  = match remotes self !! name with
    | Some remote =>
        match g_key_file_get parse_string_list (remote_options remote)
                (remote_group remote) key with
        | GOk value => GOk (Some value)
        | GErr G_KEY_FILE_ERROR_KEY_NOT_FOUND =>
            match parent_repo self with
            | Some parent =>
                match get_list_option parent name key with
                | GOk out_value => GOk out_value
                | _ => GOk None
                end
            | None => GOk None
            end
        | GErr temp_error => GErr temp_error
        | GAbort => GAbort
        end
    | None =>
        match parent_repo self with
        | Some parent => get_list_option parent name key
        | None => GErr G_IO_ERROR_NOT_FOUND
        end
    end.
Proof.
  intros Hfile. unfold_on_repo self ostree_repo_get_remote_list_option.
  rewrite Hfile. unfold _ostree_repo_get_remote.
  destruct (remotes self !! name) as [remote|]; [|done].
  unfold g_key_file_get_string_list.
  by destruct (g_key_file_get _ _ _ _) as [|[]|].
Qed.

Lemma get_boolean_option_step (self : OstreeRepo) (name key : string)
    (default_value : bool) :
  _ostree_repo_remote_name_is_file name = false →
  get_boolean_option self name key default_value
  = match remotes self !! name with
    | Some remote =>
        match g_key_file_get parse_boolean (remote_options remote)
                (remote_group remote) key with
        | GOk value => GOk value
        | GErr G_KEY_FILE_ERROR_KEY_NOT_FOUND =>
            match parent_repo self with
            | Some parent =>
                match get_boolean_option parent name key default_value with
                | GOk out_value => GOk out_value
                | _ => GOk default_value
                end
            | None => GOk default_value
            end
        | GErr temp_error => GErr temp_error
        | GAbort => GAbort
        end
    | None =>
        match parent_repo self with
        | Some parent => get_boolean_option parent name key default_value
        | None => GErr G_IO_ERROR_NOT_FOUND
        end
    end.
Proof.
  intros Hfile. unfold_on_repo self ostree_repo_get_remote_boolean_option.
  rewrite Hfile. unfold _ostree_repo_get_remote.
  destruct (remotes self !! name) as [remote|]; [|done].
  unfold g_key_file_get_boolean.
  by destruct (g_key_file_get _ _ _ _) as [|[]|].
Qed.

(** X4: for a name that is not a [file://] URL and that no repository of the
    parent chain has a remote for, every getter fails with
    [G_IO_ERROR_NOT_FOUND]: no default is returned for an unknown
    remote. *)
Theorem unknown_remote_not_found
    (self : OstreeRepo) (name key : string)
    (default_value : option string) (default_boolean : bool) :
  _ostree_repo_remote_name_is_file name = false →
  Forall (λ r, remotes r !! name = None) (repo_chain self) →
  get_option self name key default_value = GErr G_IO_ERROR_NOT_FOUND
  ∧ get_list_option self name key = GErr G_IO_ERROR_NOT_FOUND
  ∧ get_boolean_option self name key default_boolean
    = GErr G_IO_ERROR_NOT_FOUND
  ∧ ostree_repo_remote_get_url parse_string self name
    = GErr G_IO_ERROR_NOT_FOUND
  ∧ ostree_repo_remote_get_gpg_verify parse_boolean self name
    = GErr G_IO_ERROR_NOT_FOUND
  ∧ ostree_repo_remote_get_gpg_verify_summary parse_boolean self name
    = GErr G_IO_ERROR_NOT_FOUND.
Proof.
  intros Hfile Hnone.
  assert (∀ key default_value default_boolean,
    get_option self name key default_value = GErr G_IO_ERROR_NOT_FOUND
    ∧ get_list_option self name key = GErr G_IO_ERROR_NOT_FOUND
    ∧ get_boolean_option self name key default_boolean
      = GErr G_IO_ERROR_NOT_FOUND) as Hgetters.
  { clear key default_value default_boolean.
    intros key default_value default_boolean.
    induction self as [self Hparent|self parent Hparent IH]
      using OstreeRepo_chain_ind;
      rewrite repo_chain_unfold, Hparent, Forall_cons in Hnone;
      destruct Hnone as [Hself Hrest];
      rewrite get_option_step, get_list_option_step, get_boolean_option_step,
        Hself, Hparent by done; [done|].
    by apply IH. }
  unfold ostree_repo_remote_get_url, ostree_repo_remote_get_gpg_verify,
    ostree_repo_remote_get_gpg_verify_summary.
  rewrite Hfile.
  destruct (Hgetters key default_value default_boolean) as (-> & -> & ->).
  destruct (Hgetters "url" None true) as (-> & _ & _).
  destruct (Hgetters "gpg-verify" None true) as (_ & _ & ->).
  destruct (Hgetters "gpg-verify-summary" None false) as (_ & _ & ->).
  done.
Qed.

(** X5: the nearest definition wins, at any depth.  When the repositories
    of the parent chain before [owner] have no remote of the name or a
    remote without the key, and the remote in [owner] has the key, each
    getter returns the value in [owner], decoded; the caller's default is
    not used and repositories after [owner] are not consulted. *)
Theorem remote_option_nearest_definition_wins
    (self owner : OstreeRepo) (before after : list OstreeRepo)
    (name key raw : string)
    (default_value : option string) (default_boolean : bool) :
  _ostree_repo_remote_name_is_file name = false →
  repo_chain self = before ++ owner :: after →
  Forall (remote_option_undefined name key) before →
  remote_option_lookup owner name key = Some (GOk raw) →
  (∀ value, parse_string raw = Some value →
     get_option self name key default_value = GOk (Some value))
  ∧ (∀ value, parse_string_list raw = Some value →
     get_list_option self name key = GOk (Some value))
  ∧ (∀ value, parse_boolean raw = Some value →
     get_boolean_option self name key default_boolean = GOk value).
Proof.
  intros Hfile Hchain Hbefore Howner.
  revert self Hchain.
  induction Hbefore as [|r before Hr Hbefore IH]; intros self Hchain;
    rewrite repo_chain_unfold in Hchain; cbn in Hchain;
    injection Hchain as <- Hchain;
    rewrite get_option_step, get_list_option_step, get_boolean_option_step
      by done.
  - unfold remote_option_lookup in Howner.
    destruct (remotes self !! name) as [remote|]; [|done].
    cbn in Howner. injection Howner as Howner.
    unfold g_key_file_get. rewrite Howner. cbn.
    split_and!; by intros value ->.
  - destruct (parent_repo self) as [parent|] eqn:Hparent;
      [|by destruct before].
    destruct (IH parent Hchain) as (IHs & IHl & IHb).
    unfold remote_option_undefined, remote_option_lookup in Hr.
    destruct (remotes self !! name) as [remote|]; cbn in Hr;
      [|by split_and!].
    destruct Hr as [|Hr]; [done|]. injection Hr as Hr.
    rewrite !g_key_file_get_key_not_found by done.
    split_and!; intros value Hvalue.
    + by rewrite (IHs value Hvalue).
    + by rewrite (IHl value Hvalue).
    + by rewrite (IHb value Hvalue).
Qed.
End RemoteOptionChainFacts.

(** ** Repository modes *)

(** X6: the mode names round-trip.  A string is read as a mode exactly when
    it is the name [ostree_repo_mode_to_string] gives that mode, or the
    legacy alias [archive] of [archive-z2]; every other string is refused. *)
Theorem mode_string_round_trip (mode : OstreeRepoMode) (s : string) :
  ostree_repo_mode_from_string s = GOk mode
  ↔ ostree_repo_mode_to_string mode = GOk s
    ∨ (s = "archive" ∧ mode = OSTREE_REPO_MODE_ARCHIVE_Z2).
Proof.
  split.
  - unfold ostree_repo_mode_from_string.
    repeat case_bool_decide; subst; cbn; intros [= <-]; auto.
  - intros [Hname|[-> ->]]; [|done].
    by destruct mode; injection Hname as <-.
Qed.

(** ** Object store: objects that are absent *)

Lemma first_hit_ENOENT (syscall : dir → string → sysres inode)
    (dirs : list dir) (path : string) :
  first_hit syscall dirs path = SysErr ENOENT
  ↔ Forall (λ d, syscall d path = SysErr ENOENT) dirs.
Proof.
  induction dirs as [|d dirs IH]; cbn; [by split|].
  rewrite Forall_cons, <- IH.
  destruct (syscall d path) as [|[]]; naive_solver.
Qed.

Lemma fstatat_openat_ENOENT (d : dir) (path : string) :
  fstatat d path = SysErr ENOENT → openat d path = SysErr ENOENT.
Proof.
  unfold fstatat, openat. by destruct (d !! path) as [[|[]]|].
Qed.

Lemma absent_in_both_orders (self : OstreeRepo) (path : string) :
  first_hit fstatat (stagedir_then_objects self) path = SysErr ENOENT →
  first_hit fstatat (objects_then_stagedir self) path = SysErr ENOENT
  ∧ first_hit openat (objects_then_stagedir self) path = SysErr ENOENT.
Proof.
  rewrite !first_hit_ENOENT.
  unfold stagedir_then_objects, objects_then_stagedir.
  destruct (commit_stagedir self) as [stagedir|];
    rewrite ?Forall_cons, ?Forall_nil;
    naive_solver eauto using fstatat_openat_ENOENT.
Qed.

Lemma has_object_false_inv
    (self : OstreeRepo) (objtype : OstreeObjectType) (checksum : string) :
  ostree_repo_has_object self objtype checksum = GOk false →
  first_hit fstatat (stagedir_then_objects self)
    (_ostree_loose_path checksum objtype (mode self)) = SysErr ENOENT
  ∧ match parent_repo self with
    | Some parent => ostree_repo_has_object parent objtype checksum = GOk false
    | None => True
    end.
Proof.
  unfold_on_repo self ostree_repo_has_object.
  rewrite has_loose_object_stagedir_first.
  destruct (first_hit fstatat _ _) as [ino|[]]; cbn; try done.
  by destruct (parent_repo self).
Qed.

(** A metadata load that the cache does not answer, for any choice of
    out-pointers: the objects directory, then the staging directory, then
    [ostree_repo_load_variant] on the parent. *)
Lemma load_metadata_internal_objects_first
    (self : OstreeRepo) (objtype : OstreeObjectType) (sha256 : string)
    (error_if_not_found want_variant want_stream want_size : bool) :
  OSTREE_OBJECT_TYPE_IS_META objtype = true →
  (want_variant && negb want_stream = true →
   dirmeta_cache_lookup self objtype sha256 = None) →
  (load_metadata_internal self objtype sha256
     error_if_not_found want_variant want_stream want_size).2
  = match first_hit openat (objects_then_stagedir self)
            (_ostree_loose_path sha256 objtype (mode self)) with
    | SysOk fd =>
        GOk (if want_variant
             then mkMetadataOut (Some (load_variant_from_fd objtype fd)) None
                    (if want_size then Some (st_size fd) else None)
             else mkMetadataOut None
                    (if want_stream then Some (i_data fd) else None)
                    (if want_size then Some (st_size fd) else None))
    | SysErr ENOENT =>
        match parent_repo self with
        | Some parent =>
            (λ out, mkMetadataOut
                      (if want_variant then md_variant out else None)
                      None None)
            <$> (load_metadata_internal parent objtype sha256
                   true true false false).2
        | None =>
            if error_if_not_found then GErr G_IO_ERROR_NOT_FOUND
            else GOk (mkMetadataOut None None None)
        end
    | SysErr e => glnx_throw_errno e
    end.
Proof.
  intros Hmeta Hcache.
  unfold_on_repo self load_metadata_internal.
  rewrite Hmeta. cbn [negb].
  unfold dirmeta_cache_lookup in Hcache.
  assert ((if bool_decide (objtype = OSTREE_OBJECT_TYPE_DIR_META)
              && want_variant && negb want_stream
           then dirmeta_cache self ≫= λ cache, cache !! sha256
           else None) = None) as ->.
  { destruct (bool_decide (objtype = OSTREE_OBJECT_TYPE_DIR_META)); [|done].
    cbn [andb]. destruct (want_variant && negb want_stream); [|done].
    by rewrite Hcache. }
  unfold objects_then_stagedir, ot_openat_ignore_enoent.
  destruct (commit_stagedir self) as [stagedir|]; cbn [first_hit];
    (destruct (openat (objects_dir self) _) as [fd|[]]; try done);
    try (by destruct want_variant).
  - destruct (openat stagedir _) as [fd|[]]; try done;
      try (by destruct want_variant).
    destruct (parent_repo self) as [parent|];
      [|by destruct error_if_not_found].
    by destruct (load_metadata_internal parent _ _ _ _ _ _) as [? [| |]].
  - destruct (parent_repo self) as [parent|];
      [|by destruct error_if_not_found].
    by destruct (load_metadata_internal parent _ _ _ _ _ _) as [? [| |]].
Qed.

Lemma absent_metadata_load_variant
    (self : OstreeRepo) (objtype : OstreeObjectType) (sha256 : string) :
  OSTREE_OBJECT_TYPE_IS_META objtype = true →
  Forall (λ r, dirmeta_cache_lookup r objtype sha256 = None)
    (repo_chain self) →
  ostree_repo_has_object self objtype sha256 = GOk false →
  (ostree_repo_load_variant self objtype sha256).2
  = GErr G_IO_ERROR_NOT_FOUND.
Proof.
  intros Hmeta Hcache Habsent.
  induction self as [self Hparent|self parent Hparent IH]
    using OstreeRepo_chain_ind;
    rewrite repo_chain_unfold, Hparent, Forall_cons in Hcache;
    destruct Hcache as [Hself Hrest];
    apply has_object_false_inv in Habsent as [Hmiss Hup];
    apply absent_in_both_orders in Hmiss as [_ Hmiss];
    rewrite load_variant_objects_first, Hmiss, Hparent by done; [done|].
  rewrite Hparent in Hup. by apply IH.
Qed.

(** X7: a metadata object that [ostree_repo_has_object] reports absent, and
    that no directory-metadata cache of the parent chain holds, is not
    loaded: [ostree_repo_load_variant] fails with [G_IO_ERROR_NOT_FOUND].
    [ostree_repo_load_variant_if_exists] succeeds with [NULL] only in a
    repository without a parent; with a parent it fails with
    [G_IO_ERROR_NOT_FOUND] too, since the parent is asked with
    [ostree_repo_load_variant]. *)
Theorem absent_metadata_is_not_loaded
    (self : OstreeRepo) (objtype : OstreeObjectType) (sha256 : string) :
  OSTREE_OBJECT_TYPE_IS_META objtype = true →
  Forall (λ r, dirmeta_cache_lookup r objtype sha256 = None)
    (repo_chain self) →
  ostree_repo_has_object self objtype sha256 = GOk false →
  (ostree_repo_load_variant self objtype sha256).2
  = GErr G_IO_ERROR_NOT_FOUND
  ∧ (ostree_repo_load_variant_if_exists self objtype sha256).2
    = match parent_repo self with
      | Some _ => GErr G_IO_ERROR_NOT_FOUND
      | None => GOk None
      end.
Proof.
  intros Hmeta Hcache Habsent.
  split; [by apply absent_metadata_load_variant|].
  rewrite repo_chain_unfold, Forall_cons in Hcache.
  destruct Hcache as [Hself Hrest].
  apply has_object_false_inv in Habsent as [Hmiss Hup].
  apply absent_in_both_orders in Hmiss as [_ Hmiss].
  unfold ostree_repo_load_variant_if_exists.
  pose proof (load_metadata_internal_objects_first self objtype sha256
                false true false false Hmeta (λ _, Hself)) as Hstep.
  rewrite Hmiss in Hstep.
  destruct (load_metadata_internal self _ _ _ _ _ _) as [self' r].
  cbn in Hstep |- *. subst r.
  destruct (parent_repo self) as [parent|] eqn:Hparent; [|done].
  pose proof (absent_metadata_load_variant parent objtype sha256
                Hmeta Hrest Hup) as Hparent_load.
  unfold ostree_repo_load_variant in Hparent_load.
  destruct (load_metadata_internal parent _ _ _ _ _ _) as [parent' [| |]];
    by cbn in Hparent_load |- *.
Qed.

Section AbsentContentFacts.
Variable content_stream_parse :
  bytes → Z → GResult (option bytes * GFileInfo * list (bytes * bytes)).

(** X8: a content object that [ostree_repo_has_object] reports absent is
    not loaded, whatever the modes of the repositories of the parent chain
    and whichever parts are asked for: [_ostree_repo_load_file_bare] and
    [ostree_repo_load_file] fail with [G_IO_ERROR_NOT_FOUND]. *)
Theorem absent_content_is_not_loaded
    (self : OstreeRepo) (checksum : string)
    (want_fd want_stbuf want_symlink want_xattrs : bool)
    (want_input want_file_info : bool) :
  ostree_repo_has_object self OSTREE_OBJECT_TYPE_FILE checksum = GOk false →
  _ostree_repo_load_file_bare self checksum
    want_fd want_stbuf want_symlink want_xattrs
  = GErr G_IO_ERROR_NOT_FOUND
  ∧ ostree_repo_load_file content_stream_parse self checksum
      want_input want_file_info want_xattrs
    = GErr G_IO_ERROR_NOT_FOUND.
Proof.
  revert want_fd want_stbuf want_symlink want_xattrs
    want_input want_file_info.
  induction self as [self Hparent|self parent Hparent IH]
    using OstreeRepo_chain_ind;
    intros want_fd want_stbuf want_symlink want_xattrs
      want_input want_file_info
      [Hmiss Hup]%has_object_false_inv;
    apply absent_in_both_orders in Hmiss as [Hstat Hopen];
    rewrite Hparent in Hup.
  all: assert (∀ want_fd want_stbuf want_symlink want_xattrs,
    _ostree_repo_load_file_bare self checksum
      want_fd want_stbuf want_symlink want_xattrs
    = GErr G_IO_ERROR_NOT_FOUND) as Hbare.
  1, 3: intros wfd wst wsy wxa;
    pose proof (load_file_bare_objects_first self checksum wfd wst wsy wxa)
      as Hstep; cbn zeta in Hstep; rewrite Hstat, Hparent in Hstep;
    rewrite Hstep;
    first [done|by apply (IH wfd wst wsy wxa false false Hup)].
  all: split; [apply Hbare|].
  all: unfold_on_repo self ostree_repo_load_file.
  all: destruct (mode self) eqn:Hmode; try (by rewrite Hbare).
  all: unfold repo_load_file_archive, ot_openat_ignore_enoent.
  all: rewrite Hmode, Hparent.
  all: apply first_hit_ENOENT in Hopen.
  all: unfold objects_then_stagedir in Hopen.
  all: destruct (commit_stagedir self) as [stagedir|].
  all: rewrite ?Forall_cons in Hopen.
  all: destruct Hopen as (Hobjects & Hrest).
  all: rewrite Hobjects; cbn.
  all: try (destruct Hrest as [-> _]; cbn).
  all: try done.
  all: by apply (IH false false false want_xattrs).
Qed.
End AbsentContentFacts.

(** ** Object store: storage size *)

(** X9: the storage size is asked of the repository's own directories
    only.  For an object that is in neither of them and that a parent
    repository has, [ostree_repo_has_object] answers [TRUE] and
    [ostree_repo_query_object_storage_size] fails with
    [G_IO_ERROR_NOT_FOUND]. *)
Theorem storage_size_does_not_ask_parent
    (self parent : OstreeRepo) (objtype : OstreeObjectType)
    (sha256 : string) :
  parent_repo self = Some parent →
  first_hit fstatat (stagedir_then_objects self)
    (_ostree_loose_path sha256 objtype (mode self)) = SysErr ENOENT →
  ostree_repo_has_object parent objtype sha256 = GOk true →
  ostree_repo_has_object self objtype sha256 = GOk true
  ∧ ostree_repo_query_object_storage_size self objtype sha256
    = GErr G_IO_ERROR_NOT_FOUND.
Proof.
  intros Hparent Hmiss Hup. split.
  - by rewrite has_object_cascade, Hparent.
  - apply first_hit_ENOENT in Hmiss.
    unfold stagedir_then_objects in Hmiss.
    unfold ostree_repo_query_object_storage_size.
    destruct (commit_stagedir self) as [stagedir|];
      rewrite ?Forall_cons in Hmiss.
    + destruct Hmiss as (Hstage & Hobjects & _). by rewrite Hobjects, Hstage.
    + destruct Hmiss as (Hobjects & _). by rewrite Hobjects.
Qed.

(** ** Object store: streams and commit state *)

Section LoadObjectStreamFacts.
Variable content_stream_parse :
  bytes → Z → GResult (option bytes * GFileInfo * list (bytes * bytes)).
Variable raw_file_to_content_stream :
  option bytes → option GFileInfo → option (list (bytes * bytes)) →
  GResult (bytes * Z).

#[local] Abbreviation load_object_stream :=
  (ostree_repo_load_object_stream content_stream_parse
     raw_file_to_content_stream).

End LoadObjectStreamFacts.

(** X11: the state of a commit is read in the repository's own [state/]
    directory, and only there: the marker of a parent repository is not
    looked at when the commit is loaded from the parent.  Without
    [out_variant] the commit object is not looked for at all, so the state
    of a commit that is nowhere is reported too. *)
Theorem load_commit_state_is_local
    (self : OstreeRepo) (checksum : string) (want_variant : bool) :
  (ostree_repo_load_commit self checksum want_variant true).2
  = (out_variant ←
       (if want_variant
        then (ostree_repo_load_variant self OSTREE_OBJECT_TYPE_COMMIT
                checksum).2
        else GOk None);
     match fstatat_follow (repo_dir self)
             (_ostree_get_commitpartial_path checksum) with
     | SysOk _ => GOk (out_variant, Some OSTREE_REPO_COMMIT_STATE_PARTIAL)
     | SysErr ENOENT => GOk (out_variant, Some 0%Z)
     | SysErr e => glnx_throw_errno e
     end).
Proof.
  unfold ostree_repo_load_commit, ostree_repo_load_variant.
  destruct want_variant.
  - pose proof (load_metadata_internal_state self OSTREE_OBJECT_TYPE_COMMIT
                  checksum true true false false) as Hstate.
    destruct (load_metadata_internal self _ _ _ _ _ _) as [self' r].
    cbn in Hstate. rewrite Hstate by done.
    destruct r as [out| |]; cbn; try done.
    by destruct (fstatat_follow _ _) as [|[]].
  - cbn. by destruct (fstatat_follow _ _) as [|[]].
Qed.

(** ** Directory-metadata cache: references *)

(** X12: the cache exists exactly while it is referenced, as long as the
    count does not wrap.  If the count, a [guint], is zero exactly when
    there is no cache, then [_ostree_repo_memory_cache_ref_init] gives a
    handle with a cache, which keeps what a cache already held; below
    [G_MAXUINT] the count afterwards is positive, but at [G_MAXUINT] it
    wraps to zero although the cache is there.
    [_ostree_repo_memory_cache_ref_destroy] of a reference that was taken
    keeps the count zero exactly when there is no cache; with no reference
    taken the count wraps to [G_MAXUINT].  Releasing a reference right
    after taking it gives back the handle and the count. *)
Theorem memory_cache_ref_count_consistent (repo : OstreeRepo) (count : Z) :
  (0 ≤ count ≤ G_MAXUINT)%Z →
  (count = 0%Z ↔ dirmeta_cache repo = None) →
  let taken := _ostree_repo_memory_cache_ref_init repo count in
  let released := _ostree_repo_memory_cache_ref_destroy repo count in
  (is_Some (dirmeta_cache taken.1)
   ∧ (∀ cache, dirmeta_cache repo = Some cache →
               dirmeta_cache taken.1 = Some cache)
   ∧ (if bool_decide (count = G_MAXUINT)
      then taken.2 = 0%Z
      else taken.2 = (count + 1)%Z ∧ (0 < taken.2 ≤ G_MAXUINT)%Z))
  ∧ (if bool_decide (count = 0%Z)
     then released.2 = G_MAXUINT
     else released.2 = (count - 1)%Z
          ∧ (released.2 = 0%Z ↔ dirmeta_cache released.1 = None))
  ∧ _ostree_repo_memory_cache_ref_destroy taken.1 taken.2 = (repo, count).
Proof.
  intros Hcount Hconsistent. cbn zeta.
  unfold _ostree_repo_memory_cache_ref_init,
    _ostree_repo_memory_cache_ref_destroy, G_MAXUINT in *.
  cbn beta iota zeta delta [fst snd]. split_and!.
  - destruct (dirmeta_cache repo) eqn:Hcache; [by rewrite Hcache|].
    by destruct repo.
  - by intros cache Hcache; rewrite Hcache.
  - case_bool_decide as Hmax; [by subst|].
    rewrite Z.mod_small by lia. lia.
  - case_bool_decide as Hzero; [by subst|].
    rewrite Z.mod_small by lia. split; [done|].
    case_bool_decide as Hlast; [by destruct repo; cbn; split|].
    split; [done|]. intros Hcleared.
    apply Hconsistent in Hcleared. lia.
  - assert (((count + 1) mod (4294967295 + 1) - 1) mod (4294967295 + 1)
            = count)%Z as ->.
    { destruct (decide (count = 4294967295%Z)) as [->|Hmax]; [done|].
      rewrite (Z.mod_small (count + 1)) by lia.
      rewrite Z.mod_small by lia. lia. }
    case_bool_decide as Hzero.
    + apply Hconsistent in Hzero as Hnone. rewrite Hnone.
      destruct repo; cbn in *. by subst.
    + destruct (dirmeta_cache repo) eqn:Hcache; [done|].
      by destruct Hzero; apply Hconsistent.
Qed.

(** ** Object store: deletion, existence and the cache *)

Section DeleteObjectMoreFacts.
Variable get_boolean_with_default :
  GKeyFile → string → string → bool → GResult bool.
Variable write_metadata_trusted :
  OstreeRepo → OstreeObjectType → string → GVariantValue →
  OstreeRepo * GResult unit.

#[local] Abbreviation delete_object' :=
  (ostree_repo_delete_object get_boolean_with_default write_metadata_trusted).

Lemma delete_object_not_commit
    (self : OstreeRepo) (objtype : OstreeObjectType) (sha256 : string) :
  objtype ≠ OSTREE_OBJECT_TYPE_COMMIT →
  delete_object' self objtype sha256
  = let '(d, unlinked) :=
      unlinkat (objects_dir self)
        (_ostree_loose_path sha256 objtype (mode self)) in
    (set_objects_dir self d,
     match unlinked with
     | SysOk _ => GOk ()
     | SysErr e => glnx_throw_errno e
     end).
Proof.
  intros Htype. unfold ostree_repo_delete_object.
  rewrite !bool_decide_false by done.
  by destruct (unlinkat _ _) as [d [|]].
Qed.

Lemma fstatat_delete (d : dir) (path : string) :
  fstatat (delete path d) path = SysErr ENOENT.
Proof. unfold fstatat. by rewrite lookup_delete_eq. Qed.

(** X13: deleting an object other than a commit whose loose file is in
    [objects/] succeeds and removes that one path: every other path of the
    directory, and everything else in the handle, is as before.  In a
    repository without an open transaction and without a parent the object
    is then reported absent.  If the loose path leads to a directory,
    nothing is removed: the call fails with the error of [EISDIR] and the
    repository is as before. *)
Theorem delete_object_removes_that_path
    (self : OstreeRepo) (objtype : OstreeObjectType) (sha256 : string)
    (ino : inode) :
  let path := _ostree_loose_path sha256 objtype (mode self) in
  objtype ≠ OSTREE_OBJECT_TYPE_COMMIT →
  fstatat (objects_dir self) path = SysOk ino →
  if S_ISDIR (st_mode ino)
  then delete_object' self objtype sha256 = (self, glnx_throw_errno EISDIR)
  else
    delete_object' self objtype sha256
    = (set_objects_dir self (delete path (objects_dir self)), GOk ())
    ∧ (∀ other, other ≠ path →
         objects_dir (delete_object' self objtype sha256).1 !! other
         = objects_dir self !! other)
    ∧ (commit_stagedir self = None → parent_repo self = None →
       ostree_repo_has_object (delete_object' self objtype sha256).1
         objtype sha256 = GOk false).
Proof.
  intros path Htype Hino%fstatat_SysOk.
  rewrite delete_object_not_commit by done. fold path.
  unfold unlinkat. rewrite Hino.
  destruct (S_ISDIR (st_mode ino)); [by rewrite set_objects_dir_same|].
  cbn [fst snd]. split_and!; [done| |].
  - intros other Hother. cbn. by rewrite lookup_delete_ne.
  - intros Hstage Hparent.
    rewrite has_object_cascade; [cbn; by rewrite Hparent|].
    unfold stagedir_then_objects; cbn. rewrite Hstage. cbn.
    fold path. by rewrite fstatat_delete.
Qed.

(** X14: deletion reaches [objects/] only.  An object other than a commit
    whose loose file is not there is not deleted: the call fails with
    [G_IO_ERROR_NOT_FOUND] and leaves the repository as it was, also when
    the object is in the staging directory or in a parent repository, where
    [ostree_repo_has_object] finds it. *)
Theorem delete_object_outside_objects_dir
    (self : OstreeRepo) (objtype : OstreeObjectType) (sha256 : string) :
  objtype ≠ OSTREE_OBJECT_TYPE_COMMIT →
  fstatat (objects_dir self)
    (_ostree_loose_path sha256 objtype (mode self)) = SysErr ENOENT →
  delete_object' self objtype sha256 = (self, GErr G_IO_ERROR_NOT_FOUND).
Proof.
  intros Htype Hmiss.
  rewrite delete_object_not_commit by done.
  unfold unlinkat. unfold fstatat in Hmiss.
  destruct (objects_dir self !! _) as [[|e]|] eqn:Hpath; try done.
  - injection Hmiss as ->. by rewrite set_objects_dir_same.
  - by rewrite set_objects_dir_same.
Qed.

Lemma openat_SysOk (d : dir) (path : string) (fd : inode) :
  openat d path = SysOk fd → d !! path = Some (Entry fd).
Proof.
  unfold openat. destruct (d !! path) as [[i|]|]; try done.
  destruct (S_ISREG _); [by intros [= ->]|]. by destruct (S_ISLNK _).
Qed.

Lemma S_ISREG_not_S_ISDIR (m : Z) : S_ISREG m = true → S_ISDIR m = false.
Proof.
  unfold S_ISREG, S_ISDIR. intros Hreg%bool_decide_eq_true.
  apply bool_decide_eq_false. by rewrite Hreg.
Qed.

(** What opens is a regular file, and no directory. *)
Lemma openat_SysOk_file (d : dir) (path : string) (fd : inode) :
  openat d path = SysOk fd → S_ISDIR (st_mode fd) = false.
Proof.
  unfold openat. destruct (d !! path) as [[i|]|]; try done.
  destruct (S_ISREG _) eqn:Hreg; [|by destruct (S_ISLNK _)].
  intros [= <-]. by apply S_ISREG_not_S_ISDIR.
Qed.

(** A load of a [DIR_META] object that the cache does not hold and
    [objects/] has fills the cache of the handle. *)
Lemma load_variant_fills_cache
    (self : OstreeRepo) (sha256 : string) (fd : inode)
    (cache : gmap string GVariant) :
  dirmeta_cache self = Some cache →
  cache !! sha256 = None →
  openat (objects_dir self)
    (_ostree_loose_path sha256 OSTREE_OBJECT_TYPE_DIR_META (mode self))
  = SysOk fd →
  ostree_repo_load_variant self OSTREE_OBJECT_TYPE_DIR_META sha256
  = (set_dirmeta_cache self
       (Some (<[sha256 := load_variant_from_fd OSTREE_OBJECT_TYPE_DIR_META fd]>
                cache)),
     GOk (Some (load_variant_from_fd OSTREE_OBJECT_TYPE_DIR_META fd))).
Proof.
  intros Hcache Hmiss Hfd. unfold ostree_repo_load_variant.
  unfold_on_repo self load_metadata_internal.
  cbn [OSTREE_OBJECT_TYPE_IS_META negb andb bool_decide decide_rel].
  rewrite !bool_decide_true by done.
  cbn [negb andb]. rewrite Hcache. cbn [mbind option_bind].
  rewrite Hmiss. unfold ot_openat_ignore_enoent. by rewrite Hfd.
Qed.

(** A load of a [DIR_META] object that the cache holds is answered from
    the cache. *)
Lemma load_variant_from_cache
    (self : OstreeRepo) (sha256 : string) (hit : GVariant) :
  dirmeta_cache_lookup self OSTREE_OBJECT_TYPE_DIR_META sha256 = Some hit →
  ostree_repo_load_variant self OSTREE_OBJECT_TYPE_DIR_META sha256
  = (self, GOk (Some hit)).
Proof.
  unfold dirmeta_cache_lookup. rewrite bool_decide_true by done.
  intros Hhit. unfold ostree_repo_load_variant.
  unfold_on_repo self load_metadata_internal.
  rewrite !bool_decide_true by done.
  cbn [negb andb]. by rewrite Hhit.
Qed.

(** X15: the directory-metadata cache outlives the object.  With the cache
    enabled, loading a [DIR_META] object found in [objects/] returns the
    variant of the file and remembers it; after the object is deleted, a
    load from the handle still succeeds with that variant, though in a
    repository without an open transaction and without a parent
    [ostree_repo_has_object] now reports the object absent. *)
Theorem dirmeta_cache_outlives_object
    (self : OstreeRepo) (sha256 : string) (fd : inode)
    (cache : gmap string GVariant) :
  let path :=
    _ostree_loose_path sha256 OSTREE_OBJECT_TYPE_DIR_META (mode self) in
  let loaded := ostree_repo_load_variant self OSTREE_OBJECT_TYPE_DIR_META
                  sha256 in
  let deleted := delete_object' loaded.1 OSTREE_OBJECT_TYPE_DIR_META sha256 in
  dirmeta_cache self = Some cache →
  cache !! sha256 = None →
  openat (objects_dir self) path = SysOk fd →
  loaded.2
  = GOk (Some (load_variant_from_fd OSTREE_OBJECT_TYPE_DIR_META fd))
  ∧ deleted.2 = GOk ()
  ∧ (ostree_repo_load_variant deleted.1 OSTREE_OBJECT_TYPE_DIR_META sha256).2
    = loaded.2
  ∧ (commit_stagedir self = None → parent_repo self = None →
     ostree_repo_has_object deleted.1 OSTREE_OBJECT_TYPE_DIR_META sha256
     = GOk false).
Proof.
  intros path loaded deleted Hcache Hmiss Hfd.
  subst deleted loaded.
  rewrite (load_variant_fills_cache self sha256 fd cache) by done.
  cbn [fst snd].
  rewrite delete_object_not_commit by done.
  pose proof (openat_SysOk_file _ _ _ Hfd) as Hfile.
  apply openat_SysOk in Hfd.
  unfold unlinkat. cbn. fold path. rewrite Hfd, Hfile. cbn [fst snd].
  split_and!; [done..| |].
  - erewrite load_variant_from_cache; [done|].
    unfold dirmeta_cache_lookup. cbn. by rewrite lookup_insert_eq.
  - intros Hstage Hparent.
    rewrite has_object_cascade; [cbn; by rewrite Hparent|].
    unfold stagedir_then_objects; cbn. rewrite Hstage. cbn.
    fold path. by rewrite fstatat_delete.
Qed.
End DeleteObjectMoreFacts.

(** ** Signature engine: commits without signatures *)

Section VerifyCommitFacts.
Context `{engine : GpgEngine}.

(** X16: whatever the OpenPGP engine, the verification of a commit that
    loads fails with [G_IO_ERROR_NOT_FOUND], before any keyring is added or
    any signature checked, when the detached metadata holds no
    [ostree.gpgsigs] array (or there is no detached metadata), and when a
    remote is named that no repository of the parent chain has. *)
Theorem unsigned_commit_is_not_verified
    (self : OstreeRepo) (commit_checksum : string) (commit : GVariant)
    (metadata : option (list (string * GVariantValue)))
    (remote_name : RemoteSelector) (keyringdir extra_keyring : option string) :
  (ostree_repo_load_variant self OSTREE_OBJECT_TYPE_COMMIT
     commit_checksum).2 = GOk (Some commit) →
  ostree_repo_read_commit_detached_metadata self commit_checksum
  = GOk metadata →
  lookup_gpgsigs metadata = None
  ∨ (∃ name, remote_name = NAMED_REMOTE name
             ∧ Forall (λ r, remotes r !! name = None) (repo_chain self)) →
  _ostree_repo_verify_commit_internal self commit_checksum remote_name
    keyringdir extra_keyring
  = (self, GErr G_IO_ERROR_NOT_FOUND).
Proof.
  intros Hcommit Hmetadata Hunsigned.
  unfold _ostree_repo_verify_commit_internal.
  pose proof (load_variant_state self OSTREE_OBJECT_TYPE_COMMIT
                commit_checksum) as Hstate.
  destruct (ostree_repo_load_variant self _ _) as [self1 loaded].
  cbn in Hcommit, Hstate. rewrite Hstate in * by done. subst loaded.
  rewrite Hmetadata. f_equal.
  unfold _ostree_repo_gpg_verify_with_metadata.
  destruct (lookup_gpgsigs metadata) as [signaturedata|]; [|done].
  destruct Hunsigned as [|(name & -> & Hunknown)]; [done|].
  unfold _ostree_repo_gpg_verify_data_internal.
  by rewrite get_remote_inherited_unknown.
Qed.
End VerifyCommitFacts.

(** ** Remotes registry: loading from key files *)

Lemma string_app_assoc (s1 s2 s3 : string) :
  (s1 +:+ s2) +:+ s3 = s1 +:+ (s2 +:+ s3).
Proof.
  induction s1 as [|a s1 IH]; [done|].
  change (String a ((s1 +:+ s2) +:+ s3) = String a (s1 +:+ (s2 +:+ s3))).
  by rewrite IH.
Qed.

Lemma string_strip_prefix_app (prefix s rest : string) :
  string_strip_prefix prefix s = Some rest ↔ s = prefix +:+ rest.
Proof.
  revert s. induction prefix as [|a prefix IH]; intros s.
  - change (EmptyString +:+ rest) with rest. cbn. naive_solver.
  - change (String a prefix +:+ rest) with (String a (prefix +:+ rest)).
    destruct s as [|b s]; cbn; [done|].
    destruct (Ascii.eqb_spec a b) as [->|Hne].
    + rewrite IH. naive_solver.
    + naive_solver.
Qed.

Lemma string_strip_last_app (c : Ascii.ascii) (s name : string) :
  string_strip_last c s = Some name ↔ s = name +:+ String c EmptyString.
Proof.
  revert name. induction s as [|a s IH]; intros name.
  - cbn. split; [done|]. by destruct name.
  - cbn [string_strip_last]. destruct s as [|b s].
    + destruct (Ascii.eqb_spec a c) as [->|Hne].
      * split; [by intros [= <-]|].
        destruct name as [|a' [|]]; intros [=]; by subst.
      * split; [done|].
        destruct name as [|a' [|]]; intros [=]; by subst.
    + destruct (string_strip_last c (String b s)) as [name'|].
      * pose proof (proj1 (IH name') eq_refl) as Hlast.
        cbn. rewrite Hlast. split; [by intros [= <-]|].
        destruct name as [|a' name]; [by destruct name'|].
        change (String a' name +:+ String c EmptyString)
          with (String a' (name +:+ String c EmptyString)).
        intros [= <- Heq]. rewrite <- Hlast in Heq.
        apply IH in Heq. by injection Heq as ->.

      * cbn. split; [done|].
        destruct name as [|a' name].
        { change (EmptyString +:+ String c EmptyString)
            with (String c EmptyString). done. }
        change (String a' name +:+ String c EmptyString)
          with (String a' (name +:+ String c EmptyString)).
        intros [= <- Heq]. by apply IH in Heq.
Qed.

Lemma remote_new_from_keyfile_inv (keyfile : GKeyFile) (group : string)
    (remote : OstreeRemote) :
  ostree_remote_new_from_keyfile keyfile group = Some remote →
  group = remote_group_of (remote_name remote)
  ∧ is_Some (keyfile !! group).
Proof.
  unfold ostree_remote_new_from_keyfile.
  destruct (keyfile !! group) as [options|]; [|done]. cbn.
  destruct (string_strip_prefix _ group) as [rest|] eqn:Hrest; [|done]. cbn.
  destruct (string_strip_last _ rest) as [name|] eqn:Hname; [|done]. cbn.
  destruct (decide _); [done|]. intros [= <-]. cbn.
  apply string_strip_prefix_app in Hrest.
  apply string_strip_last_app in Hname. subst.
  split; [|by eauto].
  unfold remote_group_of. by rewrite string_app_assoc.
Qed.

Lemma add_remotes_queue_spec (self : OstreeRepo) (keyfile : GKeyFile)
    (file : option string) (groups : list string)
    (queue : list OstreeRemote) :
  (Exists (λ group, ∃ remote,
             ostree_remote_new_from_keyfile keyfile group = Some remote
             ∧ is_Some (remotes self !! remote_name remote)) groups →
   add_remotes_queue self keyfile file groups queue = GErr G_IO_ERROR_FAILED)
  ∧ (¬ Exists (λ group, ∃ remote,
                 ostree_remote_new_from_keyfile keyfile group = Some remote
                 ∧ is_Some (remotes self !! remote_name remote)) groups →
     add_remotes_queue self keyfile file groups queue
     = GOk (queue
            ++ omap (λ group,
                       remote ← ostree_remote_new_from_keyfile keyfile group;
                       Some (match file with
                             | Some _ => set_remote_file remote file
                             | None => remote
                             end)) groups)).
Proof.
  revert queue. induction groups as [|group groups IH]; intros queue.
  - cbn. rewrite Exists_nil, (right_id_L [] (++)). naive_solver.
  - rewrite Exists_cons. cbn [add_remotes_queue omap list_omap].
    destruct (ostree_remote_new_from_keyfile keyfile group)
      as [remote|] eqn:Hremote; cbn.
    + case_bool_decide as Hclash.
      * split; [done|]. intros []. left. by exists remote.
      * destruct (IH (queue ++ [match file with
                                | Some _ => set_remote_file remote file
                                | None => remote
                                end])) as [IHclash IHclean].
        rewrite <- (assoc_L (++)) in IHclean. cbn in IHclean. split.
        -- intros [(remote' & [= <-] & ?)|Hrest]; [done|]. by apply IHclash.
        -- intros Hclean. apply IHclean. intros Hrest. apply Hclean. by right.
    + destruct (IH queue) as [IHclash IHclean]. split.
      * intros [(remote' & [=] & ?)|Hrest]. by apply IHclash.
      * intros Hclean. apply IHclean. intros Hrest. apply Hclean. by right.
Qed.

Lemma registry_foldl_insert (queue : list OstreeRemote)
    (registry : gmap string OstreeRemote) :
  (∀ name, name ∉ remote_name <$> queue →
     foldl (λ registry remote, <[remote_name remote := remote]> registry)
       registry queue !! name = registry !! name)
  ∧ (NoDup (remote_name <$> queue) →
     ∀ remote, remote ∈ queue →
       foldl (λ registry remote, <[remote_name remote := remote]> registry)
         registry queue !! remote_name remote = Some remote).
Proof.
  revert registry. induction queue as [|first queue IH]; intros registry.
  - split; [done|]. by intros _ remote ?%elem_of_nil.
  - destruct (IH (<[remote_name first := first]> registry))
      as [IHout IHin].
    cbn. split.
    + intros name [Hfirst Hrest]%not_elem_of_cons.
      by rewrite IHout, lookup_insert_ne.
    + intros [Hfirst Hdup]%NoDup_cons remote [->|Hrest]%elem_of_cons.
      * by rewrite IHout, lookup_insert_eq.
      * by apply IHin.
Qed.

Lemma remote_group_of_inj (name1 name2 : string) :
  remote_group_of name1 = remote_group_of name2 → name1 = name2.
Proof.
  unfold remote_group_of. intros Heq.
  do 2 apply (inj (String.app _)) in Heq.
  assert (∀ name,
    string_strip_last (Ascii.ascii_of_nat 34) (name +:+ double_quote)
    = Some name) as Hlast by (intros name; by apply string_strip_last_app).
  pose proof (Hlast name1) as Hlast1. rewrite Heq, Hlast in Hlast1.
  by injection Hlast1.
Qed.

Lemma NoDup_omap_inj {A B} (f : A → option B) (l : list A) :
  (∀ x y b, f x = Some b → f y = Some b → x = y) →
  NoDup l → NoDup (omap f l).
Proof.
  intros Hinj. induction 1 as [|x l Hx Hl IH]; cbn; [constructor|].
  destruct (f x) as [b|] eqn:Hb; [|done].
  constructor; [|done].
  intros (y & Hy & Hyb)%list_elem_of_omap.
  by rewrite (Hinj x y b) in Hx.
Qed.

(** X17: the remotes of a key file are registered all or none.  When a
    remote of the key file has the name of a registered remote, the call
    fails and the repository is as before; otherwise it succeeds, every
    remote of the key file is registered under its name, with the file
    given as its origin, and every other name is looked up as before. *)
Theorem add_remotes_from_keyfile_all_or_nothing
    (self : OstreeRepo) (keyfile : GKeyFile) (file : option string) :
  (keyfile_clash self keyfile →
   add_remotes_from_keyfile self keyfile file
   = (self, GErr G_IO_ERROR_FAILED))
  ∧ (¬ keyfile_clash self keyfile →
     ∃ registry,
       add_remotes_from_keyfile self keyfile file
       = (set_remotes self registry, GOk ())
       ∧ ∀ name,
           registry !! name
           = match keyfile_remote keyfile file name with
             | Some remote => Some remote
             | None => remotes self !! name
             end).
Proof.
  set (groups := (map_to_list keyfile).*1).
  assert (∀ group, group ∈ groups ↔ is_Some (keyfile !! group)) as Hgroups.
  { intros group. subst groups. rewrite list_elem_of_fmap. split.
    - intros ([g options] & -> & Hin%elem_of_map_to_list). by eexists.
    - intros [options Hin]. exists (group, options).
      by rewrite elem_of_map_to_list. }
  assert (keyfile_clash self keyfile
          ↔ Exists (λ group, ∃ remote,
                      ostree_remote_new_from_keyfile keyfile group
                      = Some remote
                      ∧ is_Some (remotes self !! remote_name remote))
              groups) as Hclash.
  { rewrite Exists_exists. unfold keyfile_clash. split.
    - intros (group & remote & Hremote & Hregistered).
      exists group. split; [|by exists remote].
      apply Hgroups. by apply remote_new_from_keyfile_inv in Hremote as [_ ?].
    - intros (group & _ & remote & Hremote & Hregistered).
      by exists group, remote. }
  unfold add_remotes_from_keyfile. fold groups.
  destruct (add_remotes_queue_spec self keyfile file groups [])
    as [Hfail Hqueue].
  split.
  - intros Hyes%Hclash. by rewrite Hfail.
  - rewrite Hclash. intros Hno. rewrite Hqueue by done. cbn [app].
    set (queue := omap _ groups).
    eexists. split; [done|]. intros name.
    destruct (registry_foldl_insert queue (remotes self)) as [Hout Hin].
    assert (∀ name remote,
      keyfile_remote keyfile file name = Some remote →
      remote_name remote = name) as Hname.
    { unfold keyfile_remote. intros n r Hdef.
      destruct (ostree_remote_new_from_keyfile keyfile (remote_group_of n))
        as [r0|] eqn:Hr0; [|done].
      injection Hdef as <-.
      apply remote_new_from_keyfile_inv in Hr0 as [Heq _].
      apply remote_group_of_inj in Heq. by destruct file. }
    assert (∀ remote,
      remote ∈ queue
      ↔ keyfile_remote keyfile file (remote_name remote) = Some remote)
      as Hqueue_elem.
    { intros remote. subst queue. rewrite list_elem_of_omap.
      unfold keyfile_remote. split.
      - intros (group & Hgroup & Hdef).
        destruct (ostree_remote_new_from_keyfile keyfile group)
          as [r0|] eqn:Hr0; [|done].
        cbn in Hdef. injection Hdef as <-.
        apply remote_new_from_keyfile_inv in Hr0 as Hinv.
        destruct Hinv as [Hgroup_of _].
        replace (remote_name match file with
                             | Some _ => set_remote_file r0 file
                             | None => r0
                             end) with (remote_name r0) by by destruct file.
        by rewrite <- Hgroup_of, Hr0.
      - intros Hdef. exists (remote_group_of (remote_name remote)).
        split; [|done]. apply Hgroups.
        destruct (ostree_remote_new_from_keyfile keyfile _)
          as [r0|] eqn:Hr0; [|done].
        by apply remote_new_from_keyfile_inv in Hr0 as [_ ?]. }
    assert (NoDup (remote_name <$> queue)) as Hdup.
    { apply NoDup_fmap_2_strong.
      - intros r1 r2 Hr1%Hqueue_elem Hr2%Hqueue_elem Heq.
        rewrite Heq, Hr2 in Hr1. by injection Hr1.
      - subst queue. apply NoDup_omap_inj; [|apply NoDup_fst_map_to_list].
        intros g1 g2 r Hg1 Hg2.
        destruct (ostree_remote_new_from_keyfile keyfile g1)
          as [r1|] eqn:Hr1; [|done].
        destruct (ostree_remote_new_from_keyfile keyfile g2)
          as [r2|] eqn:Hr2; [|done].
        apply remote_new_from_keyfile_inv in Hr1 as [-> _].
        apply remote_new_from_keyfile_inv in Hr2 as [-> _].
        cbn in Hg1, Hg2. injection Hg1 as <-. injection Hg2 as Hg2.
        f_equal. apply (f_equal remote_name) in Hg2.
        by destruct file. }
    destruct (keyfile_remote keyfile file name) as [remote|] eqn:Hdef.
    + apply Hname in Hdef as Hremote. subst name.
      apply Hin; [done|]. by apply Hqueue_elem.
    + apply Hout. intros (remote & -> & Hremote)%list_elem_of_fmap.
      apply Hqueue_elem in Hremote. by rewrite Hremote in Hdef.
Qed.



(** ** Collection ID *)

Section CollectionIdFacts.
Variable validate_collection_id : string → GResult unit.
Variable parse_string_as_value : string → string.

#[local] Abbreviation set_collection_id :=
  (ostree_repo_set_collection_id validate_collection_id
     parse_string_as_value).

(** X18: setting a collection ID that validates, on an open repository,
    succeeds; the ID is the one [ostree_repo_get_collection_id] returns
    afterwards, the configuration has it (escaped) under
    [core/collection-id], and every other value of the configuration is
    as before. *)
Theorem set_collection_id_then_get (self : OstreeRepo) (id : string) :
  validate_collection_id id = GOk () →
  inited self = true →
  (set_collection_id self (Some id)).2 = GOk ()
  ∧ ostree_repo_get_collection_id (set_collection_id self (Some id)).1
    = Some id
  ∧ g_key_file_lookup (config (set_collection_id self (Some id)).1)
      "core" "collection-id"
    = GOk (parse_string_as_value id)
  ∧ (∀ group key raw,
       (group, key) ≠ ("core", "collection-id") →
       g_key_file_lookup (config (set_collection_id self (Some id)).1)
         group key = GOk raw
       ↔ g_key_file_lookup (config self) group key = GOk raw).
Proof.
  intros Hvalid Hinited. unfold ostree_repo_set_collection_id.
  rewrite Hvalid. cbn. rewrite Hinited. cbn. split_and!; [done..| |].
  - unfold g_key_file_lookup, g_key_file_set_string, g_key_file_set_value.
    by rewrite !lookup_insert_eq.
  - intros group key raw Hother.
    unfold g_key_file_lookup, g_key_file_set_string, g_key_file_set_value.
    destruct (decide (group = "core")) as [->|Hgroup].
    + rewrite lookup_insert_eq.
      rewrite lookup_insert_ne by (intros <-; by apply Hother).
      by destruct (config self !! "core").
    + by rewrite lookup_insert_ne.
Qed.

(** X19: clearing the collection ID of an open repository always clears
    the ID of the handle, but it succeeds only when the configuration has
    a [core/collection-id] key, which it then removes; without the key
    the call reports the key-file error and the ID is cleared all the
    same. *)
Theorem clear_collection_id_without_key (self : OstreeRepo) :
  inited self = true →
  ostree_repo_get_collection_id (set_collection_id self None).1 = None
  ∧ (set_collection_id self None).2
    = (g_key_file_lookup (config self) "core" "collection-id"
       ≫= λ _, GOk ())
  ∧ ((set_collection_id self None).2 = GOk () →
     g_key_file_lookup (config (set_collection_id self None).1)
       "core" "collection-id"
     = GErr G_KEY_FILE_ERROR_KEY_NOT_FOUND).
Proof.
  intros Hinited. unfold ostree_repo_set_collection_id.
  cbn. rewrite Hinited.
  unfold g_key_file_remove_key, g_key_file_lookup. cbn.
  destruct (config self !! "core") as [core|] eqn:Hcore; cbn; [|done].
  destruct (core !! "collection-id") eqn:Hkey; cbn; [|done].
  split_and!; [done..|]. intros _.
  by rewrite lookup_insert_eq, lookup_delete_eq.
Qed.
End CollectionIdFacts.

(** ** Progress display *)

(** X20: the time remaining is printed without loss.  The numbers that
    [_formatted_time_remaining_from_seconds] prints, each times the length
    of its unit, add up to the seconds given; hours are below 24, minutes
    and seconds below 60, days unbounded; and a unit is left out only when
    it and all larger units are zero, the seconds never. *)
Theorem formatted_time_remaining_adds_up (seconds_remaining : N) :
  _formatted_time_remaining_from_seconds seconds_remaining
  = foldr (λ field description,
             pretty field.1 +:+ " " +:+ field.2 +:+ " " +:+ description)
      EmptyString (time_remaining_fields seconds_remaining)
  ∧ foldr (λ field total, (field.1 * unit_seconds field.2 + total)%N) 0%N
      (time_remaining_fields seconds_remaining)
    = seconds_remaining
  ∧ Forall (λ field,
              field.2 = "days"
              ∨ (field.2 = "hours" ∧ (field.1 < 24)%N)
              ∨ (field.1 < 60)%N)
      (time_remaining_fields seconds_remaining)
  ∧ last (time_remaining_fields seconds_remaining)
    = Some ((seconds_remaining mod 60)%N, "seconds").
Proof.
  split; [done|]. unfold time_remaining_fields. cbv zeta.
  set (minutes := (seconds_remaining / 60)%N).
  set (hours := (minutes / 60)%N).
  set (days := (hours / 24)%N).
  pose proof (N.div_mod seconds_remaining 60) as Hseconds.
  pose proof (N.div_mod minutes 60) as Hminutes.
  pose proof (N.div_mod hours 24) as Hhours.
  pose proof (N.mod_lt seconds_remaining 60) as Hs.
  pose proof (N.mod_lt minutes 60) as Hm.
  pose proof (N.mod_lt hours 24) as Hh.
  fold minutes in Hseconds. fold hours in Hminutes. fold days in Hhours.
  clearbody days. clearbody hours. clearbody minutes.
  set (s0 := (seconds_remaining mod 60)%N) in *.
  set (m0 := (minutes mod 60)%N) in *.
  set (h0 := (hours mod 24)%N) in *.
  clearbody s0 m0 h0.
  split_and!.
  - repeat case_decide; cbn;
      change (unit_seconds "days") with 86400%N;
      change (unit_seconds "hours") with 3600%N;
      change (unit_seconds "minutes") with 60%N;
      change (unit_seconds "seconds") with 1%N.
      all: lia.
  - repeat case_decide; cbn [app];
      repeat (apply Forall_cons; split); try apply Forall_nil; cbn.
    all: first [done|by left|right; left; split; [done|lia]|right; right; lia].
  - by repeat case_decide.
Qed.

(** ** Object store: listing *)

Lemma string_app_cons (a : Ascii.ascii) (s t : string) :
  String a s +:+ t = String a (s +:+ t).
Proof. done. Qed.

Lemma string_app_nil_l (s : string) : EmptyString +:+ s = s.
Proof. done. Qed.








Lemma string_length_app (s t : string) :
  String.length (s +:+ t) = String.length s + String.length t.
Proof.
  induction s as [|a s IH]; [done|]. rewrite string_app_cons. cbn.
  by rewrite IH.
Qed.



















(** ** Remotes registry: adding and deleting *)

Section RemoteChangeFacts.
Variable validate_remote_name : string → GResult unit.
Variable remotes_d_dir : OstreeRepo → option string → option string.
Variable make_directory_with_parents : string → GResult unit.
Variable file_replace_contents : string → bytes → GResult unit.
Variable unlink_file : string → sysres unit.
Variable key_file_to_data : GKeyFile → bytes.
Variable key_file_load_from_data : bytes → GKeyFile * GResult unit.
Variable parse_string_as_value : string → string.
Variable parse_string_list_as_value : list string → string.
Variable keyfile_copy_group : GKeyFile → GKeyFile → string → GKeyFile.

#[local] Abbreviation write_config :=
  (ostree_repo_write_config key_file_to_data key_file_load_from_data).
#[local] Abbreviation remote_add :=
  (impl_repo_remote_add validate_remote_name remotes_d_dir
     make_directory_with_parents file_replace_contents
     key_file_to_data key_file_load_from_data parse_string_as_value
     parse_string_list_as_value keyfile_copy_group).
#[local] Abbreviation remote_delete :=
  (impl_repo_remote_delete validate_remote_name unlink_file
     key_file_to_data key_file_load_from_data).

(** Writing the configuration leaves the registry alone. *)
Lemma write_config_remotes (self : OstreeRepo) (new_config : GKeyFile) :
  remotes (write_config self new_config).1 = remotes self.
Proof.
  unfold ostree_repo_write_config.
  destruct (negb (inited self)); [done|].
  destruct (glnx_file_replace_contents_at _ _ _) as [d [[]| |]]; try done.
  by destruct (key_file_load_from_data _).
Qed.

Lemma add_remote_registered (self self1 : OstreeRepo)
    (remote : OstreeRemote) (name : string) :
  remotes self1 = remotes self →
  remote_name remote = name →
  _ostree_repo_get_remote (_ostree_repo_add_remote self1 remote).1 name
  = GOk remote
  ∧ ∀ other, other ≠ name →
      _ostree_repo_get_remote (_ostree_repo_add_remote self1 remote).1 other
      = _ostree_repo_get_remote self other.
Proof.
  intros Hregistry <-.
  unfold _ostree_repo_get_remote, _ostree_repo_add_remote. cbn. split.
  - by rewrite lookup_insert_eq.
  - intros other Hother. by rewrite lookup_insert_ne, Hregistry.
Qed.

(** X23: adding a remote.  For a name that validates: when a remote of the
    name is registered, the call changes nothing, and it succeeds if asked
    to add only if absent and fails otherwise; when none is registered and
    the call succeeds, a lookup of the name finds a remote of that name
    whose options, if the caller gave none, hold the URL under [url], or
    under [metalink] what follows a leading [metalink=]; every other name
    is looked up as before. *)
Theorem remote_add_registers_or_refuses
    (self : OstreeRepo) (sysroot : option string) (if_not_exists : bool)
    (name url : string) (options : option (list (string * GVariantOption))) :
  validate_remote_name name = GOk () →
  (∀ old, _ostree_repo_get_remote self name = GOk old →
     remote_add self sysroot if_not_exists name url options
     = (self, if if_not_exists then GOk () else GErr G_IO_ERROR_FAILED))
  ∧ (_ostree_repo_get_remote self name = GErr G_IO_ERROR_NOT_FOUND →
     (remote_add self sysroot if_not_exists name url options).2 = GOk () →
     ∃ remote,
       _ostree_repo_get_remote
         (remote_add self sysroot if_not_exists name url options).1 name
       = GOk remote
       ∧ remote_name remote = name
       ∧ (options = None →
          match string_strip_prefix "metalink=" url with
          | Some metalink =>
              g_key_file_lookup (remote_options remote) (remote_group remote)
                "metalink" = GOk (parse_string_as_value metalink)
          | None =>
              g_key_file_lookup (remote_options remote) (remote_group remote)
                "url" = GOk (parse_string_as_value url)
          end)
       ∧ ∀ other, other ≠ name →
           _ostree_repo_get_remote
             (remote_add self sysroot if_not_exists name url options).1 other
           = _ostree_repo_get_remote self other).
Proof.
  intros Hvalid. unfold impl_repo_remote_add. rewrite Hvalid. split.
  - intros old ->. by destruct if_not_exists.
  - intros -> .
    set (placed := match remotes_d_dir self sysroot with
                   | Some _ => _ | None => _ end).
    destruct placed as [remote| |] eqn:Hplaced; [|done..].
    assert (remote_name remote = name ∧ remote_options remote = ∅)
      as (Hname & Hoptions).
    { subst placed. destruct (remotes_d_dir self sysroot).
      - destruct (make_directory_with_parents _) as [|[]|];
          try done; by injection Hplaced as <-.
      - by injection Hplaced as <-. }
    cbn zeta. rewrite Hoptions.
    set (options1 := match string_strip_prefix "metalink=" url with
                     | Some _ => _ | None => _ end).
    set (options2 := match options with Some _ => _ | None => _ end).
    assert (options = None →
            match string_strip_prefix "metalink=" url with
            | Some metalink =>
                g_key_file_lookup options2 (remote_group remote) "metalink"
                = GOk (parse_string_as_value metalink)
            | None =>
                g_key_file_lookup options2 (remote_group remote) "url"
                = GOk (parse_string_as_value url)
            end) as Hurl.
    { intros ->. subst options2 options1.
      destruct (string_strip_prefix "metalink=" url);
        unfold g_key_file_lookup, g_key_file_set_string,
          g_key_file_set_value;
        by rewrite !lookup_insert_eq. }
    clearbody options2. clear options1.
    cbn [remote_file remote_group set_remote_options].
    destruct (remote_file remote) as [file|].
    + cbn [fst snd].
      destruct (file_replace_contents file _) as [[]|e|]; cbn [fst snd];
        [|done..].
      intros _. exists (set_remote_options remote options2).
      destruct (add_remote_registered self self
                  (set_remote_options remote options2) name eq_refl Hname)
        as [Hfound Hothers].
      by split_and!.
    + destruct (ostree_repo_copy_config _ _ _) as [config0| |];
        cbn [fst snd]; [|done..].
      pose proof (write_config_remotes self
                    (keyfile_copy_group options2 config0
                       (remote_group remote))) as Hregistry.
      destruct (write_config self _) as [self1 [[]|e|]]; cbn [fst snd] in *;
        [|done..].
      intros _. exists (set_remote_options remote options2).
      destruct (add_remote_registered self self1
                  (set_remote_options remote options2) name Hregistry Hname)
        as [Hfound Hothers].
      by split_and!.
Qed.

(** X24: deleting a remote.  For a name that validates: when no remote of
    the name is registered, the call changes nothing, and it succeeds if
    asked to delete only if present and fails with [G_IO_ERROR_NOT_FOUND]
    otherwise; when the remote is registered and the call succeeds, a
    lookup of the name fails afterwards, every other name is looked up as
    before, and the keyring file of the remote is gone from the
    repository directory. *)
Theorem remote_delete_forgets_or_refuses
    (self : OstreeRepo) (sysroot : option string) (if_exists : bool)
    (name : string) :
  validate_remote_name name = GOk () →
  (_ostree_repo_get_remote self name = GErr G_IO_ERROR_NOT_FOUND →
   remote_delete self sysroot if_exists name
   = (self, if if_exists then GOk () else GErr G_IO_ERROR_NOT_FOUND))
  ∧ (∀ remote,
       _ostree_repo_get_remote self name = GOk remote →
       remote_name remote = name →
       (remote_delete self sysroot if_exists name).2 = GOk () →
       _ostree_repo_get_remote (remote_delete self sysroot if_exists name).1
         name = GErr G_IO_ERROR_NOT_FOUND
       ∧ (∀ other, other ≠ name →
            _ostree_repo_get_remote
              (remote_delete self sysroot if_exists name).1 other
            = _ostree_repo_get_remote self other)
       ∧ fstatat (repo_dir (remote_delete self sysroot if_exists name).1)
           (remote_keyring remote) = SysErr ENOENT).
Proof.
  intros Hvalid. unfold impl_repo_remote_delete. rewrite Hvalid. split.
  - intros ->. by destruct if_exists.
  - intros remote -> Hname.
    assert (∀ self1,
      remotes self1 = remotes self →
      (let '(d, unlinked) :=
         ot_ensure_unlinked_at (repo_dir self1) (remote_keyring remote) in
       match unlinked with
       | GOk _ =>
           ((_ostree_repo_remove_remote (set_repo_dir self1 d) remote).1,
            GOk ())
       | failed => (set_repo_dir self1 d, failed)
       end).2 = GOk () →
      let after :=
        (let '(d, unlinked) :=
           ot_ensure_unlinked_at (repo_dir self1) (remote_keyring remote) in
         match unlinked with
         | GOk _ =>
             ((_ostree_repo_remove_remote (set_repo_dir self1 d) remote).1,
              GOk ())
         | failed => (set_repo_dir self1 d, failed)
         end).1 in
      _ostree_repo_get_remote after name = GErr G_IO_ERROR_NOT_FOUND
      ∧ (∀ other, other ≠ name →
           _ostree_repo_get_remote after other
           = _ostree_repo_get_remote self other)
      ∧ fstatat (repo_dir after) (remote_keyring remote) = SysErr ENOENT)
      as Hforget.
    { intros self1 Hregistry.
      unfold ot_ensure_unlinked_at, unlinkat, fstatat.
      destruct (repo_dir self1 !! remote_keyring remote) as [[ino|[]]|]
        eqn:Hkeyring; cbn; try destruct (S_ISDIR (st_mode ino)); cbn;
        try done; intros _;
        unfold _ostree_repo_get_remote; cbn; rewrite Hname, Hregistry;
        (split_and!;
         [by rewrite lookup_delete_eq
         |intros other Hother; by rewrite lookup_delete_ne
         |by rewrite ?lookup_delete_eq, ?Hkeyring]). }
    destruct (remote_file remote) as [file|].
    + destruct (unlink_file file) as [[]|e]; cbn [fst snd]; [|done].
      by apply Hforget.
    + destruct (ostree_repo_copy_config _ _ _) as [config0| |];
        cbn [fst snd]; [|done..].
      destruct (g_key_file_remove_group config0 (remote_group remote))
        as [config' []]; [|by apply Hforget].
      pose proof (write_config_remotes self config') as Hregistry.
      destruct (write_config self config') as [self1 [[]|e|]];
        cbn [fst snd] in *; [|done..].
      by apply Hforget.
Qed.
End RemoteChangeFacts.

(** ** Object store: import from another repository *)

(** Where a hard link is possible, the loose path of the object is the same
    for the modes of the two repositories. *)
Lemma hardlink_possible_same_loose_path
    (source : OstreeRepo) (source_owner_uid : Z)
    (self : OstreeRepo) (self_owner_uid : Z)
    (objtype : OstreeObjectType) (checksum : string) :
  import_via_hardlink_is_possible source source_owner_uid
    self self_owner_uid objtype = true →
  _ostree_loose_path checksum objtype (mode self)
  = _ostree_loose_path checksum objtype (mode source).
Proof.
  unfold import_via_hardlink_is_possible, import_is_bareuser_only_conversion,
    OSTREE_OBJECT_TYPE_IS_META, _ostree_loose_path.
  intros Hpossible. do 5 f_equal.
  repeat case_bool_decide; try done; naive_solver congruence.
Qed.

Lemma S_ISLNK_not_S_ISREG (m : Z) : S_ISLNK m = true → S_ISREG m = false.
Proof.
  unfold S_ISLNK, S_ISREG. intros Hlnk%bool_decide_eq_true.
  apply bool_decide_eq_false. by rewrite Hlnk.
Qed.

(** The [stat] of a bare-user object found in [objects/] carries the mode
    that its attribute records. *)
Lemma load_file_bare_recorded_mode
    (source : OstreeRepo) (checksum : string) (ino : inode) (m : Z) :
  mode source = OSTREE_REPO_MODE_BARE_USER →
  objects_dir source
    !! _ostree_loose_path checksum OSTREE_OBJECT_TYPE_FILE (mode source)
  = Some (Entry ino) →
  S_ISREG (st_mode ino) = true →
  recorded_mode ino = Some m →
  ∃ r, _ostree_repo_load_file_bare source checksum false true false false
       = GOk r
       ∧ stb_mode <$> bf_stbuf r = Some m.
Proof.
  intros Hmode Hino Hreg Hrecorded.
  unfold recorded_mode in Hrecorded.
  destruct (i_ostreemeta ino) as [metadata|] eqn:Hmeta; [|done].
  injection Hrecorded as <-.
  unfold_on_repo source _ostree_repo_load_file_bare.
  set (path := _ostree_loose_path _ _ _) in *. clearbody path.
  unfold fstatat. rewrite Hino.
  unfold load_file_bare_found. rewrite Hmode.
  cbn [stat_of_inode stb_mode orb andb bool_decide decide_rel].
  rewrite bool_decide_eq_true_2 by done.
  cbn [orb andb]. rewrite Hreg. unfold openat. rewrite Hino, Hreg.
  cbn [mbind GResult_bind orb negb glnx_fgetxattr_ostreemeta].
  rewrite Hmeta. cbn [mbind GResult_bind filemeta_to_stat].
  destruct (S_ISLNK (stb_mode _)); cbn; eauto.
Qed.

(** An object that a directory of the repository holds, and on which no
    probe fails, is found by the existence check. *)
Lemma has_object_found
    (self : OstreeRepo) (objtype : OstreeObjectType) (checksum : string)
    (ino : inode) :
  first_hit fstatat (stagedir_then_objects self)
    (_ostree_loose_path checksum objtype (mode self)) = SysOk ino →
  ostree_repo_has_object self objtype checksum = GOk true.
Proof.
  intros Hhit. destruct self; cbn [ostree_repo_has_object].
  by rewrite has_loose_object_stagedir_first, Hhit.
Qed.

Section ImportFacts.
Context `{engine : GpgEngine}.
Variable content_stream_parse :
  bytes → Z → GResult (option bytes * GFileInfo * list (bytes * bytes)).
Variable raw_file_to_content_stream :
  option bytes → option GFileInfo → option (list (bytes * bytes)) →
  GResult (bytes * Z).
Variable ensure_loose_objdir_at : dir → string → GResult unit.
Variable write_metadata_trusted :
  OstreeRepo → OstreeObjectType → string → GVariant →
  OstreeRepo * GResult unit.
Variable write_metadata :
  OstreeRepo → OstreeObjectType → string → GVariant →
  OstreeRepo * GResult bytes.
Variable write_content_trusted :
  OstreeRepo → string → option bytes → local_guint64 →
  OstreeRepo * GResult unit.
Variable write_content :
  OstreeRepo → string → option bytes → local_guint64 →
  OstreeRepo * GResult bytes.
Variable refused : option linkat_errno.

#[local] Abbreviation link_object :=
  (import_one_object_link ensure_loose_objdir_at refused).
#[local] Abbreviation import_object :=
  (ostree_repo_import_object_from_with_trust content_stream_parse
     raw_file_to_content_stream ensure_loose_objdir_at write_metadata_trusted
     write_metadata write_content_trusted write_content refused).

(** The link step on a file that the source holds under the loose path of
    the destination: it is linked where the path is free, nothing is done
    where an entry is there already, and a path that fails in the
    destination fails the step. *)
Lemma import_one_object_link_spec
    (self source : OstreeRepo) (checksum : string)
    (objtype : OstreeObjectType) (ino : inode) :
  let path := _ostree_loose_path checksum objtype (mode self) in
  objects_dir source !! path = Some (Entry ino) →
  S_ISDIR (st_mode ino) = false →
  _ostree_loose_path checksum objtype (mode source) = path →
  (import_is_bareuser_only_conversion source self objtype = true →
   stored_regular ino) →
  (objtype = OSTREE_OBJECT_TYPE_COMMIT →
   ostree_repo_read_commit_detached_metadata source checksum = GOk None) →
  ensure_loose_objdir_at (objects_dir self) path = GOk () →
  refused = None →
  link_object self source checksum objtype
  = match objects_dir self !! path with
    | None =>
        (set_objects_dir self (<[path := Entry ino]> (objects_dir self)),
         GOk true)
    | Some (Entry _) => (self, GOk true)
    | Some (Fault e) => (self, glnx_throw_errno e)
    end.
Proof.
  intros path Hino Hfile Hpath Hregular Hdetached Hensure ->.
  unfold import_one_object_link. fold path.
  assert ((if import_is_bareuser_only_conversion source self objtype
           then r ← _ostree_repo_load_file_bare source checksum
                      false true false false;
                match bf_stbuf r with
                | Some stbuf =>
                    if S_ISREG (stb_mode stbuf) then GOk true
                    else if S_ISLNK (stb_mode stbuf) then GOk false
                    else GAbort
                | None => GAbort
                end
           else GOk true) = GOk true) as ->.
  { destruct (import_is_bareuser_only_conversion _ _ _) eqn:Hconv; [|done].
    destruct (Hregular eq_refl) as (Hreg & m & Hrecorded & Hm).
    unfold import_is_bareuser_only_conversion in Hconv.
    apply andb_prop in Hconv as [[Hsource _]%andb_prop Htype].
    apply bool_decide_eq_true in Hsource, Htype. subst objtype.
    rewrite <- Hpath in Hino.
    destruct (load_file_bare_recorded_mode source checksum ino m)
      as (r & -> & Hstbuf); [done..|].
    cbn [mbind GResult_bind].
    destruct (bf_stbuf r) as [stbuf|]; [|done].
    injection Hstbuf as ->. by rewrite Hm. }
  rewrite Hensure. unfold linkat. rewrite Hino.
  destruct (objects_dir self !! path) as [[existing|e]|]; [done..|].
  rewrite Hfile.
  case_bool_decide as Htype; [|done].
  unfold copy_detached_metadata. by rewrite (Hdetached Htype).
Qed.

(** X25: a trusted import where a hard link is possible, of an object that
    the source holds as a file in [objects/], when nothing refuses the
    link.  Where the loose path is free in [objects/] of the destination,
    the object is linked there under the same path, the inode being the
    one of the source, nothing else of the destination changes, and the
    import succeeds without a writer being called.  Where an entry is
    there already, the import succeeds and nothing changes at all.  Where
    the path fails in the destination, the import fails with that error
    and nothing changes.  After a success the existence check of the
    destination finds the object, if no probe of it fails.  (For a commit,
    the source has no detached metadata here.) *)
Theorem trusted_import_links_object
    (self : OstreeRepo) (self_owner_uid : Z)
    (source : OstreeRepo) (source_owner_uid : Z)
    (objtype : OstreeObjectType) (checksum : string) (ino : inode) :
  let path := _ostree_loose_path checksum objtype (mode self) in
  let linked :=
    match objects_dir self !! path with
    | None => set_objects_dir self (<[path := Entry ino]> (objects_dir self))
    | Some _ => self
    end in
  import_via_hardlink_is_possible source source_owner_uid
    self self_owner_uid objtype = true →
  objects_dir source !! _ostree_loose_path checksum objtype (mode source)
  = Some (Entry ino) →
  S_ISDIR (st_mode ino) = false →
  (import_is_bareuser_only_conversion source self objtype = true →
   stored_regular ino) →
  (objtype = OSTREE_OBJECT_TYPE_COMMIT →
   ostree_repo_read_commit_detached_metadata source checksum = GOk None) →
  ensure_loose_objdir_at (objects_dir self) path = GOk () →
  refused = None →
  import_object self self_owner_uid source source_owner_uid
    objtype checksum true
  = (linked, source,
     match objects_dir self !! path with
     | Some (Fault e) => glnx_throw_errno e
     | _ => GOk ()
     end)
  ∧ path = _ostree_loose_path checksum objtype (mode source)
  ∧ (objects_dir self !! path = None →
     objects_dir linked !! path = Some (Entry ino)
     ∧ ∀ other, other ≠ path →
         objects_dir linked !! other = objects_dir self !! other)
  ∧ (sound_at self path →
     ostree_repo_has_object linked objtype checksum = GOk true).
Proof.
  intros path linked Hpossible Hino Hfile Hregular Hdetached Hensure Hrefused.
  pose proof (hardlink_possible_same_loose_path _ _ _ _ _ checksum Hpossible)
    as Hpath.
  fold path in Hpath. rewrite <- Hpath in Hino.
  split_and!.
  - unfold ostree_repo_import_object_from_with_trust.
    rewrite Hpossible. cbn [andb].
    rewrite (import_one_object_link_spec self source checksum objtype ino)
      by done.
    fold path. unfold linked.
    by destruct (objects_dir self !! path) as [[existing|[]]|].
  - done.
  - intros Hfree. unfold linked. rewrite Hfree.
    destruct self; cbn. split; [by rewrite lookup_insert_eq|].
    intros other Hother. by rewrite lookup_insert_ne.
  - intros Hsound.
    assert (mode linked = mode self
            ∧ commit_stagedir linked = commit_stagedir self
            ∧ ∃ i, objects_dir linked !! path = Some (Entry i))
      as (Hmode & Hstage & i & Hlinked).
    { unfold linked.
      destruct (objects_dir self !! path) as [[i|e]|] eqn:Hself.
      - eauto.
      - destruct (Hsound (objects_dir self) e); [|done].
        unfold stagedir_then_objects.
        destruct (commit_stagedir self); set_solver.
      - destruct self; cbn. rewrite lookup_insert_eq. eauto. }
    assert (∃ found,
              first_hit fstatat (stagedir_then_objects linked) path
              = SysOk found) as [found Hfound].
    { unfold stagedir_then_objects. rewrite Hstage.
      destruct (commit_stagedir self) as [stagedir|] eqn:Hstagedir;
        cbn [first_hit]; unfold fstatat.
      - destruct (stagedir !! path) as [[staged|e]|] eqn:Hstaged.
        + eauto.
        + destruct (Hsound stagedir e); [|done].
          unfold stagedir_then_objects. rewrite Hstagedir. set_solver.
        + rewrite Hlinked. eauto.
      - rewrite Hlinked. eauto. }
    apply (has_object_found _ _ _ found). by rewrite Hmode.
Qed.

(** X26: a symbolic link is never hard-linked from a bare-user repository
    into a bare-user-only one, whatever the file systems allow: the link
    step reports that no link was made and leaves the destination as it
    is, and the trusted import goes on as a copy, which returns at once if
    the destination has the object and else writes the content stream
    loaded from the source with the trusted writer. *)
Theorem bare_user_symlink_is_copied
    (self : OstreeRepo) (self_owner_uid : Z)
    (source : OstreeRepo) (source_owner_uid : Z)
    (checksum : string) (ino : inode) :
  mode source = OSTREE_REPO_MODE_BARE_USER →
  mode self = OSTREE_REPO_MODE_BARE_USER_ONLY →
  objects_dir source
    !! _ostree_loose_path checksum OSTREE_OBJECT_TYPE_FILE (mode source)
  = Some (Entry ino) →
  stored_symlink ino →
  link_object self source checksum OSTREE_OBJECT_TYPE_FILE
  = (self, GOk false)
  ∧ (ostree_repo_has_object self OSTREE_OBJECT_TYPE_FILE checksum
     = GOk true →
     import_object self self_owner_uid source source_owner_uid
       OSTREE_OBJECT_TYPE_FILE checksum true
     = (self, source, GOk ()))
  ∧ (∀ source1 object_stream length,
       ostree_repo_has_object self OSTREE_OBJECT_TYPE_FILE checksum
       = GOk false →
       ostree_repo_load_object_stream content_stream_parse
         raw_file_to_content_stream source OSTREE_OBJECT_TYPE_FILE checksum
       = (source1, GOk (object_stream, length)) →
       import_object self self_owner_uid source source_owner_uid
         OSTREE_OBJECT_TYPE_FILE checksum true
       = ((write_content_trusted self checksum object_stream length).1,
          source1,
          (write_content_trusted self checksum object_stream length).2)).
Proof.
  intros Hsource Hself Hino (Hreg & m & Hrecorded & Hlnk).
  assert (link_object self source checksum OSTREE_OBJECT_TYPE_FILE
          = (self, GOk false)) as Hlink.
  { unfold import_one_object_link, import_is_bareuser_only_conversion.
    rewrite Hsource, Hself.
    rewrite !bool_decide_eq_true_2 by done. cbn [andb].
    destruct (load_file_bare_recorded_mode source checksum ino m)
      as (r & -> & Hstbuf); [done..|].
    cbn [mbind GResult_bind].
    destruct (bf_stbuf r) as [stbuf|]; [|done].
    injection Hstbuf as ->.
    by rewrite (S_ISLNK_not_S_ISREG m Hlnk), Hlnk. }
  split; [done|].
  unfold ostree_repo_import_object_from_with_trust.
  destruct (import_via_hardlink_is_possible _ _ _ _ _); cbn [andb];
    rewrite ?Hlink.
  all: split; [by intros ->|].
  all: intros source1 object_stream length -> Hstream.
  all: unfold OSTREE_OBJECT_TYPE_IS_META.
  all: rewrite bool_decide_eq_true_2 by done; cbn [negb].
  all: rewrite Hstream.
  all: by destruct (write_content_trusted _ _ _ _).
Qed.
End ImportFacts.

(** ** Temporary directories and their locks *)

Lemma string_prefix_app (p s : string) : String.prefix p (p +:+ s) = true.
Proof.
  induction p as [|a p IH]; [rewrite string_app_nil_l; by destruct s|].
  rewrite string_app_cons. cbn [String.prefix].
  by destruct (Ascii.ascii_dec a a).
Qed.

Lemma grown_by_lock_files_refl (entries : gmap string tmp_entry) :
  grown_by_lock_files entries entries.
Proof. intros name. by left. Qed.

Lemma grown_by_lock_files_trans (a b c : gmap string tmp_entry) :
  grown_by_lock_files a b → grown_by_lock_files b c →
  grown_by_lock_files a c.
Proof.
  intros Hab Hbc name.
  destruct (Hab name) as [Hb|[Ha Hb]], (Hbc name) as [Hc|[Hb' Hc]].
  - left. congruence.
  - right. split; congruence.
  - right. split; congruence.
  - congruence.
Qed.

Lemma grown_by_lock_files_subseteq (before after : gmap string tmp_entry) :
  grown_by_lock_files before after → before ⊆ after.
Proof.
  intros Hgrown. apply map_subseteq_spec. intros name e He.
  destruct (Hgrown name) as [->|[Hnone _]]; congruence.
Qed.

Lemma grown_by_lock_files_subdir
    (before after : gmap string tmp_entry) (name : string) :
  grown_by_lock_files before after →
  after !! name = Some TmpSubdir ↔ before !! name = Some TmpSubdir.
Proof.
  intros Hgrown. destruct (Hgrown name) as [->|[Hnone Hfile]]; [done|].
  rewrite Hnone, Hfile. naive_solver.
Qed.

(** A lock attempt that does not fail: the lock file is there afterwards,
    and the lock is taken exactly if nobody held it. *)
Lemma try_lock_tmpdir_inv
    (tmpdir tmpdir' : TmpDir) (name : string) (did_lock : bool) :
  _ostree_repo_try_lock_tmpdir tmpdir name = (tmpdir', TmpOk did_lock) →
  grown_by_lock_files (tmp_entries tmpdir) (tmp_entries tmpdir')
  ∧ if did_lock
    then (lock_of name ∉ tmp_locked tmpdir)
         ∧ tmp_locked tmpdir' = {[lock_of name]} ∪ tmp_locked tmpdir
    else (lock_of name ∈ tmp_locked tmpdir)
         ∧ tmp_locked tmpdir' = tmp_locked tmpdir.
Proof.
  unfold _ostree_repo_try_lock_tmpdir, glnx_make_lock_file. fold (lock_of name).
  assert (∀ entry,
            tmp_entries tmpdir !! lock_of name = entry →
            entry = None ∨ entry = Some TmpFile →
            grown_by_lock_files (tmp_entries tmpdir)
              (<[lock_of name := TmpFile]> (tmp_entries tmpdir))) as Hgrown.
  { intros entry Hentry Hfile other.
    destruct (decide (other = lock_of name)) as [->|Hother].
    - rewrite lookup_insert_eq, Hentry. destruct Hfile as [->| ->]; auto.
    - rewrite lookup_insert_ne by done. by left. }
  destruct (tmp_entries tmpdir !! lock_of name) as [[| |e]|] eqn:Hentry;
    try done.
  all: case_bool_decide as Hheld; intros [= <- <-]; cbn.
  all: split; [eapply Hgrown; eauto|done].
Qed.

Lemma try_lock_tmpdir_sound (tmpdir : TmpDir) (name : string) :
  tmp_entries tmpdir !! lock_of name = None
  ∨ tmp_entries tmpdir !! lock_of name = Some TmpFile →
  ∃ tmpdir',
    _ostree_repo_try_lock_tmpdir tmpdir name
    = (tmpdir', TmpOk (negb (bool_decide (lock_of name ∈ tmp_locked tmpdir)))).
Proof.
  unfold _ostree_repo_try_lock_tmpdir, glnx_make_lock_file. fold (lock_of name).
  intros [-> | ->]; case_bool_decide; eauto.
Qed.

(** The first loop: what it returns is a listed directory with the prefix
    whose lock it has taken; when it returns nothing, every candidate was
    locked, and no lock has been taken. *)
Lemma allocate_tmpdir_reuse_inv
    (tmpdir_prefix : string) (dents : list (string * d_type))
    (tmpdir tmpdir' : TmpDir) (found : option string) :
  allocate_tmpdir_reuse tmpdir tmpdir_prefix dents = (tmpdir', TmpOk found) →
  grown_by_lock_files (tmp_entries tmpdir) (tmp_entries tmpdir')
  ∧ match found with
    | Some name =>
        tmpdir_candidate tmpdir_prefix dents tmpdir name
        ∧ (lock_of name ∉ tmp_locked tmpdir)
        ∧ tmp_locked tmpdir' = {[lock_of name]} ∪ tmp_locked tmpdir
    | None =>
        tmp_locked tmpdir' = tmp_locked tmpdir
        ∧ ∀ name, tmpdir_candidate tmpdir_prefix dents tmpdir name →
                  lock_of name ∈ tmp_locked tmpdir
    end.
Proof.
  revert tmpdir. induction dents as [|[d_name dent_type] rest IH];
    intros tmpdir; cbn [allocate_tmpdir_reuse].
  { intros [= <- <-]. split; [apply grown_by_lock_files_refl|].
    split; [done|]. intros name (_ & (dt & []%elem_of_nil & _) & _). }
  assert ((∀ name, ¬ tmpdir_candidate tmpdir_prefix [(d_name, dent_type)]
                       tmpdir name) →
          allocate_tmpdir_reuse tmpdir tmpdir_prefix rest
          = (tmpdir', TmpOk found) →
          grown_by_lock_files (tmp_entries tmpdir) (tmp_entries tmpdir')
          ∧ match found with
            | Some name =>
                tmpdir_candidate tmpdir_prefix ((d_name, dent_type) :: rest)
                  tmpdir name
                ∧ (lock_of name ∉ tmp_locked tmpdir)
                ∧ tmp_locked tmpdir' = {[lock_of name]} ∪ tmp_locked tmpdir
            | None =>
                tmp_locked tmpdir' = tmp_locked tmpdir
                ∧ ∀ name,
                    tmpdir_candidate tmpdir_prefix
                      ((d_name, dent_type) :: rest) tmpdir name →
                    lock_of name ∈ tmp_locked tmpdir
            end) as Hskip.
  { intros Hhead [Hgrown Hfound]%IH. split; [done|].
    destruct found as [name|].
    - destruct Hfound as ((Hprefix & (dt & Hin & Hdt) & Hsub) & Hfree & Hlocked).
      split_and!; try done. split_and!; try done.
      exists dt. split; [by apply elem_of_cons; right|done].
    - destruct Hfound as [Hlocked Hall]. split; [done|].
      intros name (Hprefix & (dt & Hin & Hdt) & Hsub).
      apply elem_of_cons in Hin as [[= -> ->]|Hin].
      + destruct (Hhead d_name). split_and!; try done.
        exists dent_type. split; [by apply elem_of_cons; left|done].
      + apply Hall. split_and!; try done. by exists dt. }
  destruct (String.prefix tmpdir_prefix d_name) eqn:Hprefix; cbn [negb].
  2: { apply Hskip. intros name (Hname & (dt & Hin & _) & _).
       apply elem_of_cons in Hin as [[= -> ->]|[]%elem_of_nil]. congruence. }
  destruct (negb (bool_decide (dent_type = DT_UNKNOWN))
            && negb (bool_decide (dent_type = DT_DIR))) eqn:Htype.
  { apply Hskip. intros name (_ & (dt & Hin & Hdt) & _).
    apply elem_of_cons in Hin as [[= -> ->]|[]%elem_of_nil].
    by destruct Hdt as [-> | ->]. }
  assert (dent_type = DT_UNKNOWN ∨ dent_type = DT_DIR) as Hdt
    by (destruct dent_type; cbn in Htype; auto; done).
  unfold glnx_opendirat.
  destruct (tmp_entries tmpdir !! d_name) as [[| |e]|] eqn:Hentry;
    [| |by intros [=]..].
  2: { apply Hskip. intros name (_ & (dt & Hin & _) & Hsub).
       apply elem_of_cons in Hin as [[= -> ->]|[]%elem_of_nil]. congruence. }
  destruct (_ostree_repo_try_lock_tmpdir tmpdir d_name)
    as [tmpdir1 [[]|e|]] eqn:Hlock; [| |by intros [=]..].
  - intros [= <- <-].
    apply try_lock_tmpdir_inv in Hlock as [Hgrown [Hfree Hlocked]].
    split; [done|]. split_and!; try done. split_and!; try done.
    exists dent_type. split; [by apply elem_of_cons; left|done].
  - intros [Hgrown Hfound]%IH.
    apply try_lock_tmpdir_inv in Hlock as [Hgrown1 [Hheld Hlocked1]].
    split; [by eapply grown_by_lock_files_trans|].
    destruct found as [name|].
    + destruct Hfound
        as ((Hname & (dt & Hin & Hdt') & Hsub) & Hfree & Hlocked).
      rewrite Hlocked1 in Hfree, Hlocked.
      split_and!; try done. split_and!; try done.
      * exists dt. split; [by apply elem_of_cons; right|done].
      * by apply (grown_by_lock_files_subdir _ _ _ Hgrown1).
    + destruct Hfound as [Hlocked Hall]. split; [congruence|].
      intros name (Hname & (dt & Hin & Hdt') & Hsub).
      apply elem_of_cons in Hin as [[= -> ->]|Hin]; [done|].
      rewrite <- Hlocked1. apply Hall. split_and!; try done.
      * by exists dt.
      * by apply (grown_by_lock_files_subdir _ _ _ Hgrown1).
Qed.

Lemma tmpdir_listing_sound_grown
    (tmpdir_prefix : string) (dents : list (string * d_type))
    (tmpdir tmpdir' : TmpDir) :
  grown_by_lock_files (tmp_entries tmpdir) (tmp_entries tmpdir') →
  tmpdir_listing_sound tmpdir_prefix dents tmpdir →
  tmpdir_listing_sound tmpdir_prefix dents tmpdir'.
Proof.
  intros Hgrown Hsound name dent_type Hin Hprefix.
  destruct (Hsound name dent_type Hin Hprefix) as [Hentry Hlock].
  split.
  - destruct (Hgrown name) as [->|[Hnone _]]; [done|].
    rewrite Hnone in Hentry. by destruct Hentry.
  - destruct (Hgrown (lock_of name)) as [->|[_ ->]]; [done|by right].
Qed.

(** The first loop finds a directory if the listing has a candidate whose
    lock nobody holds, and no system call fails. *)
Lemma allocate_tmpdir_reuse_finds
    (tmpdir_prefix : string) (dents : list (string * d_type))
    (tmpdir : TmpDir) (candidate : string) :
  tmpdir_listing_sound tmpdir_prefix dents tmpdir →
  tmpdir_candidate tmpdir_prefix dents tmpdir candidate →
  lock_of candidate ∉ tmp_locked tmpdir →
  ∃ tmpdir' name,
    allocate_tmpdir_reuse tmpdir tmpdir_prefix dents
    = (tmpdir', TmpOk (Some name)).
Proof.
  revert tmpdir. induction dents as [|[d_name dent_type] rest IH];
    intros tmpdir Hsound (Hprefix & (dt & Hin & Hdt) & Hsub) Hfree.
  { by apply elem_of_nil in Hin. }
  assert (tmpdir_listing_sound tmpdir_prefix rest tmpdir) as Hrest.
  { intros name dent_type' Hname. apply (Hsound name dent_type').
    apply elem_of_cons. by right. }
  cbn [allocate_tmpdir_reuse].
  assert ((d_name, dent_type) ≠ (candidate, dt) →
          ∃ tmpdir' name,
            allocate_tmpdir_reuse tmpdir tmpdir_prefix rest
            = (tmpdir', TmpOk (Some name))) as Hskip.
  { intros Hhead. apply IH; [done| |done]. split_and!; try done.
    exists dt. split; [|done].
    apply elem_of_cons in Hin as [Hin|Hin]; [by destruct Hhead|done]. }
  destruct (String.prefix tmpdir_prefix d_name) eqn:Hhead; cbn [negb].
  2: { apply Hskip. intros [= -> ->]. congruence. }
  destruct (negb (bool_decide (dent_type = DT_UNKNOWN))
            && negb (bool_decide (dent_type = DT_DIR))) eqn:Htype.
  { apply Hskip. intros [= -> ->]. by destruct Hdt as [-> | ->]. }
  destruct (Hsound d_name dent_type) as [Hentry Hlock];
    [by apply elem_of_cons; left|done|].
  unfold glnx_opendirat. destruct Hentry as [Hentry|Hentry]; rewrite Hentry.
  2: { apply Hskip. intros [= -> ->]. congruence. }
  destruct (try_lock_tmpdir_sound tmpdir d_name Hlock) as [tmpdir1 Htry].
  rewrite Htry. case_bool_decide as Hheld; cbn [negb]; [|eauto].
  apply try_lock_tmpdir_inv in Htry as [Hgrown [_ Hlocked]].
  apply IH.
  - by apply (tmpdir_listing_sound_grown _ _ tmpdir).
  - split_and!; try done.
    + exists dt. split; [|done].
      apply elem_of_cons in Hin as [[= -> ->]|Hin]; done.
    + by apply (grown_by_lock_files_subdir _ _ _ Hgrown).
  - by rewrite Hlocked.
Qed.

(** The first loop leaves a directory without candidates as it is. *)
Lemma allocate_tmpdir_reuse_none
    (tmpdir_prefix : string) (dents : list (string * d_type))
    (tmpdir : TmpDir) :
  tmpdir_listing_sound tmpdir_prefix dents tmpdir →
  (∀ name, ¬ tmpdir_candidate tmpdir_prefix dents tmpdir name) →
  allocate_tmpdir_reuse tmpdir tmpdir_prefix dents = (tmpdir, TmpOk None).
Proof.
  induction dents as [|[d_name dent_type] rest IH]; intros Hsound Hnone;
    [done|].
  assert (allocate_tmpdir_reuse tmpdir tmpdir_prefix rest
          = (tmpdir, TmpOk None)) as Hrest.
  { apply IH.
    - intros name dent_type' Hname. apply (Hsound name dent_type').
      apply elem_of_cons. by right.
    - intros name (Hprefix & (dt & Hin & Hdt) & Hsub).
      apply (Hnone name). split_and!; try done.
      exists dt. split; [by apply elem_of_cons; right|done]. }
  cbn [allocate_tmpdir_reuse].
  destruct (String.prefix tmpdir_prefix d_name) eqn:Hprefix; cbn [negb];
    [|done].
  destruct (negb (bool_decide (dent_type = DT_UNKNOWN))
            && negb (bool_decide (dent_type = DT_DIR))) eqn:Htype; [done|].
  destruct (Hsound d_name dent_type) as [Hentry _];
    [by apply elem_of_cons; left|done|].
  unfold glnx_opendirat. destruct Hentry as [Hentry| ->]; [|done].
  destruct (Hnone d_name). split_and!; try done.
  exists dent_type. split; [by apply elem_of_cons; left|].
  destruct dent_type; cbn in Htype; auto; done.
Qed.

Lemma lock_of_ne (name : string) : lock_of name ≠ name.
Proof.
  unfold lock_of. intros Heq%(f_equal String.length).
  rewrite string_length_app in Heq. cbn in Heq. lia.
Qed.

Section AllocateTmpdirFacts.
Variable TMPDIR_STAGING : string.
Variable TMPDIR_FETCHER : string.
Variable dirfd_iterator : gmap string tmp_entry → list (string * d_type).
Variable mkdtempat_suffix : gmap string tmp_entry → option string.

#[local] Abbreviation allocate_tmpdir :=
  (_ostree_repo_allocate_tmpdir TMPDIR_STAGING TMPDIR_FETCHER dirfd_iterator
     mkdtempat_suffix).

(** The second loop: the directory it returns is new, and it has taken
    its lock. *)
Lemma allocate_tmpdir_new_inv
    (fuel : nat) (tmpdir_prefix : string) (tmpdir tmpdir' : TmpDir)
    (name : string) :
  allocate_tmpdir_new mkdtempat_suffix fuel tmpdir tmpdir_prefix
  = Some (tmpdir', TmpOk name) →
  String.prefix tmpdir_prefix name = true
  ∧ tmp_entries tmpdir !! name = None
  ∧ tmp_entries tmpdir' !! name = Some TmpSubdir
  ∧ (lock_of name ∉ tmp_locked tmpdir)
  ∧ tmp_locked tmpdir' = {[lock_of name]} ∪ tmp_locked tmpdir
  ∧ tmp_entries tmpdir ⊆ tmp_entries tmpdir'.
Proof.
  revert tmpdir. induction fuel as [|fuel IH]; intros tmpdir; [done|].
  cbn [allocate_tmpdir_new]. unfold glnx_mkdtempat.
  destruct (mkdtempat_suffix (tmp_entries tmpdir)) as [suffix|]; [|done].
  destruct (tmp_entries tmpdir !! (tmpdir_prefix +:+ suffix)) eqn:Hfresh;
    [done|].
  set (made := tmpdir_prefix +:+ suffix) in *.
  unfold glnx_opendirat. cbn [tmp_entries]. rewrite lookup_insert_eq.
  destruct (_ostree_repo_try_lock_tmpdir _ made)
    as [tmpdir2 [[]|e|]] eqn:Hlock; [| |done..].
  - intros [= <- <-].
    apply try_lock_tmpdir_inv in Hlock as [Hgrown [Hfree Hlocked]].
    cbn [tmp_entries tmp_locked] in *.
    split_and!; try done.
    + apply string_prefix_app.
    + apply (grown_by_lock_files_subdir _ _ _ Hgrown), lookup_insert_eq.
    + etrans; [by apply insert_subseteq|].
      by apply grown_by_lock_files_subseteq.
  - intros (Hprefix & Hnew & Hsub & Hfree & Hlocked & Hsubset)%IH.
    apply try_lock_tmpdir_inv in Hlock as [Hgrown [_ Hlocked1]].
    cbn [tmp_entries tmp_locked] in *.
    assert (tmp_entries tmpdir ⊆ tmp_entries tmpdir2) as Hsubset1.
    { etrans; [by apply (insert_subseteq _ made TmpSubdir)|].
      by apply grown_by_lock_files_subseteq. }
    rewrite Hlocked1 in Hfree, Hlocked.
    split_and!; try done.
    + destruct (tmp_entries tmpdir !! name) as [entry|] eqn:Hentry; [|done].
      apply (lookup_weaken _ _ _ _ Hentry) in Hsubset1. congruence.
    + by etrans.
Qed.

(** X27: the directory that [_ostree_repo_allocate_tmpdir] returns is
    locked by the caller and by nobody else: its name has the prefix asked
    for, which is one of the two locked kinds; it is a directory; the lock
    on its lock file was held by nobody before, and is the one lock taken;
    nothing is removed from [tmp/].  A directory reported as reused was
    there before, one not reported as reused was not, and is only made when
    every candidate of the listing was locked. *)
Theorem allocate_tmpdir_returns_locked_directory
    (fuel : nat) (tmpdir tmpdir' : TmpDir) (tmpdir_prefix name : string)
    (reusing_dir : bool) :
  allocate_tmpdir fuel tmpdir tmpdir_prefix
  = Some (tmpdir', TmpOk (name, reusing_dir)) →
  _ostree_repo_is_locked_tmpdir TMPDIR_STAGING TMPDIR_FETCHER tmpdir_prefix
  = true
  ∧ String.prefix tmpdir_prefix name = true
  ∧ tmp_entries tmpdir' !! name = Some TmpSubdir
  ∧ (lock_of name ∉ tmp_locked tmpdir)
  ∧ tmp_locked tmpdir' = {[lock_of name]} ∪ tmp_locked tmpdir
  ∧ tmp_entries tmpdir ⊆ tmp_entries tmpdir'
  ∧ if reusing_dir
    then tmp_entries tmpdir !! name = Some TmpSubdir
    else tmp_entries tmpdir !! name = None
         ∧ ∀ candidate,
             tmpdir_candidate tmpdir_prefix
               (dirfd_iterator (tmp_entries tmpdir)) tmpdir candidate →
             lock_of candidate ∈ tmp_locked tmpdir.
Proof.
  unfold _ostree_repo_allocate_tmpdir.
  destruct (_ostree_repo_is_locked_tmpdir _ _ _); cbn [negb]; [|done].
  destruct (allocate_tmpdir_reuse _ _ _) as [tmpdir1 [[reused|]|e|]]
    eqn:Hreuse; [| |done..].
  - intros [= <- <- <-].
    apply allocate_tmpdir_reuse_inv in Hreuse
      as (Hgrown & (Hprefix & _ & Hsub) & Hfree & Hlocked).
    split_and!; try done.
    + by apply (grown_by_lock_files_subdir _ _ _ Hgrown).
    + by apply grown_by_lock_files_subseteq.
  - destruct (allocate_tmpdir_new _ _ _ _) as [[tmpdir2 [made|e|]]|]
      eqn:Hnew; [|done..].
    intros [= <- <- <-].
    apply allocate_tmpdir_reuse_inv in Hreuse as (Hgrown & Hlocked1 & Hall).
    apply allocate_tmpdir_new_inv in Hnew
      as (Hprefix & Hfresh & Hsub & Hfree & Hlocked & Hsubset).
    rewrite Hlocked1 in Hfree, Hlocked.
    apply grown_by_lock_files_subseteq in Hgrown.
    split_and!; try done.
    + by etrans.
    + destruct (tmp_entries tmpdir !! made) as [entry|] eqn:Hentry; [|done].
      apply (lookup_weaken _ _ _ _ Hentry) in Hgrown. congruence.
Qed.

(** X28: an existing directory is preferred to a new one.  If the listing
    of [tmp/] has a directory with the prefix whose lock nobody holds, and
    no system call fails on the listed entries with the prefix, the
    allocation returns, for a prefix of the two locked kinds and whatever
    the bound on the second loop, with a reused directory, and makes no
    directory. *)
Theorem allocate_tmpdir_prefers_existing
    (fuel : nat) (tmpdir : TmpDir) (tmpdir_prefix candidate : string) :
  _ostree_repo_is_locked_tmpdir TMPDIR_STAGING TMPDIR_FETCHER tmpdir_prefix
  = true →
  tmpdir_listing_sound tmpdir_prefix (dirfd_iterator (tmp_entries tmpdir))
    tmpdir →
  tmpdir_candidate tmpdir_prefix (dirfd_iterator (tmp_entries tmpdir))
    tmpdir candidate →
  lock_of candidate ∉ tmp_locked tmpdir →
  ∃ tmpdir' name,
    allocate_tmpdir fuel tmpdir tmpdir_prefix
    = Some (tmpdir', TmpOk (name, true))
    ∧ ∀ other, tmp_entries tmpdir' !! other = Some TmpSubdir
               ↔ tmp_entries tmpdir !! other = Some TmpSubdir.
Proof.
  intros Hkind Hsound Hcandidate Hfree.
  unfold _ostree_repo_allocate_tmpdir. rewrite Hkind. cbn [negb].
  destruct (allocate_tmpdir_reuse_finds _ _ _ _ Hsound Hcandidate Hfree)
    as (tmpdir' & name & Hreuse).
  rewrite Hreuse. exists tmpdir', name. split; [done|].
  apply allocate_tmpdir_reuse_inv in Hreuse as [Hgrown _].
  intros other. by apply grown_by_lock_files_subdir.
Qed.

(** X29: without a candidate in the listing, a directory is made.  If the
    listing of [tmp/] has no directory with the prefix, no system call
    fails on its entries with the prefix, [glnx_mkdtempat] makes a name
    that is free and so is its lock, then the allocation returns within
    one round of the second loop: the directory made and its lock file are
    what [tmp/] gains, and the lock is the one lock taken. *)
Theorem allocate_tmpdir_makes_directory
    (fuel : nat) (tmpdir : TmpDir) (tmpdir_prefix suffix : string) :
  let name := tmpdir_prefix +:+ suffix in
  _ostree_repo_is_locked_tmpdir TMPDIR_STAGING TMPDIR_FETCHER tmpdir_prefix
  = true →
  tmpdir_listing_sound tmpdir_prefix (dirfd_iterator (tmp_entries tmpdir))
    tmpdir →
  (∀ candidate,
     ¬ tmpdir_candidate tmpdir_prefix (dirfd_iterator (tmp_entries tmpdir))
         tmpdir candidate) →
  mkdtempat_suffix (tmp_entries tmpdir) = Some suffix →
  tmp_entries tmpdir !! name = None →
  tmp_entries tmpdir !! lock_of name = None
  ∨ tmp_entries tmpdir !! lock_of name = Some TmpFile →
  lock_of name ∉ tmp_locked tmpdir →
  allocate_tmpdir (S fuel) tmpdir tmpdir_prefix
  = Some (mkTmpDir
            (<[lock_of name := TmpFile]>
               (<[name := TmpSubdir]> (tmp_entries tmpdir)))
            ({[lock_of name]} ∪ tmp_locked tmpdir),
          TmpOk (name, false)).
Proof.
  intros name Hkind Hsound Hnone Hsuffix Hfresh Hlock Hfree.
  unfold _ostree_repo_allocate_tmpdir. rewrite Hkind. cbn [negb].
  rewrite allocate_tmpdir_reuse_none by done.
  cbn [allocate_tmpdir_new]. unfold glnx_mkdtempat.
  rewrite Hsuffix. fold name. rewrite Hfresh.
  unfold glnx_opendirat. cbn [tmp_entries]. rewrite lookup_insert_eq.
  unfold _ostree_repo_try_lock_tmpdir, glnx_make_lock_file.
  fold (lock_of name). cbn [tmp_entries tmp_locked].
  rewrite lookup_insert_ne by (apply not_eq_sym, lock_of_ne).
  rewrite bool_decide_eq_false_2 by done.
  by destruct Hlock as [-> | ->].
Qed.
End AllocateTmpdirFacts.
(** * The further properties on the example repositories *)

(** X4 on the chain of three of scenario 3: no repository has a remote
    [origin]. *)
Lemma unknown_remote_not_found_witness :
  ostree_repo_get_remote_option Scenario.parse_string
    Scenario.upstream_grandchild "origin" "url" (Some "fallback")
  = GErr G_IO_ERROR_NOT_FOUND
  ∧ ostree_repo_remote_get_url Scenario.parse_string
      Scenario.upstream_grandchild "origin"
    = GErr G_IO_ERROR_NOT_FOUND.
Proof.
  pose proof (unknown_remote_not_found
                Scenario.parse_string Scenario.parse_string_list
                Scenario.parse_boolean Scenario.upstream_grandchild
                "origin" "url" (Some "fallback") true) as Hunknown.
  destruct Hunknown as (Hoption & _ & _ & Hurl & _);
    [reflexivity|repeat constructor|].
  by split.
Defined.

(** X5 on the same chain: the grandchild has no remote [upstream], the
    child has one without [url], the parent has the URL. *)
Lemma remote_option_nearest_definition_wins_witness :
  ostree_repo_get_remote_option Scenario.parse_string
    Scenario.upstream_grandchild "upstream" "url" None
  = GOk (Some "https://a/").
Proof.
  apply (remote_option_nearest_definition_wins
           Scenario.parse_string Scenario.parse_string_list
           Scenario.parse_boolean
           Scenario.upstream_grandchild Scenario.upstream_parent
           [Scenario.upstream_grandchild; Scenario.upstream_child] []
           "upstream" "url" "https://a/" None true).
  - reflexivity.
  - reflexivity.
  - constructor; [by left|]. constructor; [by right|]. constructor.
  - reflexivity.
  - reflexivity.
Defined.

(** X7 on an empty repository with an empty parent, and X8 on the same
    pair. *)
Lemma absent_metadata_is_not_loaded_witness :
  ostree_repo_has_object Scenario.empty_child OSTREE_OBJECT_TYPE_COMMIT
    Scenario.digest = GOk false
  ∧ (ostree_repo_load_variant Scenario.empty_child OSTREE_OBJECT_TYPE_COMMIT
       Scenario.digest).2 = GErr G_IO_ERROR_NOT_FOUND
  ∧ (ostree_repo_load_variant_if_exists Scenario.empty_child
       OSTREE_OBJECT_TYPE_COMMIT Scenario.digest).2
    = GErr G_IO_ERROR_NOT_FOUND.
Proof.
  split; [reflexivity|].
  apply (absent_metadata_is_not_loaded Scenario.empty_child
           OSTREE_OBJECT_TYPE_COMMIT Scenario.digest).
  - reflexivity.
  - repeat constructor.
  - reflexivity.
Defined.

Lemma absent_content_is_not_loaded_witness :
  ostree_repo_load_file Scenario.no_archive_codec Scenario.empty_child
    Scenario.digest true true true
  = GErr G_IO_ERROR_NOT_FOUND.
Proof.
  apply (absent_content_is_not_loaded Scenario.no_archive_codec
           Scenario.empty_child Scenario.digest false false false true
           true true).
  reflexivity.
Defined.

(** X9 on the bare-user-only repository whose bare parent has the file. *)
Lemma storage_size_does_not_ask_parent_witness :
  ostree_repo_has_object Scenario.user_only_child OSTREE_OBJECT_TYPE_FILE
    Scenario.digest = GOk true
  ∧ ostree_repo_query_object_storage_size Scenario.user_only_child
      OSTREE_OBJECT_TYPE_FILE Scenario.digest
    = GErr G_IO_ERROR_NOT_FOUND
  ∧ ostree_repo_query_object_storage_size Scenario.bare_parent
      OSTREE_OBJECT_TYPE_FILE Scenario.digest
    = GOk 5%Z.
Proof.
  split_and!; [| |reflexivity].
  all: apply (storage_size_does_not_ask_parent Scenario.user_only_child
                Scenario.bare_parent OSTREE_OBJECT_TYPE_FILE
                Scenario.digest); reflexivity.
Defined.


(** X11: the parent has the commit and its partial marker, the child has
    neither; through the child the commit is not partial. *)
Lemma load_commit_inherited_is_not_partial :
  (ostree_repo_load_commit
     (set_repo_dir Scenario.with_one_commit
        {[_ostree_get_commitpartial_path Scenario.digest
            := Entry (Scenario.regular_file 0 0 [] [])]})
     Scenario.digest true true).2
  = GOk (Some (mkGVariant OSTREE_OBJECT_TYPE_COMMIT [Byte.x02] HeapBuffer),
         Some OSTREE_REPO_COMMIT_STATE_PARTIAL)
  ∧ (ostree_repo_load_commit
       (set_parent_repo Scenario.commit_child
          (Some (set_repo_dir Scenario.with_one_commit
                   {[_ostree_get_commitpartial_path Scenario.digest
                       := Entry (Scenario.regular_file 0 0 [] [])]})))
       Scenario.digest true true).2
    = GOk (Some (mkGVariant OSTREE_OBJECT_TYPE_COMMIT [Byte.x02] HeapBuffer),
           Some 0%Z).
Proof. split; vm_compute; reflexivity. Qed.

(** X12 on a handle without cache and without reference. *)
Lemma memory_cache_ref_count_consistent_witness :
  _ostree_repo_memory_cache_ref_destroy
    (_ostree_repo_memory_cache_ref_init Scenario.with_one_commit 0).1
    (_ostree_repo_memory_cache_ref_init Scenario.with_one_commit 0).2
  = (Scenario.with_one_commit, 0%Z).
Proof.
  apply (memory_cache_ref_count_consistent Scenario.with_one_commit 0);
    [by vm_compute|done].
Defined.

(** X13 and X15 on the repository with the directory metadata in
    [objects/], X14 on the one with it in the staging directory. *)
Lemma delete_object_removes_that_path_witness :
  ostree_repo_delete_object Scenario.get_boolean_with_default
    Scenario.write_metadata_trusted Scenario.with_dirmeta
    OSTREE_OBJECT_TYPE_DIR_META Scenario.digest
  = (set_objects_dir Scenario.with_dirmeta ∅, GOk ())
  ∧ ostree_repo_has_object
      (ostree_repo_delete_object Scenario.get_boolean_with_default
         Scenario.write_metadata_trusted Scenario.with_dirmeta
         OSTREE_OBJECT_TYPE_DIR_META Scenario.digest).1
      OSTREE_OBJECT_TYPE_DIR_META Scenario.digest
    = GOk false.
Proof.
  pose proof (delete_object_removes_that_path
                Scenario.get_boolean_with_default
                Scenario.write_metadata_trusted Scenario.with_dirmeta
                OSTREE_OBJECT_TYPE_DIR_META Scenario.digest
                Scenario.stored_commit) as Hdelete.
  cbv zeta in Hdelete.
  specialize (Hdelete ltac:(done) eq_refl).
  change (S_ISDIR (st_mode Scenario.stored_commit)) with false in Hdelete.
  destruct Hdelete as (Hdeleted & _ & Habsent).
  split; [|by apply Habsent].
  rewrite Hdeleted. reflexivity.
Defined.

Lemma delete_object_outside_objects_dir_witness :
  ostree_repo_has_object Scenario.staged_dirmeta OSTREE_OBJECT_TYPE_DIR_META
    Scenario.digest = GOk true
  ∧ ostree_repo_delete_object Scenario.get_boolean_with_default
      Scenario.write_metadata_trusted Scenario.staged_dirmeta
      OSTREE_OBJECT_TYPE_DIR_META Scenario.digest
    = (Scenario.staged_dirmeta, GErr G_IO_ERROR_NOT_FOUND).
Proof.
  split; [reflexivity|].
  apply (delete_object_outside_objects_dir
           Scenario.get_boolean_with_default Scenario.write_metadata_trusted
           Scenario.staged_dirmeta OSTREE_OBJECT_TYPE_DIR_META
           Scenario.digest); [done|reflexivity].
Defined.

Lemma dirmeta_cache_outlives_object_witness :
  (ostree_repo_load_variant
     (ostree_repo_delete_object Scenario.get_boolean_with_default
        Scenario.write_metadata_trusted
        (ostree_repo_load_variant Scenario.with_dirmeta
           OSTREE_OBJECT_TYPE_DIR_META Scenario.digest).1
        OSTREE_OBJECT_TYPE_DIR_META Scenario.digest).1
     OSTREE_OBJECT_TYPE_DIR_META Scenario.digest).2
  = (ostree_repo_load_variant Scenario.with_dirmeta
       OSTREE_OBJECT_TYPE_DIR_META Scenario.digest).2
  ∧ ostree_repo_has_object
      (ostree_repo_delete_object Scenario.get_boolean_with_default
         Scenario.write_metadata_trusted
         (ostree_repo_load_variant Scenario.with_dirmeta
            OSTREE_OBJECT_TYPE_DIR_META Scenario.digest).1
         OSTREE_OBJECT_TYPE_DIR_META Scenario.digest).1
      OSTREE_OBJECT_TYPE_DIR_META Scenario.digest
    = GOk false.
Proof.
  pose proof (dirmeta_cache_outlives_object
                Scenario.get_boolean_with_default
                Scenario.write_metadata_trusted Scenario.with_dirmeta
                Scenario.digest Scenario.stored_commit ∅) as Hcache.
  cbv zeta in Hcache.
  destruct Hcache as (_ & _ & Hcached & Habsent); [reflexivity..|].
  split; [exact Hcached|by apply Habsent].
Defined.

(** X16 on the repository with an unsigned commit. *)
Lemma unsigned_commit_is_not_verified_witness :
  _ostree_repo_verify_commit_internal (engine := Scenario.gpg)
    Scenario.with_one_commit Scenario.digest NO_REMOTE None None
  = (Scenario.with_one_commit, GErr G_IO_ERROR_NOT_FOUND).
Proof.
  apply (unsigned_commit_is_not_verified (engine := Scenario.gpg)
           Scenario.with_one_commit Scenario.digest
           (mkGVariant OSTREE_OBJECT_TYPE_COMMIT [Byte.x02] HeapBuffer)
           None NO_REMOTE None None); [reflexivity|reflexivity|by left].
Defined.

(** X18 and X19 on an open repository with an empty configuration. *)
Lemma set_collection_id_then_get_witness :
  ostree_repo_get_collection_id
    (ostree_repo_set_collection_id Scenario.validate_collection_id
       Scenario.parse_string_as_value Scenario.with_one_commit
       (Some "org.example.Os")).1
  = Some "org.example.Os"
  ∧ g_key_file_lookup
      (config
         (ostree_repo_set_collection_id Scenario.validate_collection_id
            Scenario.parse_string_as_value Scenario.with_one_commit
            (Some "org.example.Os")).1)
      "core" "collection-id"
    = GOk "org.example.Os".
Proof.
  destruct (set_collection_id_then_get Scenario.validate_collection_id
              Scenario.parse_string_as_value Scenario.with_one_commit
              "org.example.Os") as (_ & Hid & Hconfig & _);
    [reflexivity..|].
  by split.
Defined.

Lemma clear_collection_id_without_key_witness :
  ostree_repo_set_collection_id Scenario.validate_collection_id
    Scenario.parse_string_as_value
    (set_collection_id_field Scenario.with_one_commit (Some "org.example.Os"))
    None
  = (Scenario.with_one_commit, GErr G_KEY_FILE_ERROR_GROUP_NOT_FOUND).
Proof.
  destruct (clear_collection_id_without_key
              Scenario.validate_collection_id Scenario.parse_string_as_value
              (set_collection_id_field Scenario.with_one_commit
                 (Some "org.example.Os"))) as (_ & Hresult & _);
    [reflexivity|].
  reflexivity.
Defined.





(** X23 and X24: a remote is added to the repository of scenario 3 and
    deleted again. *)
Lemma remote_add_registers_or_refuses_witness :
  impl_repo_remote_add Scenario.validate_remote_name Scenario.remotes_d_dir
    Scenario.make_directory_with_parents Scenario.file_replace_contents
    Scenario.key_file_to_data Scenario.key_file_load_from_data
    Scenario.parse_string_as_value Scenario.parse_string_list_as_value
    Scenario.keyfile_copy_group
    Scenario.upstream_parent None false "upstream" "https://b/" None
  = (Scenario.upstream_parent, GErr G_IO_ERROR_FAILED)
  ∧ ostree_repo_remote_get_url Scenario.parse_string
      (impl_repo_remote_add Scenario.validate_remote_name
         Scenario.remotes_d_dir Scenario.make_directory_with_parents
         Scenario.file_replace_contents Scenario.key_file_to_data
         Scenario.key_file_load_from_data Scenario.parse_string_as_value
         Scenario.parse_string_list_as_value Scenario.keyfile_copy_group
         Scenario.upstream_parent None false "mirror" "https://b/" None).1
      "mirror"
    = GOk "https://b/".
Proof.
  destruct (remote_add_registers_or_refuses Scenario.validate_remote_name
              Scenario.remotes_d_dir Scenario.make_directory_with_parents
              Scenario.file_replace_contents Scenario.key_file_to_data
              Scenario.key_file_load_from_data Scenario.parse_string_as_value
              Scenario.parse_string_list_as_value Scenario.keyfile_copy_group
              Scenario.upstream_parent None false "upstream" "https://b/"
              None eq_refl) as [Hrefused _].
  destruct (remote_add_registers_or_refuses Scenario.validate_remote_name
              Scenario.remotes_d_dir Scenario.make_directory_with_parents
              Scenario.file_replace_contents Scenario.key_file_to_data
              Scenario.key_file_load_from_data Scenario.parse_string_as_value
              Scenario.parse_string_list_as_value Scenario.keyfile_copy_group
              Scenario.upstream_parent None false "mirror" "https://b/"
              None eq_refl) as [_ Hadded].
  split.
  - by apply (Hrefused
                (Scenario.remote "upstream" {["url" := "https://a/"]})).
  - destruct Hadded as (remote & Hfound & _ & Hurl & _); [reflexivity..|].
    specialize (Hurl eq_refl). cbn in Hurl.
    unfold ostree_repo_remote_get_url.
    change (_ostree_repo_remote_name_is_file "mirror") with false.
    cbv iota.
    rewrite get_option_step by done.
    unfold _ostree_repo_get_remote in Hfound.
    destruct (remotes _ !! "mirror") as [found|]; [|done].
    injection Hfound as ->. unfold g_key_file_get. by rewrite Hurl.
Defined.

Lemma remote_delete_forgets_or_refuses_witness :
  impl_repo_remote_delete Scenario.validate_remote_name Scenario.unlink_file
    Scenario.key_file_to_data Scenario.key_file_load_from_data
    Scenario.upstream_parent None false "mirror"
  = (Scenario.upstream_parent, GErr G_IO_ERROR_NOT_FOUND)
  ∧ _ostree_repo_get_remote
      (impl_repo_remote_delete Scenario.validate_remote_name
         Scenario.unlink_file Scenario.key_file_to_data
         Scenario.key_file_load_from_data
         Scenario.upstream_parent None false "upstream").1 "upstream"
    = GErr G_IO_ERROR_NOT_FOUND.
Proof.
  destruct (remote_delete_forgets_or_refuses Scenario.validate_remote_name
              Scenario.unlink_file Scenario.key_file_to_data
              Scenario.key_file_load_from_data
              Scenario.upstream_parent None false "mirror" eq_refl)
    as [Hrefused _].
  destruct (remote_delete_forgets_or_refuses Scenario.validate_remote_name
              Scenario.unlink_file Scenario.key_file_to_data
              Scenario.key_file_load_from_data
              Scenario.upstream_parent None false "upstream" eq_refl)
    as [_ Hforgotten].
  split; [by apply Hrefused|].
  by apply (Hforgotten (Scenario.remote "upstream" {["url" := "https://a/"]})).
Defined.

(** X17: a key file with the remote [upstream] is refused by the
    repository that has it, and taken by an empty one. *)
Lemma add_remotes_from_keyfile_example :
  add_remotes_from_keyfile Scenario.upstream_parent
    {[remote_group_of "upstream" := {["url" := "https://b/"]};
      "core" := {["mode" := "bare"]}]} None
  = (Scenario.upstream_parent, GErr G_IO_ERROR_FAILED)
  ∧ ostree_repo_remote_get_url Scenario.parse_string
      (add_remotes_from_keyfile Scenario.with_one_commit
         {[remote_group_of "upstream" := {["url" := "https://b/"]};
           "core" := {["mode" := "bare"]}]} (Some "/etc/upstream.conf")).1
      "upstream"
    = GOk "https://b/".
Proof. split; vm_compute; reflexivity. Qed.

(** X20: a day, an hour, a minute and a second; and one hour sharp. *)
Lemma formatted_time_remaining_example :
  _formatted_time_remaining_from_seconds 90061
  = "1 days 1 hours 1 minutes 1 seconds "
  ∧ _formatted_time_remaining_from_seconds 3600
    = "1 hours 0 minutes 0 seconds ".
Proof. split; vm_compute; reflexivity. Qed.

(** X25: the directory metadata of a bare repository is linked into an
    empty archive repository of the same owner. *)
Lemma trusted_import_links_object_witness :
  ostree_repo_import_object_from_with_trust (engine := Scenario.gpg)
    Scenario.no_archive_codec Scenario.no_content_stream
    Scenario.ensure_loose_objdir_at Scenario.write_metadata_trusted_refused
    Scenario.write_metadata_refused Scenario.write_content_trusted_refused
    Scenario.write_content_refused None
    Scenario.archive_empty 1000 Scenario.with_dirmeta 1000
    OSTREE_OBJECT_TYPE_DIR_META Scenario.digest true
  = (Scenario.repo OSTREE_REPO_MODE_ARCHIVE_Z2
       {[Scenario.loose OSTREE_OBJECT_TYPE_DIR_META
           OSTREE_REPO_MODE_ARCHIVE_Z2 := Entry Scenario.stored_commit]}
       None None,
     Scenario.with_dirmeta, GOk ()).
Proof.
  pose proof (trusted_import_links_object (engine := Scenario.gpg)
                Scenario.no_archive_codec Scenario.no_content_stream
                Scenario.ensure_loose_objdir_at
                Scenario.write_metadata_trusted_refused
                Scenario.write_metadata_refused
                Scenario.write_content_trusted_refused
                Scenario.write_content_refused None
                Scenario.archive_empty 1000 Scenario.with_dirmeta 1000
                OSTREE_OBJECT_TYPE_DIR_META Scenario.digest
                Scenario.stored_commit) as Himport.
  cbv zeta in Himport.
  destruct Himport as (Hlinked & _);
    [reflexivity|reflexivity|reflexivity|done|done|reflexivity|reflexivity|].
  rewrite Hlinked. reflexivity.
Defined.

(** X26: the symbolic link of a bare-user repository is not linked into an
    empty bare-user-only repository of the same owner. *)
Lemma bare_user_symlink_is_copied_witness :
  import_one_object_link (engine := Scenario.gpg)
    Scenario.ensure_loose_objdir_at None
    Scenario.user_only_empty Scenario.bare_user_source Scenario.digest
    OSTREE_OBJECT_TYPE_FILE
  = (Scenario.user_only_empty, GOk false).
Proof.
  apply (bare_user_symlink_is_copied (engine := Scenario.gpg)
           Scenario.no_archive_codec Scenario.no_content_stream
           Scenario.ensure_loose_objdir_at
           Scenario.write_metadata_trusted_refused
           Scenario.write_metadata_refused
           Scenario.write_content_trusted_refused
           Scenario.write_content_refused None
           Scenario.user_only_empty 1000 Scenario.bare_user_source 1000
           Scenario.digest Scenario.bare_user_symlink);
    [reflexivity|reflexivity|reflexivity|].
  split; [reflexivity|]. exists (Z.lor S_IFLNK 0x1FF).
  split; reflexivity.
Defined.

(** X27 and X28 on a [tmp/] with a locked staging directory and one left
    behind: the one left behind is taken. *)
Lemma allocate_tmpdir_returns_locked_directory_witness :
  _ostree_repo_allocate_tmpdir Scenario.tmpdir_staging Scenario.tmpdir_fetcher
    Scenario.dirfd_iterator Scenario.mkdtempat_suffix 0 Scenario.tmp_two
    Scenario.staging_prefix
  = Some (mkTmpDir
            (<[lock_of Scenario.tmp_left := TmpFile]>
               (tmp_entries Scenario.tmp_two))
            ({[lock_of Scenario.tmp_left]} ∪ tmp_locked Scenario.tmp_two),
          TmpOk (Scenario.tmp_left, true))
  ∧ lock_of Scenario.tmp_left ∉ tmp_locked Scenario.tmp_two.
Proof.
  assert (_ostree_repo_allocate_tmpdir Scenario.tmpdir_staging
            Scenario.tmpdir_fetcher Scenario.dirfd_iterator
            Scenario.mkdtempat_suffix 0 Scenario.tmp_two
            Scenario.staging_prefix
          = Some (mkTmpDir
                    (<[lock_of Scenario.tmp_left := TmpFile]>
                       (tmp_entries Scenario.tmp_two))
                    ({[lock_of Scenario.tmp_left]}
                     ∪ tmp_locked Scenario.tmp_two),
                  TmpOk (Scenario.tmp_left, true))) as Hallocated
    by (vm_compute; reflexivity).
  split; [done|].
  by destruct (allocate_tmpdir_returns_locked_directory _ _ _ _ _ _ _ _ _ _
                 Hallocated) as (_ & _ & _ & Hfree & _).
Defined.

Lemma allocate_tmpdir_prefers_existing_witness :
  ∃ tmpdir' name,
    _ostree_repo_allocate_tmpdir Scenario.tmpdir_staging
      Scenario.tmpdir_fetcher Scenario.dirfd_iterator
      Scenario.mkdtempat_suffix 0 Scenario.tmp_two Scenario.staging_prefix
    = Some (tmpdir', TmpOk (name, true))
    ∧ ∀ other, tmp_entries tmpdir' !! other = Some TmpSubdir
               ↔ tmp_entries Scenario.tmp_two !! other = Some TmpSubdir.
Proof.
  apply (allocate_tmpdir_prefers_existing Scenario.tmpdir_staging
           Scenario.tmpdir_fetcher Scenario.dirfd_iterator
           Scenario.mkdtempat_suffix 0 Scenario.tmp_two
           Scenario.staging_prefix Scenario.tmp_left).
  - reflexivity.
  - intros name dent_type Hin _. vm_compute in Hin.
    repeat (apply elem_of_cons in Hin as [[= -> ->]|Hin]);
      [..|by apply elem_of_nil in Hin].
    all: split; [first [left; reflexivity|right; reflexivity]..].
  - split; [reflexivity|]. split; [|reflexivity].
    exists DT_UNKNOWN. split; [|by left].
    vm_compute. apply elem_of_cons; right. apply elem_of_cons; right.
    apply elem_of_cons; by left.
  - by vm_compute.
Defined.

(** X29 on an empty [tmp/]: a staging directory is made and locked. *)
Lemma allocate_tmpdir_makes_directory_witness :
  _ostree_repo_allocate_tmpdir Scenario.tmpdir_staging Scenario.tmpdir_fetcher
    Scenario.dirfd_iterator Scenario.mkdtempat_suffix 1 Scenario.tmp_empty
    Scenario.staging_prefix
  = Some (mkTmpDir
            {[lock_of "staging-boot-cccccc" := TmpFile;
              "staging-boot-cccccc" := TmpSubdir]}
            {[lock_of "staging-boot-cccccc"]},
          TmpOk ("staging-boot-cccccc", false)).
Proof.
  pose proof (allocate_tmpdir_makes_directory Scenario.tmpdir_staging
                Scenario.tmpdir_fetcher Scenario.dirfd_iterator
                Scenario.mkdtempat_suffix 0 Scenario.tmp_empty
                Scenario.staging_prefix "cccccc") as Hmade.
  cbv zeta in Hmade. rewrite Hmade.
  - vm_compute. reflexivity.
  - reflexivity.
  - intros name dent_type Hin. vm_compute in Hin.
    by apply elem_of_nil in Hin.
  - intros candidate (_ & (dent_type & Hin & _) & _). vm_compute in Hin.
    by apply elem_of_nil in Hin.
  - reflexivity.
  - reflexivity.
  - by left.
  - by vm_compute.
Defined.
